(** * mini_database: the pager, the row codec and the row store of [src/main.c]

    A shallow embedding of the storage core of the program: the [Row]
    structure and its (de)serialisation, the [Pager] with its array of
    page buffers over one file descriptor, the [Table] with its row
    counter, and the two statements that touch them
    ([executeInsertStatement], [executeSelectStatement]) together with
    [openDatabase] and [closeDatabase]; then of the command line in front
    of it: the C strings of the input buffer, [prepareStatement] and
    [prepareInsertStatement], [printRow], [readInput], [doMetaCommand],
    [executeStatement] and the loop of [main].

    Conventions.
    - [uint32_t] values are [Z] with the wrap-around [uint32] written where
      the C arithmetic is done in 32 bits.
    - Memory is bytes: a page buffer is a [list byte]; a pointer into a
      page is the page slot plus a byte offset. The four bytes of a
      [uint32_t] are taken least significant first.
    - [printf]/[exit(EXIT_FAILURE)] is the outcome [Exit]; an access outside
      the [pages] array is the outcome [Undefined], and so are, in the
      command line, a [printf] of a string without terminator, an [atoi]
      outside [int] and a store outside an allocated block.
    - [malloc] does not initialise what it returns: the contents of a fresh
      block are a parameter ([malloc]) of every function that allocates.
    - Neither is the [Statement] of the loop body initialised: what it
      holds in each iteration is a parameter ([uninitialised]) of the
      loop.
    - Standard input is the bytes still to be read, standard output the
      bytes printed so far. *)

From Stdlib Require Import ZArith List Lia String.
From stdpp Require Import base list.
From coqutil Require Import Byte Word.LittleEndianList.
Local Open Scope Z_scope.

Abbreviation byte := Init.Byte.byte.
Abbreviation NUL := Byte.x00.

(** Arithmetic on [uint32_t]. *)
Definition uint32 (z : Z) : Z := z mod 2 ^ 32.

(** ** Constants and the row structure *)

Definition COLUMN_USERNAME_SIZE : Z := 32.
Definition COLUMN_EMAIL_SIZE : Z := 255.
Definition TABLE_MAX_PAGES : Z := 100.

(** [struct Row]: [id] is a [uint32_t], [username] an array of
    [COLUMN_USERNAME_SIZE + 1] chars, [email] one of [COLUMN_EMAIL_SIZE + 1]. *)
Record Row := mkRow { id : Z; username : list byte; email : list byte }.

Definition ID_SIZE : Z := 4.
Definition USERNAME_SIZE : Z := COLUMN_USERNAME_SIZE + 1.
Definition EMAIL_SIZE : Z := COLUMN_EMAIL_SIZE + 1.
Definition ID_OFFSET : Z := 0.
Definition USERNAME_OFFSET : Z := uint32 (ID_OFFSET + ID_SIZE).
Definition EMAIL_OFFSET : Z := uint32 (USERNAME_OFFSET + USERNAME_SIZE).
Definition ROW_SIZE : Z := uint32 (ID_SIZE + USERNAME_SIZE + EMAIL_SIZE).

Definition PAGE_SIZE : Z := 4096.
Definition ROWS_PER_PAGE : Z := PAGE_SIZE / ROW_SIZE.
Definition TABLE_MAX_ROWS : Z := uint32 (ROWS_PER_PAGE * TABLE_MAX_PAGES).

(** What the C type of [Row] guarantees of a value. *)
Definition struct_Row (r : Row) : Prop :=
  0 <= id r < 2 ^ 32 /\
  Z.of_nat (length (username r)) = USERNAME_SIZE /\
  Z.of_nat (length (email r)) = EMAIL_SIZE.

(** [strlen] on a char array: the number of bytes before the first NUL
    (the length of the array when it holds none). *)
Fixpoint strlen (s : list byte) : Z :=
  match s with
  | [] => 0
  | c :: s' => if Byte.eqb c NUL then 0 else 1 + strlen s'
  end.

(** A row as [prepareInsertStatement] lets it through: both strings are
    NUL-terminated inside their arrays and within the column sizes. *)
Definition valid_row (r : Row) : Prop :=
  struct_Row r /\
  strlen (username r) <= COLUMN_USERNAME_SIZE /\
  strlen (email r) <= COLUMN_EMAIL_SIZE.

(** ** Outcomes *)

Inductive fatal : Set :=
| PageOutOfBounds   (* "Tried to fetch page number out of bounds." *)
| ReadError         (* "Error reading file" *)
| FlushNullPage     (* "Tried to flush null page" *)
| SeekError         (* "Error seeking" *)
| WriteError        (* "Error writing" *)
| CloseError.       (* "Error closing db file." *)

Inductive outcome (A : Type) : Type :=
| Ok (a : A)
| Exit (e : fatal)
| Undefined.
Arguments Ok {A} a.
Arguments Exit {A} e.
Arguments Undefined {A}.

Definition bind {A B} (m : outcome A) (k : A -> outcome B) : outcome B :=
  match m with
  | Ok a => k a
  | Exit e => Exit e
  | Undefined => Undefined
  end.

Notation "'let*' p := m 'in' k" := (bind m (fun p => k))
  (at level 10, p pattern, m at level 100, k at level 200).

Inductive ExecuteResult : Set := EXECUTE_SUCCESS | EXECUTE_TABLE_FULL.

(** ** Bytes in memory *)

(** The [n] bytes of [buf] from offset [off]. *)
Definition bytes_at (buf : list byte) (off n : Z) : list byte :=
  take (Z.to_nat n) (drop (Z.to_nat off) buf).

(** [memcpy(buf + off, src, n)]. *)
Definition memcpy (buf : list byte) (off : Z) (src : list byte) (n : Z)
  : list byte :=
  take (Z.to_nat off) buf ++ take (Z.to_nat n) src
    ++ drop (Z.to_nat (off + n)) buf.

(** ** The row codec *)

(** [serializeRow(source, dest)], [dest] being offset [dest] of [mem]. *)
Definition serializeRow (source : Row) (mem : list byte) (dest : Z)
  : list byte :=
  let mem := memcpy mem (dest + ID_OFFSET) (le_split 4 (id source)) ID_SIZE in
  let mem := memcpy mem (dest + USERNAME_OFFSET) (username source)
               USERNAME_SIZE in
  memcpy mem (dest + EMAIL_OFFSET) (email source) EMAIL_SIZE.

(** [deserializeRow(source, dest)], [source] being offset [source] of [mem]. *)
Definition deserializeRow (mem : list byte) (source : Z) : Row :=
  {| id := le_combine (bytes_at mem (source + ID_OFFSET) ID_SIZE);
     username := bytes_at mem (source + USERNAME_OFFSET) USERNAME_SIZE;
     email := bytes_at mem (source + EMAIL_OFFSET) EMAIL_SIZE |}.

(** The record a row is stored as: what [serializeRow] leaves in the
    [ROW_SIZE] bytes it is given. *)
Definition encode (r : Row) : list byte :=
  serializeRow r (replicate (Z.to_nat ROW_SIZE) NUL) 0.

Definition decode (record : list byte) : Row := deserializeRow record 0.

(** ** The file behind the descriptor *)

(** An open file: its bytes and the descriptor's offset. *)
Record File := mkFile { contents : list byte; pos : Z }.

(** [open(fn, O_RDWR | O_CREAT, ...)] on a file holding [bytes]
    (no bytes when the file is created). The file is taken to open: the
    exit of [openPager] on [fd == -1] has no counterpart here. *)
Definition open (bytes : list byte) : File :=
  {| contents := bytes; pos := 0 |}.

(** [lseek(fd, 0, SEEK_END)]. *)
Definition lseek_end (fd : File) : Z * File :=
  let len := Z.of_nat (length (contents fd)) in
  (len, {| contents := contents fd; pos := len |}).

(** [lseek(fd, off, SEEK_SET)]. *)
Definition lseek_set (fd : File) (off : Z) : Z * File :=
  (off, {| contents := contents fd; pos := off |}).

(** [read(fd, buf, n)]: the bytes read, at most [n] and none past the end of
    the file, land at the start of [buf]; the rest of [buf] is untouched. *)
Definition read (fd : File) (buf : list byte) (n : Z)
  : Z * list byte * File :=
  let got := bytes_at (contents fd) (pos fd) n in
  let bytesRead := Z.of_nat (length got) in
  (bytesRead, got ++ drop (length got) buf,
   {| contents := contents fd; pos := pos fd + bytesRead |}).

(** [write(fd, buf, n)]: a write of no bytes changes nothing; a write past
    the end of the file leaves a hole of zero bytes between the old end
    and the offset. *)
Definition write (fd : File) (buf : list byte) (n : Z) : Z * File :=
  let data := take (Z.to_nat n) buf in
  match data with
  | [] => (0, fd)
  | _ :: _ =>
      let off := Z.to_nat (pos fd) in
      let old :=
        contents fd ++ replicate (off - length (contents fd))%nat NUL in
      let bytesWritten := Z.of_nat (length data) in
      (bytesWritten,
       {| contents := take off old ++ data ++ drop (off + length data)%nat old;
          pos := pos fd + bytesWritten |})
  end.

(** [close(fd)]: what is left on disk. *)
Definition close (fd : File) : Z * list byte := (0, contents fd).

(** ** The pager *)

Abbreviation page := (list byte).

(** [struct Pager]; a slot of [pages] is [None] for a NULL pointer. *)
Record Pager := mkPager { fd : File; fLen : Z; pages : list (option page) }.

(** [struct Table]. *)
Record Table := mkTable { numRows : Z; pager : Pager }.

(** [pager->pages[pageNum]], an array of [TABLE_MAX_PAGES] pointers. *)
Definition slot (pager : Pager) (pageNum : Z) : outcome (option page) :=
  match pages pager !! Z.to_nat pageNum with
  | Some s => Ok s
  | None => Undefined
  end.

(** [pager->pages[pageNum] = p]. *)
Definition set_slot (pager : Pager) (pageNum : Z) (p : option page) : Pager :=
  {| fd := fd pager; fLen := fLen pager;
     pages := <[Z.to_nat pageNum := p]> (pages pager) |}.

Definition openPager (bytes : list byte) : Pager :=
  let '(fLen, fd) := lseek_end (open bytes) in
  {| fd := fd; fLen := uint32 fLen;
     pages := replicate (Z.to_nat TABLE_MAX_PAGES) None |}.

Section Allocator.

(** [malloc pageNum] is the block [malloc(PAGE_SIZE)] returns when slot
    [pageNum] is filled: [PAGE_SIZE] bytes of no particular value. *)
Variable malloc : Z -> page.

Definition getPage (pager : Pager) (pageNum : Z) : outcome (page * Pager) :=
  if TABLE_MAX_PAGES <? pageNum then Exit PageOutOfBounds
  else
    let* s := slot pager pageNum in
    match s with
    | Some p => Ok (p, pager)
    | None =>
        (* Cache miss. Allocate memory and load from file. *)
        let page := malloc pageNum in
        let numPages := fLen pager / PAGE_SIZE in
        let numPages :=
          if fLen pager mod PAGE_SIZE =? 0 then numPages
          else uint32 (numPages + 1) in
        let* (page, fd) :=
          (if pageNum <=? numPages then
             let '(_, fd) :=
               lseek_set (fd pager) (uint32 (pageNum * PAGE_SIZE)) in
             let '(bytesRead, page, fd) := read fd page PAGE_SIZE in
             if bytesRead =? -1 then Exit ReadError else Ok (page, fd)
           else Ok (page, fd pager)) in
        let pager :=
          set_slot {| fd := fd; fLen := fLen pager; pages := pages pager |}
            pageNum (Some page) in
        Ok (page, pager)
    end.

End Allocator.

Definition flushPager (pager : Pager) (pageNum size : Z) : outcome Pager :=
  let* s := slot pager pageNum in
  match s with
  | None => Exit FlushNullPage
  | Some p =>
      let '(offset, fd) :=
        lseek_set (fd pager) (uint32 (pageNum * PAGE_SIZE)) in
      if offset =? -1 then Exit SeekError
      else
        let '(bytesWritten, fd) := write fd p size in
        if bytesWritten =? -1 then Exit WriteError
        else Ok {| fd := fd; fLen := fLen pager; pages := pages pager |}
  end.

(** ** The table *)

Definition openDatabase (bytes : list byte) : Table :=
  let pager := openPager bytes in
  let numRows := fLen pager / ROW_SIZE in
  {| numRows := numRows; pager := pager |}.

(** The first loop of [closeDatabase], with [n] iterations left from [i]. *)
Fixpoint flushFullPages (n : nat) (i : Z) (pager : Pager) : outcome Pager :=
  match n with
  | O => Ok pager
  | S n' =>
      let* s := slot pager i in
      match s with
      | None => flushFullPages n' (uint32 (i + 1)) pager
      | Some _ =>
          let* pager := flushPager pager i PAGE_SIZE in
          flushFullPages n' (uint32 (i + 1)) (set_slot pager i None)
      end
  end.

(** [closeDatabase]: the bytes left in the file. The buffers still held
    after the two flushes are freed without being written, then the pager
    and the table are. *)
Definition closeDatabase (table : Table) : outcome (list byte) :=
  let pager := pager table in
  let numFullPages := numRows table / ROWS_PER_PAGE in
  let* pager := flushFullPages (Z.to_nat numFullPages) 0 pager in
  let numAdditionalRows := numRows table mod ROWS_PER_PAGE in
  let* pager :=
    (if 0 <? numAdditionalRows then
       let pageNum := numFullPages in
       let* s := slot pager pageNum in
       match s with
       | Some _ =>
           let* pager := flushPager pager pageNum
                      (uint32 (numAdditionalRows * ROW_SIZE)) in
           Ok (set_slot pager pageNum None)
       | None => Ok pager
       end
     else Ok pager) in
  let '(result, bytes) := close (fd pager) in
  if result =? -1 then Exit CloseError else Ok bytes.

(** A pointer into a page buffer: [pages[in_page] + at_byte]. *)
Record pointer := mkPointer { in_page : Z; at_byte : Z }.

Section Statements.

Variable malloc : Z -> page.

Definition rowSlot (table : Table) (rowNum : Z) : outcome (pointer * Table) :=
  let pageNum := rowNum / ROWS_PER_PAGE in
  let* (_, pager) := getPage malloc (pager table) pageNum in
  let rowOffset := rowNum mod ROWS_PER_PAGE in
  let byteOffset := uint32 (rowOffset * ROW_SIZE) in
  Ok ({| in_page := pageNum; at_byte := byteOffset |},
      {| numRows := numRows table; pager := pager |}).

(** The buffer a pointer points into. *)
Definition buffer (pager : Pager) (p : pointer) : page :=
  match pages pager !! Z.to_nat (in_page p) with
  | Some (Some b) => b
  | _ => []
  end.

Definition executeInsertStatement (rowToInsert : Row) (table : Table)
  : outcome (ExecuteResult * Table) :=
  if TABLE_MAX_ROWS <=? numRows table then Ok (EXECUTE_TABLE_FULL, table)
  else
    let* (dest, table) := rowSlot table (numRows table) in
    let mem := serializeRow rowToInsert (buffer (pager table) dest)
                 (at_byte dest) in
    let pager := set_slot (pager table) (in_page dest) (Some mem) in
    Ok (EXECUTE_SUCCESS,
        {| numRows := uint32 (numRows table + 1); pager := pager |}).

(** The loop of [executeSelectStatement], with [n] iterations left from
    [i], as far as the pages go: [out] are the rows handed to [printRow]
    so far. The call of [printRow] itself, which is undefined on a row
    whose strings have no terminator, is not made here: the loop with the
    call in place is [printSelectedRows] below, which [executeStatement]
    runs. *)
Fixpoint selectRows (n : nat) (i : Z) (table : Table) (out : list Row)
  : outcome (list Row * Table) :=
  match n with
  | O => Ok (out, table)
  | S n' =>
      let* (src, table) := rowSlot table i in
      let row := deserializeRow (buffer (pager table) src) (at_byte src) in
      selectRows n' (uint32 (i + 1)) table (out ++ [row])
  end.

(** [executeSelectStatement] up to its printing: the rows the loop hands
    to [printRow], in order, and the table it leaves. *)
Definition executeSelectStatement (table : Table)
  : outcome (ExecuteResult * list Row * Table) :=
  let* (out, table) := selectRows (Z.to_nat (numRows table)) 0 table [] in
  Ok (EXECUTE_SUCCESS, out, table).

(** Insert statements run one after the other, as the loop of [main]
    runs them; the results are collected in order. *)
Fixpoint insertRows (rows : list Row) (table : Table)
  : outcome (list ExecuteResult * Table) :=
  match rows with
  | [] => Ok ([], table)
  | r :: rows' =>
      let* (res, table) := executeInsertStatement r table in
      let* (ress, table) := insertRows rows' table in
      Ok (res :: ress, table)
  end.

End Statements.

(** * Vocabulary of the statements

    Definitions the theorems are stated with: views of the model above,
    none of them part of the program. *)

(** ** Buffers and records *)

(** [data] laid over [buf] from offset [off]. *)
Definition splice (buf : list byte) (off : nat) (data : list byte)
  : list byte :=
  take off buf ++ data ++ drop (off + length data) buf.

(** The layout of a record: the four bytes of [id], least significant
    first, then the two arrays whole. *)
Definition record (r : Row) : list byte :=
  le_split 4 (id r) ++ username r ++ email r.

(** The address [rowSlot] computes for a row: the page number it hands to
    [getPage] and the byte offset it adds to the page. *)
Definition row_address (rowNum : Z) : Z * Z :=
  (rowNum / ROWS_PER_PAGE, uint32 (rowNum mod ROWS_PER_PAGE * ROW_SIZE)).

(** ** Well-formed pagers and what a miss loads *)

(** What the C types guarantee of a pager: [pages] has [TABLE_MAX_PAGES]
    slots and a slot that is not NULL points to [PAGE_SIZE] bytes. *)
Definition struct_Pager (pager : Pager) : Prop :=
  Z.of_nat (length (pages pager)) = TABLE_MAX_PAGES /\
  forall i b, pages pager !! i = Some (Some b) ->
              Z.of_nat (length b) = PAGE_SIZE.

(** The page count [getPage] derives from the recorded file length. *)
Definition numPages (pager : Pager) : Z :=
  if fLen pager mod PAGE_SIZE =? 0 then fLen pager / PAGE_SIZE
  else uint32 (fLen pager / PAGE_SIZE + 1).

(** The bytes [getPage] reads from the file on a miss of [pageNum]. *)
Definition loaded (pager : Pager) (pageNum : Z) : list byte :=
  if pageNum <=? numPages pager
  then bytes_at (contents (fd pager)) (uint32 (pageNum * PAGE_SIZE)) PAGE_SIZE
  else [].

(** The outcome is neither the fatal branch of [getPage]'s bounds check
    nor an access outside [pages]. *)
Definition in_bounds {A} (o : outcome A) : Prop :=
  o <> Exit PageOutOfBounds /\ o <> Undefined.

(** ** What a table stores and what a close writes *)

(** Row [i] of the table is [r]: its page is resident and the bytes of
    its slot are the record of [r]. *)
Definition holds_row (pager : Pager) (i : Z) (r : Row) : Prop :=
  exists b,
    pages pager !! Z.to_nat (i / ROWS_PER_PAGE) = Some (Some b) /\
    bytes_at b (i mod ROWS_PER_PAGE * ROW_SIZE) ROW_SIZE = record r.

(** The table holds exactly [rows], in this order. *)
Definition stores (table : Table) (rows : list Row) : Prop :=
  numRows table = Z.of_nat (length rows) /\
  forall (i : nat) r,
    rows !! i = Some r -> holds_row (pager table) (Z.of_nat i) r.

(** The bytes behind a slot, none for NULL. *)
Definition slot_bytes (s : option page) : list byte :=
  match s with
  | Some b => b
  | None => []
  end.

(** The file [closeDatabase] writes for [n] rows from the pages [ps] when
    it starts from an empty file: the full pages whole, one after the
    other, then the rows of the partial page. *)
Definition file_image (ps : list (option page)) (n : Z) : list byte :=
  concat (slot_bytes <$> take (Z.to_nat (n / ROWS_PER_PAGE)) ps)
    ++ take (Z.to_nat (uint32 (n mod ROWS_PER_PAGE * ROW_SIZE)))
         (slot_bytes (default None (ps !! Z.to_nat (n / ROWS_PER_PAGE)))).

(** One run of the program on a file holding [bytes]: the inserts, then
    [.exit]. The result is the file left behind. *)
Definition session (malloc : Z -> page) (rows : list Row) (bytes : list byte)
  : outcome (list byte) :=
  let* (_, table) := insertRows malloc rows (openDatabase bytes) in
  closeDatabase table.

(** ** Sample data *)

(** A heap that hands out blocks full of [0xff], and rows with ids
    [1 .. n] whose strings sit NUL-padded in their arrays. *)
Definition junk : Z -> page :=
  fun _ => replicate (Z.to_nat PAGE_SIZE) Byte.xff.

Definition c_array (size : Z) (s : list byte) : list byte :=
  s ++ replicate (Z.to_nat size - length s) NUL.

Definition sample_row (i : Z) : Row :=
  {| id := i;
     username := c_array USERNAME_SIZE [Byte.x75; Byte.x73; Byte.x65; Byte.x72];
     email := c_array EMAIL_SIZE
                [Byte.x61; Byte.x40; Byte.x62; Byte.x2e; Byte.x63] |}.

Definition sample_rows (n : nat) : list Row :=
  (fun k => sample_row (Z.of_nat k + 1)) <$> seq 0 n.

(** * The command line

    The statements as they are typed: the strings of the input buffer,
    [prepareStatement], the printing of rows and the loop of [main]. *)

(** ** Strings of the command line

    A [char *] is the bytes from the pointer on; the string it points to
    ends before the first NUL, or where the bytes end (the buffer's
    terminator). *)

Abbreviation SPACE := Byte.x20.

(** The characters of the string at [s]. *)
Fixpoint c_str (s : list byte) : list byte :=
  match s with
  | [] => []
  | c :: s' => if Byte.eqb c NUL then [] else c :: c_str s'
  end.

(** [strncmp(s1, s2, n)]. *)
Fixpoint strncmp (s1 s2 : list byte) (n : nat) : Z :=
  match n with
  | O => 0
  | S n' =>
      let c1 := hd NUL s1 in
      let c2 := hd NUL s2 in
      if Byte.eqb c1 c2
      then if Byte.eqb c1 NUL then 0 else strncmp (tl s1) (tl s2) n'
      else byte.unsigned c1 - byte.unsigned c2
  end.

(** [strcmp(s1, s2)]: the comparison ends at the terminator of [s1] at the
    latest. *)
Definition strcmp (s1 s2 : list byte) : Z :=
  strncmp s1 s2 (S (length s1)).

(** [strcpy(dst, src)] into the array [dst], which has room for the
    string and its terminator where the code below calls it. *)
Definition strcpy (dst src : list byte) : list byte :=
  c_str src ++ NUL :: drop (S (length (c_str src))) dst.

(** [strtok] with the delimiter string [" "]: the leading spaces are
    skipped, the token runs to the next space or to the end. *)
Fixpoint skip_delims (s : list byte) : list byte :=
  match s with
  | [] => []
  | c :: s' => if Byte.eqb c SPACE then skip_delims s' else s
  end.

Fixpoint token (s : list byte) : list byte * list byte :=
  match s with
  | [] => ([], [])
  | c :: s' =>
      if Byte.eqb c SPACE then ([], s')
      else let '(t, rest) := token s' in (c :: t, rest)
  end.

(** [strtok(s, " ")], and [strtok(NULL, " ")] with [s] the position the
    call before saved: the token ([None] for NULL) and the position saved
    for the next call. *)
Definition strtok (s : list byte) : option (list byte) * list byte :=
  let s := skip_delims (c_str s) in
  match s with
  | [] => (None, [])
  | _ :: _ => let '(t, rest) := token s in (Some t, rest)
  end.

(** [isspace] and the decimal digits, in the C locale. *)
Definition isspace (c : byte) : bool :=
  Byte.eqb c SPACE
  || ((9 <=? byte.unsigned c) && (byte.unsigned c <=? 13)).

Definition digit_value (c : byte) : option Z :=
  let v := byte.unsigned c - 48 in
  if (0 <=? v) && (v <=? 9) then Some v else None.

Fixpoint skip_spaces (s : list byte) : list byte :=
  match s with
  | [] => []
  | c :: s' => if isspace c then skip_spaces s' else s
  end.

(** The value of the digits [s] starts with, after the digits [acc]. *)
Fixpoint digits (acc : Z) (s : list byte) : Z :=
  match s with
  | [] => acc
  | c :: s' =>
      match digit_value c with
      | Some d => digits (10 * acc + d) s'
      | None => acc
      end
  end.

Definition INT_MIN : Z := - 2 ^ 31.
Definition INT_MAX : Z := 2 ^ 31 - 1.

(** [atoi(s)]: white space, an optional sign, digits; the behaviour is
    undefined when the value is not an [int]. *)
Definition atoi (s : list byte) : outcome Z :=
  let s := skip_spaces (c_str s) in
  let '(negative, s) :=
    match s with
    | c :: s' =>
        if Byte.eqb c Byte.x2d then (true, s')
        else if Byte.eqb c Byte.x2b then (false, s')
        else (false, s)
    | [] => (false, s)
    end in
  let v := digits 0 s in
  let v := if negative then - v else v in
  if (INT_MIN <=? v) && (v <=? INT_MAX) then Ok v else Undefined.

(** ** Statements *)

Inductive PrepareResult : Set :=
| PREPARE_SUCCESS
| PREPARE_NEGATIVE_ID
| PREPARE_SYNTAX_ERROR
| PREPARE_STRING_TOO_LONG
| PREPARE_UNRECOGNIZED_STATEMENT.

Inductive StatementType : Set := STATEMENT_INSERT | STATEMENT_SELECT.

(** [struct Statement]. *)
Record Statement := mkStatement { type : StatementType; rowToInsert : Row }.

Definition kw_insert : list byte :=
  Eval cbv in list_byte_of_string "insert".
Definition kw_select : list byte :=
  Eval cbv in list_byte_of_string "select".

(** [prepareInsertStatement(input_buffer, statement)], [buffer] being
    [input_buffer->buffer]. *)
Definition prepareInsertStatement (buffer : list byte) (statement : Statement)
  : outcome (PrepareResult * Statement) :=
  let dest_username := username (rowToInsert statement) in
  let dest_email := email (rowToInsert statement) in
  let '(keyword, saved) := strtok buffer in
  let '(id_string, saved) := strtok saved in
  let '(username, saved) := strtok saved in
  let '(email, saved) := strtok saved in
  match id_string, username, email with
  | Some id_string, Some username, Some email =>
      let* id := atoi id_string in
      if id <? 0 then Ok (PREPARE_NEGATIVE_ID, statement)
      else if COLUMN_USERNAME_SIZE <? strlen username
      then Ok (PREPARE_STRING_TOO_LONG, statement)
      else if COLUMN_EMAIL_SIZE <? strlen email
      then Ok (PREPARE_STRING_TOO_LONG, statement)
      else
        Ok (PREPARE_SUCCESS,
            {| type := type statement;
               rowToInsert :=
                 mkRow (uint32 id)
                   (strcpy dest_username username)
                   (strcpy dest_email email) |})
  | _, _, _ => Ok (PREPARE_SYNTAX_ERROR, statement)
  end.

Definition prepareStatement (buffer : list byte) (statement : Statement)
  : outcome (PrepareResult * Statement) :=
  if strncmp buffer kw_insert 6 =? 0 then
    prepareInsertStatement buffer
      {| type := STATEMENT_INSERT; rowToInsert := rowToInsert statement |}
  else if strcmp buffer kw_select =? 0 then
    Ok (PREPARE_SUCCESS,
        {| type := STATEMENT_SELECT; rowToInsert := rowToInsert statement |})
  else Ok (PREPARE_UNRECOGNIZED_STATEMENT, statement).

(** The bytes of a word: no terminator and no space among them. *)
Definition word_chars (w : list byte) : Prop :=
  Forall (fun c => c <> NUL /\ c <> SPACE) w.

Definition nul_free (s : list byte) : Prop := Forall (fun c => c <> NUL) s.

(** The statement as [prepareStatement] hands it to
    [prepareInsertStatement]: the type is set, the row is as it was. *)
Definition as_insert (statement : Statement) : Statement :=
  {| type := STATEMENT_INSERT; rowToInsert := rowToInsert statement |}.

(** ** Printing *)

Abbreviation NEWLINE := Byte.x0a.

(** The decimal digits of [n >= 0] in front of [acc], most significant
    first; [fuel] bounds the number of digits. *)
Fixpoint decimal_digits (fuel : nat) (n : Z) (acc : list byte) : list byte :=
  match fuel with
  | O => acc
  | S fuel' =>
      let acc := byte.of_Z (48 + n mod 10) :: acc in
      if n <? 10 then acc else decimal_digits fuel' (n / 10) acc
  end.

Definition decimal (n : Z) : list byte :=
  decimal_digits (S (Z.to_nat (Z.log2 n))) n [].

(** [printf("%d", v)]. *)
Definition print_int (v : Z) : list byte :=
  if v <? 0 then Byte.x2d :: decimal (- v) else decimal v.

(** A [uint32_t] read as the [int] that [%d] expects. *)
Definition as_int (v : Z) : Z := if v <? 2 ^ 31 then v else v - 2 ^ 32.

(** [printf("%s", s)] on a char array: undefined without a terminator
    inside the array. *)
Definition print_str (s : list byte) : outcome (list byte) :=
  if strlen s <? Z.of_nat (length s) then Ok (c_str s) else Undefined.

(** [printRow]: what [printf("(%d, %s, %s)\n", ...)] writes. *)
Definition printRow (row : Row) : outcome (list byte) :=
  let* u := print_str (username row) in
  let* e := print_str (email row) in
  Ok (Byte.x28 :: print_int (as_int (id row))
        ++ [Byte.x2c; SPACE] ++ u ++ [Byte.x2c; SPACE] ++ e
        ++ [Byte.x29; NEWLINE]).

Fixpoint printRows (rows : list Row) : outcome (list byte) :=
  match rows with
  | [] => Ok []
  | row :: rows' =>
      let* line := printRow row in
      let* lines := printRows rows' in
      Ok (line ++ lines)
  end.

(** Both strings of the row have their terminator inside their arrays:
    what [printRow] needs of a row. *)
Definition terminated (r : Row) : Prop :=
  strlen (username r) < Z.of_nat (length (username r)) /\
  strlen (email r) < Z.of_nat (length (email r)).

(** ** The input buffer *)

(** The sizes in bytes a C data model gives a pointer and [size_t]
    ([ssize_t] has the size of [size_t]). *)
Record DataModel := mkDataModel { sizeof_pointer : Z; sizeof_size_t : Z }.

Definition LP64 : DataModel := {| sizeof_pointer := 8; sizeof_size_t := 8 |}.
Definition ILP32 : DataModel := {| sizeof_pointer := 4; sizeof_size_t := 4 |}.

(** [struct InputBuffer]; [None] is a NULL [buffer]. *)
Record InputBuffer := mkInputBuffer {
  buffer_ptr : option (list byte); bufferLength : Z; inputLength : Z }.

(** Where the members of [struct InputBuffer] start: each one after the
    one before it (padding can only move them further). *)
Definition offsetof_buffer : Z := 0.
Definition offsetof_bufferLength (dm : DataModel) : Z := sizeof_pointer dm.
Definition offsetof_inputLength (dm : DataModel) : Z :=
  sizeof_pointer dm + sizeof_size_t dm.

(** A store of [size] bytes at offset [off] of a block of [block] bytes:
    undefined outside the block. *)
Definition store_in (block off size : Z) : outcome unit :=
  if (0 <=? off) && (off + size <=? block) then Ok tt else Undefined.

(** [newInputBuffer]: the block is [malloc(sizeof(inputBuffer))], and
    [inputBuffer] is the pointer. *)
Definition newInputBuffer (dm : DataModel) : outcome InputBuffer :=
  let block := sizeof_pointer dm in
  let* _ := store_in block offsetof_buffer (sizeof_pointer dm) in
  let* _ := store_in block (offsetof_bufferLength dm) (sizeof_size_t dm) in
  let* _ := store_in block (offsetof_inputLength dm) (sizeof_size_t dm) in
  Ok {| buffer_ptr := None; bufferLength := 0; inputLength := 0 |}.

(** ** The command loop *)

Inductive MetaCommandResult : Set :=
| META_COMMAND_SUCCESS
| META_COMMAND_UNRECOGNIZED_COMMAND.

(** The texts [main] and its helpers print. *)
Definition msg_prompt : list byte :=
  Eval cbv in list_byte_of_string "db > ".
Definition msg_usage : list byte :=
  Eval cbv in
    list_byte_of_string "Must supply a database filename." ++ [NEWLINE].
Definition msg_read_error : list byte :=
  Eval cbv in list_byte_of_string "Error reading input" ++ [NEWLINE].
Definition msg_unrecognized_command (buffer : list byte) : list byte :=
  list_byte_of_string "Unrecognized command '" ++ c_str buffer
    ++ [Byte.x27; NEWLINE].
Definition msg_negative_id : list byte :=
  Eval cbv in list_byte_of_string "ID must be positive." ++ [NEWLINE].
Definition msg_too_long : list byte :=
  Eval cbv in list_byte_of_string "String is too long." ++ [NEWLINE].
Definition msg_syntax_error : list byte :=
  Eval cbv in
    list_byte_of_string "Syntax error. Could not parse statement."
      ++ [NEWLINE].
Definition msg_unrecognized_keyword (buffer : list byte) : list byte :=
  list_byte_of_string "Unrecognized keyword at start of '" ++ c_str buffer
    ++ [Byte.x27; Byte.x2e; NEWLINE].
Definition msg_executed : list byte :=
  Eval cbv in list_byte_of_string "Executed." ++ [NEWLINE].
Definition msg_table_full : list byte :=
  Eval cbv in list_byte_of_string "Error: Table full." ++ [NEWLINE].
Definition cmd_exit : list byte :=
  Eval cbv in list_byte_of_string ".exit".

Definition EXIT_SUCCESS : Z := 0.
Definition EXIT_FAILURE : Z := 1.

(** The lines successive calls of [getline] read from [stdin]: each with
    its newline, the last one without when the input does not end in
    one. *)
Fixpoint getlines (stdin : list byte) : list (list byte) :=
  match stdin with
  | [] => []
  | c :: stdin' =>
      if Byte.eqb c NEWLINE then [c] :: getlines stdin'
      else
        match getlines stdin' with
        | [] => [[c]]
        | line :: lines => (c :: line) :: lines
        end
  end.

(** [readInput] on what [getline] read ([None] when it returned -1): the
    buffer with its last byte overwritten by the terminator, or [None]
    for the exit on [bytesRead <= 0]. *)
Definition readInput (line : option (list byte)) : option (list byte) :=
  let '(bytesRead, buffer) :=
    match line with
    | Some l => (Z.of_nat (length l), l)
    | None => (-1, [])
    end in
  if bytesRead <=? 0 then None
  else Some (take (Z.to_nat (bytesRead - 1)) buffer).

(** [doMetaCommand]: either it does not return, the process exiting after
    [closeDatabase] with the file that leaves, or it returns a result. *)
Inductive meta_outcome : Type :=
| MetaExit (file : outcome (list byte))
| MetaReturn (result : MetaCommandResult).

Definition doMetaCommand (buffer : list byte) (table : Table) : meta_outcome :=
  if strcmp buffer cmd_exit =? 0 then MetaExit (closeDatabase table)
  else MetaReturn META_COMMAND_UNRECOGNIZED_COMMAND.

(** How a run of [main], or of its loop, ends. *)
Inductive run : Type :=
| Exited (status : Z) (stdout : list byte) (file : list byte)
    (* [exit(status)]; [file] is what is on disk, no bytes when no file
       was named *)
| Aborted (e : fatal) (stdout : list byte)
    (* a fatal exit of the pager; [stdout] is the output before the
       statement that failed *)
| Fault (stdout : list byte).
    (* undefined behaviour; [stdout] as for [Aborted] *)

Section Main.

Variable malloc : Z -> page.

(** What the uninitialised [Statement statement] of the loop body holds in
    iteration [k]. *)
Variable uninitialised : nat -> Statement.

(** The loop of [executeSelectStatement] with its call of [printRow] in
    place, [n] iterations left from row [i]; [text] is what it has printed
    so far. [selectRows] is this loop without the call: the rows it
    collects are the rows printed here. *)
Fixpoint printSelectedRows (n : nat) (i : Z) (table : Table)
    (text : list byte) : outcome (list byte * Table) :=
  match n with
  | O => Ok (text, table)
  | S n' =>
      let* (src, table) := rowSlot malloc table i in
      let row := deserializeRow (buffer (pager table) src) (at_byte src) in
      let* line := printRow row in
      printSelectedRows n' (uint32 (i + 1)) table (text ++ line)
  end.

(** [executeStatement], with what it prints: nothing for an insert, a
    line for each row for a select. *)
Definition executeStatement (statement : Statement) (table : Table)
  : outcome (ExecuteResult * list byte * Table) :=
  match type statement with
  | STATEMENT_INSERT =>
      let* (result, table) :=
        executeInsertStatement malloc (rowToInsert statement) table in
      Ok (result, [], table)
  | STATEMENT_SELECT =>
      let* (text, table) :=
        printSelectedRows (Z.to_nat (numRows table)) 0 table [] in
      Ok (EXECUTE_SUCCESS, text, table)
  end.

(** The [while (true)] loop of [main] from iteration [k] on, entered with
    [table] and an input buffer that [getline] can fill; [lines] is what
    is left of the input and [out] what was printed so far. *)
Fixpoint repl (lines : list (list byte)) (k : nat) (table : Table)
    (out : list byte) : run :=
  let out := out ++ msg_prompt in
  match readInput (head lines) with
  | None =>
      Exited EXIT_FAILURE (out ++ msg_read_error)
        (contents (fd (pager table)))
  | Some buffer =>
      match lines with
      | [] => Exited EXIT_FAILURE (out ++ msg_read_error)
                (contents (fd (pager table)))
      | _ :: lines =>
          if Byte.eqb (hd NUL buffer) Byte.x2e then
            match doMetaCommand buffer table with
            | MetaExit (Ok file) => Exited EXIT_SUCCESS out file
            | MetaExit (Exit e) => Aborted e out
            | MetaExit Undefined => Fault out
            | MetaReturn META_COMMAND_SUCCESS => repl lines (S k) table out
            | MetaReturn META_COMMAND_UNRECOGNIZED_COMMAND =>
                repl lines (S k) table
                  (out ++ msg_unrecognized_command buffer)
            end
          else
            match prepareStatement buffer (uninitialised k) with
            | Ok (PREPARE_SUCCESS, statement) =>
                match executeStatement statement table with
                | Ok (EXECUTE_SUCCESS, text, table) =>
                    repl lines (S k) table (out ++ text ++ msg_executed)
                | Ok (EXECUTE_TABLE_FULL, text, table) =>
                    repl lines (S k) table (out ++ text ++ msg_table_full)
                | Exit e => Aborted e out
                | Undefined => Fault out
                end
            | Ok (PREPARE_NEGATIVE_ID, _) =>
                repl lines (S k) table (out ++ msg_negative_id)
            | Ok (PREPARE_STRING_TOO_LONG, _) =>
                repl lines (S k) table (out ++ msg_too_long)
            | Ok (PREPARE_SYNTAX_ERROR, _) =>
                repl lines (S k) table (out ++ msg_syntax_error)
            | Ok (PREPARE_UNRECOGNIZED_STATEMENT, _) =>
                repl lines (S k) table (out ++ msg_unrecognized_keyword buffer)
            | Exit e => Aborted e out
            | Undefined => Fault out
            end
      end
  end.

(** [main]: [db] is the file that [argv[1]] names, [None] when no name is
    given ([argc < 2]) and no bytes when the file is created; [stdin] is
    the input. The input buffer is allocated before the loop is
    entered. *)
Definition main (dm : DataModel) (db : option (list byte))
    (stdin : list byte) : run :=
  match db with
  | None => Exited EXIT_FAILURE msg_usage []
  | Some bytes =>
      let table := openDatabase bytes in
      match newInputBuffer dm with
      | Ok inputBuffer => repl (getlines stdin) 0 table []
      | Exit e => Aborted e []
      | Undefined => Fault []
      end
  end.

End Main.

(** ** Insert commands as a user types them *)

(** An insert command: the id and the two strings. *)
Record command := mkCommand {
  cmd_id : Z; cmd_user : list byte; cmd_email : list byte }.

(** A string that can be typed as one argument and fits a column of
    [size] characters. *)
Definition argument (size : Z) (w : list byte) : Prop :=
  w <> [] /\
  Forall (fun c => c <> NUL /\ c <> SPACE /\ c <> NEWLINE) w /\
  Z.of_nat (length w) <= size.

Definition command_ok (c : command) : Prop :=
  0 <= cmd_id c <= INT_MAX /\
  argument COLUMN_USERNAME_SIZE (cmd_user c) /\
  argument COLUMN_EMAIL_SIZE (cmd_email c).


(** The row the command leaves in a statement whose row was [old]. *)
Definition command_row (old : Row) (c : command) : Row :=
  {| id := cmd_id c;
     username := cmd_user c ++ NUL :: drop (S (length (cmd_user c)))
                                        (username old);
     email := cmd_email c ++ NUL :: drop (S (length (cmd_email c)))
                                      (email old) |}.



(** The characters [0] to [9]. *)
Definition digit (c : byte) : Prop := 48 <= byte.unsigned c <= 57.

(** The line of a command, without its newline. *)
Definition command_buffer (c : command) : list byte :=
  kw_insert ++ SPACE :: decimal (cmd_id c)
    ++ SPACE :: cmd_user c ++ SPACE :: cmd_email c.


(** ** Views of the pages

    What [getPage] and the select see of a table whose pages need not be
    resident. *)

(** The buffer [getPage] hands out for page [q]: the resident one, or on a
    miss the fresh block with what the file has for the page read over
    its start. *)
Definition page_view (malloc : Z -> page) (pager : Pager) (q : Z) : page :=
  match pages pager !! Z.to_nat q with
  | Some (Some b) => b
  | _ => loaded pager q ++ drop (length (loaded pager q)) (malloc q)
  end.

(** The row a select decodes for row number [i]. *)
Definition row_view (malloc : Z -> page) (pager : Pager) (i : Z) : Row :=
  deserializeRow (page_view malloc pager (i / ROWS_PER_PAGE))
    (i mod ROWS_PER_PAGE * ROW_SIZE).

(** The row numbers [i, i + 1, ...], [n] of them. *)
Definition row_numbers (i : Z) (n : nat) : list Z :=
  (fun k => i + Z.of_nat k) <$> seq 0 n.

(** The bytes of a page buffer after its [ROWS_PER_PAGE] row slots. *)
Definition page_padding (b : page) : list byte :=
  drop (Z.to_nat (ROWS_PER_PAGE * ROW_SIZE)) b.

(** Every resident page still ends as [malloc] left it. *)
Definition heap_padding (malloc : Z -> page) (pager : Pager) : Prop :=
  forall (q : nat) b,
    pages pager !! q = Some (Some b) ->
    page_padding b = page_padding (malloc (Z.of_nat q)).

(** ** Sample commands *)

(** The command [insert 1 user a@b.c], a statement whose row is NUL-padded,
    and a loop whose statement holds it at every iteration. *)
Definition sample_command : command :=
  {| cmd_id := 1;
     cmd_user := [Byte.x75; Byte.x73; Byte.x65; Byte.x72];
     cmd_email := [Byte.x61; Byte.x40; Byte.x62; Byte.x2e; Byte.x63] |}.

Definition sample_statement : Statement :=
  {| type := STATEMENT_SELECT; rowToInsert := sample_row 0 |}.

Definition sample_stack : nat -> Statement := fun _ => sample_statement.

(** A file of [n] zero bytes. *)
Definition zeros (n : Z) : list byte := replicate (Z.to_nat n) NUL.

(** * Properties *)

(** ** The constants *)

Lemma ROW_SIZE_eq : ROW_SIZE = 293.
Proof. reflexivity. Qed.

Lemma ROWS_PER_PAGE_eq : ROWS_PER_PAGE = 13.
Proof. reflexivity. Qed.

Lemma TABLE_MAX_ROWS_eq : TABLE_MAX_ROWS = 1300.
Proof. reflexivity. Qed.

Ltac consts :=
  change TABLE_MAX_ROWS with 1300 in *;
  change ROWS_PER_PAGE with 13 in *;
  change ROW_SIZE with 293 in *;
  change EMAIL_OFFSET with 37 in *;
  change USERNAME_OFFSET with 4 in *;
  change ID_OFFSET with 0 in *;
  change EMAIL_SIZE with 256 in *;
  change USERNAME_SIZE with 33 in *;
  change ID_SIZE with 4 in *;
  change PAGE_SIZE with 4096 in *;
  change TABLE_MAX_PAGES with 100 in *;
  change COLUMN_USERNAME_SIZE with 32 in *;
  change COLUMN_EMAIL_SIZE with 255 in *.

Lemma uint32_small z : 0 <= z < 2 ^ 32 -> uint32 z = z.
Proof. intros H. unfold uint32. apply Z.mod_small. exact H. Qed.

(** ** Byte buffers *)

Section Buffers.

Implicit Types buf data : list byte.

Lemma length_splice buf off data :
  (off + length data <= length buf)%nat ->
  length (splice buf off data) = length buf.
Proof.
  intros H. unfold splice.
  rewrite !length_app, length_take, length_drop. lia.
Qed.

Lemma splice_app buf off d1 d2 :
  (off + length d1 <= length buf)%nat ->
  splice (splice buf off d1) (off + length d1) d2 = splice buf off (d1 ++ d2).
Proof.
  intros H. unfold splice.
  assert (Ht : length (take off buf) = off) by (rewrite length_take; lia).
  rewrite (app_assoc (take off buf) d1).
  rewrite take_app_length' by (rewrite length_app; lia).
  rewrite drop_app_ge by (rewrite length_app; lia).
  rewrite drop_drop, length_app, Ht, length_app.
  rewrite <- !app_assoc. do 4 f_equal. lia.
Qed.

Lemma memcpy_splice buf off src n :
  0 <= off -> Z.of_nat (length src) = n ->
  memcpy buf off src n = splice buf (Z.to_nat off) src.
Proof.
  intros Hoff Hn. unfold memcpy, splice.
  rewrite (take_ge src) by lia. do 3 f_equal. lia.
Qed.

Lemma slice_splice_same buf off data :
  (off <= length buf)%nat ->
  take (length data) (drop off (splice buf off data)) = data.
Proof.
  intros H. unfold splice.
  rewrite drop_app_length' by (rewrite length_take; lia).
  apply take_app_length.
Qed.

Lemma slice_around (a b b' c : list byte) o n :
  length b = length b' ->
  (o + n <= length a)%nat \/ (length a + length b <= o)%nat ->
  take n (drop o (a ++ b ++ c)) = take n (drop o (a ++ b' ++ c)).
Proof.
  intros Hb [Hlo | Hhi].
  - rewrite !drop_app_le by lia.
    rewrite !take_app_le by (rewrite length_drop; lia). reflexivity.
  - rewrite !(drop_app_ge a) by lia.
    rewrite !drop_app_ge by lia. rewrite Hb. reflexivity.
Qed.

Lemma slice_splice_other buf off data o n :
  (off + length data <= length buf)%nat ->
  (o + n <= off)%nat \/ (off + length data <= o)%nat ->
  take n (drop o (splice buf off data)) = take n (drop o buf).
Proof.
  intros Hin Hdisj. unfold splice.
  assert (Ht : length (take off buf) = off) by (rewrite length_take; lia).
  rewrite (slice_around _ data (take (length data) (drop off buf))).
  - rewrite <- drop_drop, (take_drop (length data)), take_drop. reflexivity.
  - rewrite length_take, length_drop. lia.
  - rewrite Ht. exact Hdisj.
Qed.

Lemma slice_slice buf off m k n :
  (k + n <= m)%nat ->
  take n (drop k (take m (drop off buf))) = take n (drop (off + k) buf).
Proof.
  intros H.
  rewrite skipn_firstn_comm, take_take, drop_drop.
  f_equal. lia.
Qed.

Lemma bytes_at_within buf off m k n :
  0 <= off -> 0 <= k -> 0 <= n -> k + n <= m ->
  bytes_at (bytes_at buf off m) k n = bytes_at buf (off + k) n.
Proof.
  intros Hoff Hk Hn Hm. unfold bytes_at.
  rewrite slice_slice by lia. do 2 f_equal. lia.
Qed.

End Buffers.

(** ** The row codec *)

Lemma length_record r :
  struct_Row r -> Z.of_nat (length (record r)) = ROW_SIZE.
Proof.
  intros (_ & Hu & He). unfold record.
  rewrite !length_app, length_le_split. consts. lia.
Qed.

Lemma serializeRow_splice r mem dest :
  struct_Row r -> 0 <= dest ->
  dest + ROW_SIZE <= Z.of_nat (length mem) ->
  serializeRow r mem dest = splice mem (Z.to_nat dest) (record r).
Proof.
  intros (Hid & Hu & He) Hdest Hfit. unfold serializeRow, record.
  consts.
  rewrite !memcpy_splice by (try rewrite length_le_split; lia).
  replace (Z.to_nat (dest + 0)) with (Z.to_nat dest) by lia.
  replace (Z.to_nat (dest + 4))
    with (Z.to_nat dest + length (le_split 4 (id r)))%nat
    by (rewrite length_le_split; lia).
  rewrite splice_app by (rewrite length_le_split; lia).
  replace (Z.to_nat (dest + 37))
    with (Z.to_nat dest + length (le_split 4 (id r) ++ username r))%nat
    by (rewrite length_app, length_le_split; lia).
  rewrite splice_app by (rewrite length_app, length_le_split; lia).
  rewrite <- app_assoc. reflexivity.
Qed.

Lemma length_serializeRow r mem dest :
  struct_Row r -> 0 <= dest ->
  dest + ROW_SIZE <= Z.of_nat (length mem) ->
  length (serializeRow r mem dest) = length mem.
Proof.
  intros Hr Hdest Hfit. pose proof (length_record r Hr) as Hlen.
  rewrite serializeRow_splice by assumption.
  apply length_splice. lia.
Qed.

Lemma encode_record r : struct_Row r -> encode r = record r.
Proof.
  intros Hr. pose proof (length_record r Hr) as Hlen. unfold encode.
  rewrite serializeRow_splice;
    [| assumption | lia | rewrite length_replicate; lia].
  unfold splice. rewrite drop_ge by (rewrite length_replicate; lia).
  rewrite app_nil_r. reflexivity.
Qed.

Lemma deserializeRow_decode mem source :
  0 <= source ->
  deserializeRow mem source = decode (bytes_at mem source ROW_SIZE).
Proof.
  intros Hs. unfold decode, deserializeRow. consts.
  rewrite !bytes_at_within by lia.
  reflexivity.
Qed.

Lemma decode_record r : struct_Row r -> decode (record r) = r.
Proof.
  intros (Hid & Hu & He). unfold decode, deserializeRow, record, bytes_at.
  consts. destruct r as [i u e]. cbn [id username email] in *.
  assert (Hl : length (le_split 4 i) = 4%nat) by apply length_le_split.
  f_equal.
  - change (Z.to_nat (0 + 0)) with 0%nat. change (Z.to_nat 4) with 4%nat.
    rewrite drop_0, take_app_length' by exact Hl.
    rewrite le_combine_split. apply Z.mod_small. exact Hid.
  - change (Z.to_nat (0 + 4)) with 4%nat.
    rewrite drop_app_length' by exact Hl.
    apply take_app_length'. lia.
  - change (Z.to_nat (0 + 37)) with 37%nat.
    rewrite app_assoc, drop_app_length' by (rewrite length_app; lia).
    apply take_ge. lia.
Qed.

Lemma bytes_at_serializeRow r mem dest :
  struct_Row r -> 0 <= dest ->
  dest + ROW_SIZE <= Z.of_nat (length mem) ->
  bytes_at (serializeRow r mem dest) dest ROW_SIZE = record r.
Proof.
  intros Hr Hdest Hfit. pose proof (length_record r Hr) as Hlen.
  rewrite serializeRow_splice by assumption. unfold bytes_at.
  replace (Z.to_nat ROW_SIZE) with (length (record r)) by lia.
  apply slice_splice_same. lia.
Qed.

Lemma bytes_at_serializeRow_other r mem dest o n :
  struct_Row r -> 0 <= dest ->
  dest + ROW_SIZE <= Z.of_nat (length mem) ->
  0 <= o -> 0 <= n ->
  o + n <= dest \/ dest + ROW_SIZE <= o ->
  bytes_at (serializeRow r mem dest) o n = bytes_at mem o n.
Proof.
  intros Hr Hdest Hfit Ho Hn Hdisj. pose proof (length_record r Hr) as Hlen.
  rewrite serializeRow_splice by assumption. unfold bytes_at.
  apply slice_splice_other; lia.
Qed.

(** A string [prepareInsertStatement] accepts sits in its array with its
    terminator: some byte of the array is NUL. *)
Lemma strlen_bounds s : 0 <= strlen s <= Z.of_nat (length s).
Proof.
  induction s as [| c s IH]; simpl length; simpl strlen.
  - lia.
  - destruct (Byte.eqb c NUL); lia.
Qed.

Lemma strlen_terminated s :
  strlen s < Z.of_nat (length s) -> s !! Z.to_nat (strlen s) = Some NUL.
Proof.
  induction s as [| c s IH]; simpl length; simpl strlen; intros H.
  - lia.
  - destruct (Byte.eqb c NUL) eqn:E.
    + apply Byte.byte_dec_bl in E. subst c. reflexivity.
    + pose proof (strlen_bounds s).
      replace (Z.to_nat (1 + strlen s)) with (S (Z.to_nat (strlen s))) by lia.
      simpl. apply IH. lia.
Qed.

(** C6. Codec round trip: a row whose [username] and [email] are
    NUL-terminated strings of at most 32 and 255 bytes is encoded in
    [ROW_SIZE] bytes, the four raw bytes of [id], then the [username]
    array, then the [email] array, and decoding the record gives the row
    back; the same holds through [serializeRow] and [deserializeRow] at
    any offset of a buffer in which the record fits. *)
Theorem codec_round_trip (r : Row) :
  valid_row r ->
  decode (encode r) = r /\
  encode r = le_split 4 (id r) ++ username r ++ email r /\
  Z.of_nat (length (encode r)) = ROW_SIZE /\
  bytes_at (encode r) ID_OFFSET ID_SIZE = le_split 4 (id r) /\
  bytes_at (encode r) USERNAME_OFFSET USERNAME_SIZE = username r /\
  bytes_at (encode r) EMAIL_OFFSET EMAIL_SIZE = email r /\
  forall mem dest,
    0 <= dest -> dest + ROW_SIZE <= Z.of_nat (length mem) ->
    deserializeRow (serializeRow r mem dest) dest = r.
Proof.
  intros (Hr & _ & _).
  pose proof (decode_record r Hr) as Hdec.
  rewrite encode_record by exact Hr.
  split; [exact Hdec |]. split; [reflexivity |].
  split; [apply length_record; exact Hr |].
  unfold decode, deserializeRow in Hdec.
  change (0 + ID_OFFSET) with ID_OFFSET in Hdec.
  change (0 + USERNAME_OFFSET) with USERNAME_OFFSET in Hdec.
  change (0 + EMAIL_OFFSET) with EMAIL_OFFSET in Hdec.
  destruct r as [i u e]. injection Hdec as Hi Hu He.
  cbn [id username email] in *.
  split; [reflexivity |].
  split; [exact Hu |]. split; [exact He |].
  intros mem dest Hdest Hfit.
  rewrite deserializeRow_decode by exact Hdest.
  rewrite bytes_at_serializeRow by assumption.
  apply decode_record. exact Hr.
Qed.

(** ** Addressing *)

Lemma row_address_values i :
  0 <= i ->
  row_address i = (i / 13, i mod 13 * 293) /\
  0 <= i / 13 /\ 0 <= i mod 13 < 13.
Proof.
  intros Hi. unfold row_address. consts.
  pose proof (Z.mod_pos_bound i 13 ltac:(lia)).
  pose proof (Z.div_pos i 13 Hi ltac:(lia)).
  rewrite uint32_small by lia. auto.
Qed.

Lemma rowSlot_address malloc table rowNum p table' :
  rowSlot malloc table rowNum = Ok (p, table') ->
  (in_page p, at_byte p) = row_address rowNum.
Proof.
  unfold rowSlot, row_address.
  destruct (getPage malloc (pager table) (rowNum / ROWS_PER_PAGE))
    as [[b pg] | e |]; cbn [bind]; intros H; try discriminate.
  injection H as <- _. reflexivity.
Qed.

(** ** The pager *)

Lemma length_bytes_at buf off n :
  0 <= n -> Z.of_nat (length (bytes_at buf off n)) <= n.
Proof. intros Hn. unfold bytes_at. rewrite length_take. lia. Qed.

Lemma openPager_struct bytes : struct_Pager (openPager bytes).
Proof.
  split.
  - unfold openPager. cbn. rewrite length_replicate. reflexivity.
  - intros i b H. unfold openPager in H. cbn [pages lseek_end] in H.
    apply lookup_replicate in H. destruct H as [H _]. discriminate.
Qed.

Lemma slot_in_bounds pager pageNum :
  struct_Pager pager -> 0 <= pageNum < TABLE_MAX_PAGES ->
  exists s, pages pager !! Z.to_nat pageNum = Some s /\
            slot pager pageNum = Ok s.
Proof.
  intros [Hlen _] Hp. unfold slot.
  destruct (pages pager !! Z.to_nat pageNum) as [s |] eqn:E.
  - exists s. auto.
  - apply lookup_ge_None in E. lia.
Qed.

Lemma set_slot_struct pager pageNum b :
  struct_Pager pager -> Z.of_nat (length b) = PAGE_SIZE ->
  struct_Pager (set_slot pager pageNum (Some b)).
Proof.
  intros [Hlen Hbuf] Hb. split; cbn [set_slot pages].
  - rewrite length_insert. exact Hlen.
  - intros i b' H.
    destruct (decide (Z.to_nat pageNum = i)) as [<- | Hne].
    + destruct (decide (Z.to_nat pageNum < length (pages pager))%nat).
      * rewrite list_lookup_insert_eq in H by assumption.
        injection H as <-. exact Hb.
      * rewrite list_insert_ge in H by lia. eapply Hbuf, H.
    + rewrite list_lookup_insert_ne in H by assumption. eapply Hbuf, H.
Qed.

Section GetPage.

Variable malloc : Z -> page.
Hypothesis malloc_size : forall n, Z.of_nat (length (malloc n)) = PAGE_SIZE.

(** A hit returns the resident buffer and changes nothing. *)
Lemma getPage_hit pager pageNum b :
  0 <= pageNum <= TABLE_MAX_PAGES ->
  pages pager !! Z.to_nat pageNum = Some (Some b) ->
  getPage malloc pager pageNum = Ok (b, pager).
Proof.
  intros Hp Hb. unfold getPage, slot.
  destruct (Z.ltb_spec TABLE_MAX_PAGES pageNum); [lia |].
  rewrite Hb. reflexivity.
Qed.

(** A miss allocates, reads what the file has for the page over the start
    of the block, and stores the block in the slot. *)
Lemma getPage_miss pager pageNum :
  0 <= pageNum <= TABLE_MAX_PAGES ->
  pages pager !! Z.to_nat pageNum = Some None ->
  let got := loaded pager pageNum in
  let buf := got ++ drop (length got) (malloc pageNum) in
  exists fd',
    getPage malloc pager pageNum
    = Ok (buf, set_slot {| fd := fd'; fLen := fLen pager;
                           pages := pages pager |} pageNum (Some buf)) /\
    contents fd' = contents (fd pager).
Proof.
  intros Hp Hb got buf. unfold getPage, slot.
  destruct (Z.ltb_spec TABLE_MAX_PAGES pageNum); [lia |].
  rewrite Hb. cbn [bind]. subst buf got. unfold loaded, numPages.
  destruct (pageNum <=? _) eqn:E.
  - cbn [lseek_set read contents pos].
    pose proof (length_bytes_at (contents (fd pager))
                  (uint32 (pageNum * PAGE_SIZE)) PAGE_SIZE ltac:(consts; lia)).
    destruct (Z.eqb_spec
                (Z.of_nat (length (bytes_at (contents (fd pager))
                   (uint32 (pageNum * PAGE_SIZE)) PAGE_SIZE))) (-1));
      [lia |].
    cbn [bind]. eexists. split; reflexivity.
  - cbn [bind]. rewrite drop_0. exists (fd pager).
    split; [| reflexivity]. reflexivity.
Qed.

Lemma length_loaded_buffer pager pageNum :
  let got := loaded pager pageNum in
  Z.of_nat (length (got ++ drop (length got) (malloc pageNum))) = PAGE_SIZE.
Proof.
  intros got. specialize (malloc_size pageNum).
  assert (Z.of_nat (length got) <= PAGE_SIZE).
  { subst got. unfold loaded. destruct (_ <=? _).
    - apply length_bytes_at. consts. lia.
    - cbn. consts. lia. }
  rewrite length_app, length_drop. lia.
Qed.

(** What a call of [getPage] inside the array leaves behind. *)
Lemma getPage_in_bounds pager pageNum :
  struct_Pager pager -> 0 <= pageNum < TABLE_MAX_PAGES ->
  exists buf pager',
    getPage malloc pager pageNum = Ok (buf, pager') /\
    struct_Pager pager' /\
    pages pager' = <[Z.to_nat pageNum := Some buf]> (pages pager) /\
    Z.of_nat (length buf) = PAGE_SIZE /\
    contents (fd pager') = contents (fd pager) /\
    fLen pager' = fLen pager /\
    (forall b, pages pager !! Z.to_nat pageNum = Some (Some b) -> buf = b).
Proof.
  intros Hs Hp.
  destruct (slot_in_bounds pager pageNum Hs Hp) as (s & Hs1 & _).
  destruct s as [b |].
  - exists b, pager. rewrite (getPage_hit pager pageNum b) by (auto; lia).
    repeat split; try apply Hs; auto.
    + symmetry. apply list_insert_id. exact Hs1.
    + eapply Hs, Hs1.
    + intros b' Hb'. congruence.
  - destruct (getPage_miss pager pageNum ltac:(lia) Hs1) as (fd' & Hg & Hc).
    pose proof (length_loaded_buffer pager pageNum) as Hl. cbv zeta in Hl.
    eexists _, _. split; [exact Hg |].
    repeat split; cbn [set_slot pages fd fLen]; auto.
    + rewrite length_insert. apply Hs.
    + intros i b H.
      destruct (decide (Z.to_nat pageNum = i)) as [<- | Hne].
      * rewrite list_lookup_insert_eq in H
          by (apply lookup_lt_is_Some; eauto).
        injection H as <-. exact Hl.
      * rewrite list_lookup_insert_ne in H by assumption.
        destruct Hs as [_ Hbuf]. eapply Hbuf, H.
    + intros b Hb'. congruence.
Qed.

End GetPage.

(** C3. The bounds check of [getPage] as the code has it: the fatal branch
    is taken exactly for [pageNum > TABLE_MAX_PAGES]. Page number
    [TABLE_MAX_PAGES] itself passes the check, and [getPage] then indexes
    [pages] one slot past its end. *)
Theorem getPage_page_100_unchecked (malloc : Z -> page) (bytes : list byte) :
  getPage malloc (openPager bytes) TABLE_MAX_PAGES = Undefined /\
  getPage malloc (openPager bytes) TABLE_MAX_PAGES <> Exit PageOutOfBounds /\
  forall pager pageNum,
    getPage malloc pager pageNum = Exit PageOutOfBounds <->
    TABLE_MAX_PAGES < pageNum.
Proof.
  assert (H100 : getPage malloc (openPager bytes) TABLE_MAX_PAGES = Undefined).
  { unfold getPage, slot, openPager. cbn [lseek_end pages].
    rewrite Z.ltb_irrefl.
    rewrite (proj2 (lookup_ge_None _ _)); [reflexivity |].
    rewrite length_replicate. lia. }
  split; [exact H100 |]. split; [rewrite H100; discriminate |].
  intros pager pageNum. unfold getPage.
  destruct (Z.ltb_spec TABLE_MAX_PAGES pageNum) as [Hgt | Hle].
  - split; [intros _; exact Hgt | reflexivity].
  - split; [| lia]. intros H. exfalso.
    unfold slot in H.
    destruct (pages pager !! Z.to_nat pageNum) as [[b |] |];
      cbn [bind] in H; try discriminate.
    destruct (pageNum <=? _); cbn [bind] in H; try discriminate.
    cbn [lseek_set read] in H.
    destruct (_ =? -1); cbn [bind] in H; discriminate.
Qed.

(** C4, as the code has it. On a miss of an in-bounds page the buffer is a
    fresh [malloc] block, which nothing zeroes: the bytes read from the
    file lie at its start and every byte after them is the byte [malloc]
    left there; for a page outside the file the whole buffer is the fresh
    block. *)
Theorem getPage_miss_buffer (malloc : Z -> page) (pager : Pager)
    (pageNum : Z) :
  Z.of_nat (length (malloc pageNum)) = PAGE_SIZE ->
  0 <= pageNum < TABLE_MAX_PAGES ->
  slot pager pageNum = Ok None ->
  exists buf pager',
    getPage malloc pager pageNum = Ok (buf, pager') /\
    slot pager' pageNum = Ok (Some buf) /\
    Z.of_nat (length buf) = PAGE_SIZE /\
    take (length (loaded pager pageNum)) buf = loaded pager pageNum /\
    (forall k, (length (loaded pager pageNum) <= k)%nat ->
               buf !! k = malloc pageNum !! k) /\
    (Z.of_nat (length (contents (fd pager))) <= pageNum * PAGE_SIZE ->
     buf = malloc pageNum).
Proof.
  intros Hm Hp Hs.
  assert (Hn : pages pager !! Z.to_nat pageNum = Some None).
  { unfold slot in Hs.
    destruct (pages pager !! Z.to_nat pageNum) as [[b |] |]; congruence. }
  destruct (getPage_miss malloc pager pageNum ltac:(lia) Hn)
    as (fd' & Hg & _).
  set (got := loaded pager pageNum) in *. cbv zeta in Hg.
  assert (Hgot : Z.of_nat (length got) <= PAGE_SIZE).
  { subst got. unfold loaded. destruct (_ <=? _).
    - apply length_bytes_at. consts. lia.
    - cbn. consts. lia. }
  eexists _, _. split; [exact Hg |]. repeat split.
  - unfold slot, set_slot. cbn [pages].
    rewrite list_lookup_insert_eq; [reflexivity |].
    apply lookup_lt_is_Some. eauto.
  - rewrite length_app, length_drop. lia.
  - apply take_app_length.
  - intros k Hk. rewrite lookup_app_r by exact Hk.
    rewrite lookup_drop. f_equal. lia.
  - intros Hout.
    assert (Hnone : got = []).
    { subst got. unfold loaded. destruct (_ <=? _); [| reflexivity].
      unfold bytes_at. rewrite drop_ge; [apply take_nil |].
      rewrite uint32_small by (consts; lia). lia. }
    rewrite Hnone. cbn. apply drop_0.
Qed.

(** ** Rows in a table *)

Section Rows.

Variable malloc : Z -> page.
Hypothesis malloc_size : forall n, Z.of_nat (length (malloc n)) = PAGE_SIZE.

(** Row numbers below [TABLE_MAX_ROWS] are on pages of the array. *)
Lemma row_page_in_bounds i :
  0 <= i < TABLE_MAX_ROWS ->
  0 <= i / ROWS_PER_PAGE < TABLE_MAX_PAGES /\
  0 <= i mod ROWS_PER_PAGE * ROW_SIZE /\
  i mod ROWS_PER_PAGE * ROW_SIZE + ROW_SIZE <= PAGE_SIZE.
Proof.
  consts. intros Hi.
  pose proof (Z.mod_pos_bound i 13 ltac:(lia)).
  pose proof (Z.div_pos i 13 ltac:(lia) ltac:(lia)).
  pose proof (Z.div_lt_upper_bound i 13 100 ltac:(lia) ltac:(lia)).
  lia.
Qed.

(** [rowSlot] on a row below [TABLE_MAX_ROWS]: the page is fetched and the
    pointer is into the fetched buffer. *)
Lemma rowSlot_in_bounds table i :
  struct_Pager (pager table) -> 0 <= i < TABLE_MAX_ROWS ->
  exists buf pager',
    getPage malloc (pager table) (i / ROWS_PER_PAGE) = Ok (buf, pager') /\
    rowSlot malloc table i
    = Ok ({| in_page := i / ROWS_PER_PAGE;
             at_byte := i mod ROWS_PER_PAGE * ROW_SIZE |},
          {| numRows := numRows table; pager := pager' |}) /\
    struct_Pager pager' /\
    pages pager'
    = <[Z.to_nat (i / ROWS_PER_PAGE) := Some buf]> (pages (pager table)) /\
    Z.of_nat (length buf) = PAGE_SIZE /\
    contents (fd pager') = contents (fd (pager table)) /\
    fLen pager' = fLen (pager table) /\
    (forall b, pages (pager table) !! Z.to_nat (i / ROWS_PER_PAGE)
               = Some (Some b) -> buf = b).
Proof.
  intros Hs Hi. destruct (row_page_in_bounds i Hi) as (Hpn & Hlo & Hhi).
  destruct (getPage_in_bounds malloc malloc_size (pager table)
              (i / ROWS_PER_PAGE) Hs Hpn)
    as (buf & pager' & Hg & Hs' & Hpages & Hlen & Hc & Hf & Hhit).
  exists buf, pager'. split; [exact Hg |].
  split; [| auto 10].
  unfold rowSlot. rewrite Hg. cbn [bind].
  rewrite uint32_small by (consts; lia). reflexivity.
Qed.

Lemma buffer_set_slot pager pn b :
  struct_Pager pager -> 0 <= pn < TABLE_MAX_PAGES ->
  pages (set_slot pager pn (Some b)) !! Z.to_nat pn = Some (Some b).
Proof.
  intros [Hlen _] Hpn. cbn [set_slot pages].
  apply list_lookup_insert_eq. lia.
Qed.

(** The effect of one insert below capacity, in full. *)
Lemma executeInsertStatement_effect r table :
  struct_Pager (pager table) -> 0 <= numRows table < TABLE_MAX_ROWS ->
  struct_Row r ->
  let n := numRows table in
  exists buf pager',
    getPage malloc (pager table) (n / ROWS_PER_PAGE) = Ok (buf, pager') /\
    Z.of_nat (length buf) = PAGE_SIZE /\
    contents (fd pager') = contents (fd (pager table)) /\
    fLen pager' = fLen (pager table) /\
    (forall b, pages (pager table) !! Z.to_nat (n / ROWS_PER_PAGE)
               = Some (Some b) -> buf = b) /\
    executeInsertStatement malloc r table
    = Ok (EXECUTE_SUCCESS,
          {| numRows := n + 1;
             pager :=
               {| fd := fd pager'; fLen := fLen pager';
                  pages :=
                    <[Z.to_nat (n / ROWS_PER_PAGE) :=
                        Some (splice buf
                                (Z.to_nat (n mod ROWS_PER_PAGE * ROW_SIZE))
                                (record r))]> (pages (pager table))
               |} |}).
Proof.
  intros Hs Hn Hr n. subst n.
  destruct (row_page_in_bounds _ Hn) as (Hpn & Hlo & Hhi).
  destruct (rowSlot_in_bounds table _ Hs Hn)
    as (buf & pager' & Hg & Hrs & Hs' & Hpages & Hlen & Hc & Hf & Hhit).
  exists buf, pager'. repeat (split; [assumption |]).
  unfold executeInsertStatement.
  destruct (Z.leb_spec TABLE_MAX_ROWS (numRows table)); [lia |].
  rewrite Hrs. cbn [bind numRows pager in_page at_byte].
  rewrite uint32_small by (consts; lia).
  unfold buffer. cbn [in_page]. rewrite Hpages.
  rewrite list_lookup_insert_eq by (destruct Hs as [Hl _]; lia).
  rewrite serializeRow_splice by (auto; lia).
  unfold set_slot. rewrite Hpages, list_insert_insert_eq. reflexivity.
Qed.

End Rows.

(** [rowSlot] on a row below [TABLE_MAX_ROWS] of a table as the C types
    have it returns, whatever the allocator hands out. *)
Lemma rowSlot_returns malloc table i :
  struct_Pager (pager table) -> 0 <= i < TABLE_MAX_ROWS ->
  exists table',
    rowSlot malloc table i
    = Ok ({| in_page := i / ROWS_PER_PAGE;
             at_byte := i mod ROWS_PER_PAGE * ROW_SIZE |}, table').
Proof.
  intros Hs Hi. destruct (row_page_in_bounds i Hi) as (Hpn & Hlo & Hhi).
  destruct (slot_in_bounds (pager table) _ Hs Hpn) as (s & Hs1 & _).
  unfold rowSlot. destruct s as [b |].
  - rewrite (getPage_hit malloc (pager table) _ b) by (auto; lia).
    cbn [bind]. rewrite uint32_small by (consts; lia). eauto.
  - assert (Hpn' : 0 <= i / ROWS_PER_PAGE <= TABLE_MAX_PAGES) by lia.
    destruct (getPage_miss malloc (pager table) _ Hpn' Hs1)
      as (fd' & Hg & _).
    cbv zeta in Hg. rewrite Hg. cbn [bind].
    rewrite uint32_small by (consts; lia). eauto.
Qed.

(** C7. Addressing: for every row index [i >= 0] the address is
    [(i / rows_per_page, (i % rows_per_page) * row_stride)]; from it
    [page * rows_per_page + offset / row_stride] gives [i] back, so two
    indices with the same address are equal. It is the address of the
    code: whenever [rowSlot] returns for row [i] it returns this address,
    for every [i] below [TABLE_MAX_ROWS] it does return on a table as the
    C types have it, and two rows for which [rowSlot] returns the same
    pointer are the same row. With stride 293 and 13 rows per page, row 13
    is at page 1, offset 0. *)
Theorem row_address_injective (i : Z) :
  0 <= i ->
  row_address i = (i / ROWS_PER_PAGE, i mod ROWS_PER_PAGE * ROW_SIZE) /\
  fst (row_address i) * ROWS_PER_PAGE + snd (row_address i) / ROW_SIZE = i /\
  (forall j, 0 <= j -> row_address j = row_address i -> j = i) /\
  (forall malloc table p table',
      rowSlot malloc table i = Ok (p, table') ->
      (in_page p, at_byte p) = row_address i) /\
  (i < TABLE_MAX_ROWS ->
   forall malloc table,
     struct_Pager (pager table) ->
     exists table',
       rowSlot malloc table i
       = Ok ({| in_page := fst (row_address i);
                at_byte := snd (row_address i) |}, table')) /\
  (forall malloc table table' j tablej tablej' p,
      0 <= j ->
      rowSlot malloc table i = Ok (p, table') ->
      rowSlot malloc tablej j = Ok (p, tablej') ->
      j = i) /\
  ROW_SIZE = 293 /\ ROWS_PER_PAGE = 13 /\ row_address 13 = (1, 0).
Proof.
  intros Hi.
  destruct (row_address_values i Hi) as (Hv & Hq & Hr).
  assert (Hback : forall k, 0 <= k ->
            fst (row_address k) * ROWS_PER_PAGE
              + snd (row_address k) / ROW_SIZE = k).
  { intros k Hk. destruct (row_address_values k Hk) as (-> & _ & _).
    consts. cbn [fst snd]. rewrite Z.div_mul by lia.
    pose proof (Z.div_mod k 13 ltac:(lia)). lia. }
  assert (Hinj : forall j, 0 <= j -> row_address j = row_address i -> j = i).
  { intros j Hj Heq. rewrite <- (Hback j Hj), Heq. apply Hback. exact Hi. }
  split; [exact Hv |]. split; [apply Hback; exact Hi |].
  split; [exact Hinj |].
  split; [| split; [| split; [| repeat split]]].
  - intros malloc table p table'. apply rowSlot_address.
  - intros Hlt malloc table Hs.
    destruct (rowSlot_returns malloc table i Hs ltac:(lia)) as (table' & Hr').
    exists table'. rewrite Hr', Hv. reflexivity.
  - intros malloc table table' j tablej tablej' p Hj Hri Hrj.
    apply Hinj; [exact Hj |].
    rewrite <- (rowSlot_address _ _ _ _ _ Hri).
    symmetry. apply (rowSlot_address _ _ _ _ _ Hrj).
Qed.

(** ** What a table stores *)

Ltac divmod i :=
  pose proof (Z.div_mod i 13 ltac:(lia));
  pose proof (Z.mod_pos_bound i 13 ltac:(lia)).

Lemma openDatabase_empty :
  struct_Pager (pager (openDatabase [])) /\ stores (openDatabase []) [] /\
  contents (fd (pager (openDatabase []))) = [].
Proof.
  split; [apply openPager_struct |]. split; [| reflexivity].
  split; [reflexivity |]. intros i r H. discriminate.
Qed.

Section Stores.

Variable malloc : Z -> page.
Hypothesis malloc_size : forall n, Z.of_nat (length (malloc n)) = PAGE_SIZE.

Lemma executeInsertStatement_stores r table rows :
  struct_Pager (pager table) -> stores table rows ->
  Z.of_nat (length rows) < TABLE_MAX_ROWS -> struct_Row r ->
  exists table',
    executeInsertStatement malloc r table = Ok (EXECUTE_SUCCESS, table') /\
    struct_Pager (pager table') /\
    stores table' (rows ++ [r]) /\
    contents (fd (pager table')) = contents (fd (pager table)) /\
    fLen (pager table') = fLen (pager table).
Proof.
  intros Hs [Hn Hrows] Hcap Hr.
  destruct (executeInsertStatement_effect malloc malloc_size r table Hs
              ltac:(lia) Hr)
    as (buf & pager' & Hg & Hlen & Hc & Hf & Hhit & Hx).
  cbv zeta in Hx. eexists. split; [exact Hx |].
  pose proof (length_record r Hr) as Hrec.
  destruct (row_page_in_bounds (numRows table) ltac:(lia))
    as (Hpn & Hlo & Hhi).
  cbn [pager pages fd fLen].
  assert (Hsl : Z.of_nat (length (splice buf
                 (Z.to_nat (numRows table mod ROWS_PER_PAGE * ROW_SIZE))
                 (record r))) = PAGE_SIZE).
  { rewrite length_splice by lia. exact Hlen. }
  split; [| split; [| auto]].
  - apply (set_slot_struct (pager table) _ _ Hs Hsl).
  - split; cbn [numRows pager pages].
    + rewrite length_app. cbn [length]. lia.
    + intros i r0 Hi. unfold holds_row. cbn [pages].
      destruct Hs as [Hl Hbuf]. consts.
      divmod (numRows table). divmod (Z.of_nat i).
      destruct (decide (i < length rows)%nat) as [Hlt | Hge].
      * rewrite lookup_app_l in Hi by exact Hlt.
        destruct (Hrows i r0 Hi) as (b & Hb & Hbytes). consts.
        destruct (decide (Z.of_nat i / 13 = numRows table / 13)) as [He | Hne].
        -- rewrite He in *. specialize (Hhit b Hb). subst b.
           eexists. split; [apply list_lookup_insert_eq; lia |].
           rewrite <- Hbytes. unfold bytes_at.
           apply slice_splice_other; lia.
        -- exists b. split; [| exact Hbytes].
           rewrite list_lookup_insert_ne by lia. exact Hb.
      * assert (i = length rows).
        { apply lookup_lt_Some in Hi. rewrite length_app in Hi.
          cbn [length] in Hi. lia. }
        subst i. rewrite list_lookup_middle in Hi by reflexivity.
        injection Hi as <-. rewrite <- Hn.
        eexists. split; [apply list_lookup_insert_eq; lia |].
        unfold bytes_at.
        replace (Z.to_nat 293) with (length (record r)) by lia.
        apply slice_splice_same. lia.
Qed.

Lemma insertRows_stores rows :
  forall table rows0,
    struct_Pager (pager table) -> stores table rows0 ->
    Z.of_nat (length rows0 + length rows) <= TABLE_MAX_ROWS ->
    Forall struct_Row rows ->
    exists table',
      insertRows malloc rows table
      = Ok (replicate (length rows) EXECUTE_SUCCESS, table') /\
      struct_Pager (pager table') /\
      stores table' (rows0 ++ rows) /\
      contents (fd (pager table')) = contents (fd (pager table)) /\
      fLen (pager table') = fLen (pager table).
Proof.
  induction rows as [| r rows IH]; intros table rows0 Hs Hst Hcap Hall.
  - exists table. rewrite app_nil_r. cbn. auto.
  - apply Forall_cons in Hall as [Hr Hall]. cbn [length] in Hcap.
    destruct (executeInsertStatement_stores r table rows0 Hs Hst
                ltac:(lia) Hr) as (t1 & Hx & Hs1 & Hst1 & Hc1 & Hf1).
    destruct (IH t1 (rows0 ++ [r]) Hs1 Hst1)
      as (t2 & Hy & Hs2 & Hst2 & Hc2 & Hf2).
    { rewrite length_app. cbn [length]. lia. }
    { exact Hall. }
    exists t2. cbn [insertRows]. rewrite Hx. cbn [bind]. rewrite Hy.
    cbn [bind length replicate]. rewrite <- app_assoc in Hst2.
    split; [reflexivity |]. split; [exact Hs2 |]. split; [exact Hst2 |].
    split; congruence.
Qed.

(** A select finds every page it needs resident: it reads the rows in
    order and leaves the table as it was. *)
Lemma selectRows_stores table rows :
  struct_Pager (pager table) -> stores table rows ->
  Z.of_nat (length rows) <= TABLE_MAX_ROWS -> Forall struct_Row rows ->
  forall n k out,
    (k + n = length rows)%nat ->
    selectRows malloc n (Z.of_nat k) table out
    = Ok (out ++ drop k rows, table).
Proof.
  intros Hs [Hn Hrows] Hcap Hall. destruct table as [nr pg].
  cbn [pager numRows] in *.
  induction n as [| n IH]; intros k out Hk.
  - rewrite drop_ge by lia. rewrite app_nil_r. reflexivity.
  - destruct (lookup_lt_is_Some_2 rows k ltac:(lia)) as [r Hr].
    destruct (Hrows k r Hr) as (b & Hb & Hbytes).
    assert (Hstruct : struct_Row r).
    { eapply Forall_lookup_1; eauto. }
    apply lookup_lt_Some in Hr as Hlt.
    destruct (row_page_in_bounds (Z.of_nat k) ltac:(lia)) as (Hpn & Hlo & Hhi).
    cbn [selectRows]. unfold rowSlot. cbn [pager numRows].
    rewrite (getPage_hit malloc pg _ b) by (auto; lia).
    cbn [bind pager at_byte]. unfold buffer. cbn [in_page]. rewrite Hb.
    rewrite !uint32_small by (consts; lia).
    rewrite deserializeRow_decode by lia.
    rewrite Hbytes, decode_record by exact Hstruct.
    replace (Z.of_nat k + 1) with (Z.of_nat (S k)) by lia.
    rewrite IH by lia.
    rewrite (drop_S rows r k Hr), <- app_assoc. reflexivity.
Qed.

End Stores.

(** C8. Same-session order preservation: [N <= max_rows] rows with fields
    within capacity, inserted into a store freshly opened on an empty
    file, all go in, and the select that follows hands out exactly these
    rows, byte for byte, in insertion order. *)
Theorem select_after_inserts (malloc : Z -> page) (rows : list Row) :
  (forall n, Z.of_nat (length (malloc n)) = PAGE_SIZE) ->
  Z.of_nat (length rows) <= TABLE_MAX_ROWS ->
  Forall valid_row rows ->
  exists table,
    insertRows malloc rows (openDatabase [])
    = Ok (replicate (length rows) EXECUTE_SUCCESS, table) /\
    numRows table = Z.of_nat (length rows) /\
    executeSelectStatement malloc table = Ok (EXECUTE_SUCCESS, rows, table).
Proof.
  intros Hm Hcap Hvalid.
  assert (Hall : Forall struct_Row rows).
  { eapply Forall_impl; [exact Hvalid |]. intros r H. apply H. }
  destruct openDatabase_empty as (Hs0 & Hst0 & _).
  destruct (insertRows_stores malloc Hm rows (openDatabase []) [] Hs0 Hst0
              ltac:(cbn [length]; lia) Hall)
    as (table & Hins & Hs & Hst & _).
  cbn [app] in Hst. exists table. split; [exact Hins |].
  split; [apply Hst |].
  unfold executeSelectStatement.
  replace (numRows table) with (Z.of_nat (length rows))
    by (symmetry; apply Hst).
  rewrite Nat2Z.id.
  change (selectRows malloc (length rows) 0)
    with (selectRows malloc (length rows) (Z.of_nat 0)).
  rewrite (selectRows_stores malloc table rows Hs Hst Hcap Hall
             (length rows) 0%nat []) by lia.
  cbn [bind app]. rewrite drop_0. reflexivity.
Qed.

(** C5. Capacity: [max_rows = rows_per_page * MAX_PAGES] inserts into an
    empty store all succeed; with [row_count = max_rows] an insert fails
    with [EXECUTE_TABLE_FULL] and hands back the table it was given, row
    count and pages untouched. *)
Theorem insert_at_capacity (malloc : Z -> page) (rows : list Row) (r : Row) :
  (forall n, Z.of_nat (length (malloc n)) = PAGE_SIZE) ->
  Z.of_nat (length rows) = TABLE_MAX_ROWS ->
  Forall struct_Row rows ->
  TABLE_MAX_ROWS = ROWS_PER_PAGE * TABLE_MAX_PAGES /\
  (exists table,
      insertRows malloc rows (openDatabase [])
      = Ok (replicate (length rows) EXECUTE_SUCCESS, table) /\
      numRows table = TABLE_MAX_ROWS /\
      executeInsertStatement malloc r table = Ok (EXECUTE_TABLE_FULL, table)) /\
  (forall table,
      numRows table = TABLE_MAX_ROWS ->
      executeInsertStatement malloc r table = Ok (EXECUTE_TABLE_FULL, table)).
Proof.
  intros Hm Hlen Hall.
  assert (Hfull : forall table,
             numRows table = TABLE_MAX_ROWS ->
             executeInsertStatement malloc r table
             = Ok (EXECUTE_TABLE_FULL, table)).
  { intros table Hn. unfold executeInsertStatement.
    rewrite Hn, Z.leb_refl. reflexivity. }
  split; [reflexivity |]. split; [| exact Hfull].
  destruct openDatabase_empty as (Hs0 & Hst0 & _).
  destruct (insertRows_stores malloc Hm rows (openDatabase []) [] Hs0 Hst0
              ltac:(cbn [length]; lia) Hall)
    as (table & Hins & Hs & Hst & _).
  exists table. split; [exact Hins |].
  assert (Hn : numRows table = TABLE_MAX_ROWS).
  { destruct Hst as [Hn _]. cbn [app] in Hn. lia. }
  split; [exact Hn |]. apply Hfull. exact Hn.
Qed.

(** ** Page numbers stay inside the array *)

Lemma Ok_in_bounds {A} (o : outcome A) v : o = Ok v -> in_bounds o.
Proof. intros ->. split; discriminate. Qed.

Section Bounds.

Variable malloc : Z -> page.
Hypothesis malloc_size : forall n, Z.of_nat (length (malloc n)) = PAGE_SIZE.

Lemma selectRows_in_bounds n :
  forall i table out,
    struct_Pager (pager table) -> 0 <= i ->
    i + Z.of_nat n <= TABLE_MAX_ROWS ->
    exists v, selectRows malloc n i table out = Ok v.
Proof.
  induction n as [| n IH]; intros i table out Hs Hi Hn.
  - eexists. reflexivity.
  - destruct (rowSlot_in_bounds malloc malloc_size table i Hs ltac:(lia))
      as (buf & pager' & _ & Hrs & Hs' & _).
    cbn [selectRows]. rewrite Hrs. cbn [bind].
    apply IH.
    + exact Hs'.
    + unfold uint32. apply Z.mod_pos_bound. lia.
    + rewrite uint32_small by (consts; lia). lia.
Qed.

End Bounds.

(** C10. In-bounds page access: in a table with
    [row_count <= max_rows = rows_per_page * MAX_PAGES], the page number
    of every row below [row_count], and of row [row_count] itself when
    [row_count < max_rows], is below [MAX_PAGES]; [rowSlot] on these rows,
    an insert and a select never reach the fatal bounds branch of
    [getPage] and never index [pages] outside its [MAX_PAGES] slots. *)
Theorem page_access_in_bounds (malloc : Z -> page) (table : Table) (r : Row) :
  (forall n, Z.of_nat (length (malloc n)) = PAGE_SIZE) ->
  struct_Pager (pager table) ->
  0 <= numRows table <= TABLE_MAX_ROWS ->
  TABLE_MAX_ROWS = ROWS_PER_PAGE * TABLE_MAX_PAGES /\
  (forall i, 0 <= i < numRows table ->
     0 <= fst (row_address i) < TABLE_MAX_PAGES /\
     in_bounds (getPage malloc (pager table) (fst (row_address i))) /\
     in_bounds (rowSlot malloc table i)) /\
  (numRows table < TABLE_MAX_ROWS ->
     0 <= fst (row_address (numRows table)) < TABLE_MAX_PAGES /\
     in_bounds (getPage malloc (pager table)
                  (fst (row_address (numRows table)))) /\
     in_bounds (rowSlot malloc table (numRows table))) /\
  in_bounds (executeInsertStatement malloc r table) /\
  in_bounds (executeSelectStatement malloc table).
Proof.
  intros Hm Hs Hn.
  assert (Hrow : forall i, 0 <= i < TABLE_MAX_ROWS ->
            0 <= fst (row_address i) < TABLE_MAX_PAGES /\
            in_bounds (getPage malloc (pager table) (fst (row_address i))) /\
            in_bounds (rowSlot malloc table i)).
  { intros i Hi. cbn [row_address fst].
    destruct (rowSlot_in_bounds malloc Hm table i Hs Hi)
      as (buf & pager' & Hg & Hrs & _).
    split; [apply row_page_in_bounds; exact Hi |].
    split; eapply Ok_in_bounds; eassumption. }
  split; [reflexivity |].
  split; [intros i Hi; apply Hrow; lia |].
  split; [intros Hlt; apply Hrow; lia |].
  split.
  - unfold executeInsertStatement.
    destruct (Z.leb_spec TABLE_MAX_ROWS (numRows table)) as [Hfull | Hlt].
    + eapply Ok_in_bounds. reflexivity.
    + destruct (rowSlot_in_bounds malloc Hm table (numRows table) Hs
                  ltac:(lia)) as (buf & pager' & _ & Hrs & _).
      rewrite Hrs. cbn [bind]. eapply Ok_in_bounds. reflexivity.
  - unfold executeSelectStatement.
    destruct (selectRows_in_bounds malloc Hm (Z.to_nat (numRows table)) 0
                table [] Hs ltac:(lia) ltac:(lia)) as ([out t'] & Hsel).
    rewrite Hsel. cbn [bind]. eapply Ok_in_bounds. reflexivity.
Qed.

(** ** The frame of an insert *)

Lemma lookup_splice_other (buf : list byte) off data k :
  (off + length data <= length buf)%nat ->
  (k < off)%nat \/ (off + length data <= k)%nat ->
  splice buf off data !! k = buf !! k.
Proof.
  intros Hfit Hk. unfold splice.
  assert (Ht : length (take off buf) = off) by (rewrite length_take; lia).
  destruct Hk as [Hlo | Hhi].
  - rewrite lookup_app_l by lia. apply lookup_take_lt. exact Hlo.
  - rewrite lookup_app_r by lia. rewrite lookup_app_r by lia.
    rewrite lookup_drop. f_equal. lia.
Qed.

Section Frame.

Variable malloc : Z -> page.
Hypothesis malloc_size : forall n, Z.of_nat (length (malloc n)) = PAGE_SIZE.

(** Two pagers over the same file that agree on a slot hand out the same
    buffer for it. *)
Lemma getPage_same_buffer pager1 pager2 q :
  struct_Pager pager1 -> struct_Pager pager2 ->
  0 <= q < TABLE_MAX_PAGES ->
  pages pager1 !! Z.to_nat q = pages pager2 !! Z.to_nat q ->
  contents (fd pager1) = contents (fd pager2) ->
  fLen pager1 = fLen pager2 ->
  exists buf pg1 pg2,
    getPage malloc pager1 q = Ok (buf, pg1) /\
    getPage malloc pager2 q = Ok (buf, pg2) /\
    pages pg1 !! Z.to_nat q = Some (Some buf) /\
    pages pg2 !! Z.to_nat q = Some (Some buf).
Proof.
  intros Hs1 Hs2 Hq Hslot Hc Hf.
  destruct (slot_in_bounds pager1 q Hs1 Hq) as (s & Hl1 & _).
  assert (Hl2 : pages pager2 !! Z.to_nat q = Some s) by congruence.
  destruct s as [b |].
  - exists b, pager1, pager2.
    rewrite !(getPage_hit malloc _ q b) by (auto; lia). auto.
  - destruct (getPage_miss malloc pager1 q ltac:(lia) Hl1) as (fd1 & Hg1 & _).
    destruct (getPage_miss malloc pager2 q ltac:(lia) Hl2) as (fd2 & Hg2 & _).
    cbv zeta in Hg1, Hg2.
    assert (Hload : loaded pager1 q = loaded pager2 q).
    { unfold loaded, numPages. rewrite Hc, Hf. reflexivity. }
    rewrite Hload in Hg1.
    eexists _, _, _. split; [exact Hg1 |]. split; [exact Hg2 |].
    cbn [set_slot pages].
    split; apply list_lookup_insert_eq; apply lookup_lt_is_Some; eauto.
Qed.

End Frame.

Lemma rowSlot_buffer table i buf pager' :
  struct_Pager (pager table) -> 0 <= i < TABLE_MAX_ROWS ->
  pages pager'
  = <[Z.to_nat (i / ROWS_PER_PAGE) := Some buf]> (pages (pager table)) ->
  buffer pager' {| in_page := i / ROWS_PER_PAGE;
                   at_byte := i mod ROWS_PER_PAGE * ROW_SIZE |} = buf.
Proof.
  intros [Hl _] Hi Hpages.
  destruct (row_page_in_bounds i Hi) as (Hpn & _).
  unfold buffer. cbn [in_page]. rewrite Hpages.
  rewrite list_lookup_insert_eq by lia. reflexivity.
Qed.

(** C9. The frame of a successful insert below capacity. With [buf] the
    buffer [getPage] hands out for the page of row [row_count] (the
    resident buffer when there is one), the insert leaves in that slot a
    buffer [buf'] of the same size that holds the record of the row in the
    [ROW_SIZE] bytes at the row's offset and equals [buf] at every other
    byte, so in every other row slot of the page; [row_count] grows by
    one; every other page slot, the file and its recorded length are
    untouched; and every earlier row decodes to the same value as before. *)
Theorem insert_frame (malloc : Z -> page) (table : Table) (r : Row) :
  (forall n, Z.of_nat (length (malloc n)) = PAGE_SIZE) ->
  struct_Pager (pager table) ->
  0 <= numRows table < TABLE_MAX_ROWS ->
  struct_Row r ->
  let n := numRows table in
  let pn := fst (row_address n) in
  let off := snd (row_address n) in
  exists buf pg buf' table',
    getPage malloc (pager table) pn = Ok (buf, pg) /\
    (forall b, pages (pager table) !! Z.to_nat pn = Some (Some b) -> buf = b) /\
    executeInsertStatement malloc r table = Ok (EXECUTE_SUCCESS, table') /\
    numRows table' = n + 1 /\
    pages (pager table') !! Z.to_nat pn = Some (Some buf') /\
    length buf' = length buf /\
    bytes_at buf' off ROW_SIZE = encode r /\
    (forall k, (k < Z.to_nat off)%nat \/ (Z.to_nat (off + ROW_SIZE) <= k)%nat ->
               buf' !! k = buf !! k) /\
    (forall j, 0 <= j < ROWS_PER_PAGE -> j <> n mod ROWS_PER_PAGE ->
               bytes_at buf' (j * ROW_SIZE) ROW_SIZE
               = bytes_at buf (j * ROW_SIZE) ROW_SIZE) /\
    (forall q, q <> Z.to_nat pn ->
               pages (pager table') !! q = pages (pager table) !! q) /\
    contents (fd (pager table')) = contents (fd (pager table)) /\
    fLen (pager table') = fLen (pager table) /\
    (forall i, 0 <= i < n ->
       exists p1 t1 p2 t2,
         rowSlot malloc table i = Ok (p1, t1) /\
         rowSlot malloc table' i = Ok (p2, t2) /\
         deserializeRow (buffer (pager t2) p2) (at_byte p2)
         = deserializeRow (buffer (pager t1) p1) (at_byte p1)).
Proof.
  intros Hm Hs Hn Hr n pn off.
  destruct (executeInsertStatement_effect malloc Hm r table Hs Hn Hr)
    as (buf & pager' & Hg & Hlen & Hc & Hf & Hhit & Hx).
  cbv zeta in Hx.
  pose proof (length_record r Hr) as Hrec.
  destruct (row_page_in_bounds (numRows table) Hn) as (Hpn & Hlo & Hhi).
  assert (Hoff : off = n mod ROWS_PER_PAGE * ROW_SIZE).
  { subst off n. unfold row_address. cbn [snd].
    apply uint32_small. consts. lia. }
  change pn with (n / ROWS_PER_PAGE) in *. rewrite Hoff. clear Hoff off.
  subst n. clear pn.
  set (off := numRows table mod ROWS_PER_PAGE * ROW_SIZE) in *.
  set (buf' := splice buf (Z.to_nat off) (record r)) in *.
  assert (Hlen' : length buf' = length buf).
  { subst buf'. apply length_splice. lia. }
  match type of Hx with _ = Ok (_, ?t) => set (table' := t) in * end.
  assert (Hs' : struct_Pager (pager table')).
  { apply (set_slot_struct (pager table) (numRows table / ROWS_PER_PAGE)
             buf' Hs). lia. }
  assert (Hslot' : pages (pager table')
                     !! Z.to_nat (numRows table / ROWS_PER_PAGE)
                   = Some (Some buf')).
  { subst table'. cbn [pager pages]. apply list_lookup_insert_eq.
    destruct Hs as [Hl _]. lia. }
  assert (Hother : forall o m, 0 <= o -> 0 <= m ->
            o + m <= off \/ off + ROW_SIZE <= o ->
            bytes_at buf' o m = bytes_at buf o m).
  { intros o m Ho Hm' Hd. unfold bytes_at. subst buf'.
    apply slice_splice_other; lia. }
  assert (Hslots : forall j, 0 <= j < ROWS_PER_PAGE ->
            j <> numRows table mod ROWS_PER_PAGE ->
            bytes_at buf' (j * ROW_SIZE) ROW_SIZE
            = bytes_at buf (j * ROW_SIZE) ROW_SIZE).
  { intros j Hj Hne. apply Hother; subst off; consts; lia. }
  exists buf, pager', buf', table'.
  split; [exact Hg |]. split; [exact Hhit |]. split; [exact Hx |].
  split; [reflexivity |]. split; [exact Hslot' |]. split; [exact Hlen' |].
  split; [| split; [| split; [exact Hslots |]]].
  - rewrite encode_record by exact Hr. unfold bytes_at. subst buf'.
    replace (Z.to_nat ROW_SIZE) with (length (record r)) by lia.
    apply slice_splice_same. lia.
  - intros k Hk. subst buf'. apply lookup_splice_other; lia.
  - split; [| split; [exact Hc | split; [exact Hf |]]].
    + intros q Hq. subst table'. cbn [pager pages].
      apply list_lookup_insert_ne. lia.
    + intros i Hi.
      destruct (rowSlot_in_bounds malloc Hm table i Hs ltac:(lia))
        as (b1 & pg1 & Hg1 & Hrs1 & _ & Hp1 & _).
      destruct (rowSlot_in_bounds malloc Hm table' i Hs' ltac:(lia))
        as (b2 & pg2 & Hg2 & Hrs2 & _ & Hp2 & _ & _ & _ & Hhit2).
      eexists _, _, _, _. split; [exact Hrs1 |]. split; [exact Hrs2 |].
      cbn [pager at_byte].
      rewrite (rowSlot_buffer table i b1 pg1 Hs ltac:(lia) Hp1).
      rewrite (rowSlot_buffer table' i b2 pg2 Hs' ltac:(lia) Hp2).
      destruct (decide (i / ROWS_PER_PAGE = numRows table / ROWS_PER_PAGE))
        as [Heq | Hne].
      * rewrite Heq in *.
        assert (b1 = buf) by congruence. subst b1.
        rewrite (Hhit2 buf' Hslot').
        rewrite !(deserializeRow_decode _ (i mod ROWS_PER_PAGE * ROW_SIZE))
          by (consts; divmod i; lia).
        f_equal. apply Hslots.
        -- consts. divmod i. lia.
        -- consts. divmod i. divmod (numRows table). lia.
      * destruct (row_page_in_bounds i ltac:(lia)) as (Hq & _).
        destruct (getPage_same_buffer malloc (pager table) (pager table')
                    (i / ROWS_PER_PAGE) Hs Hs' Hq)
          as (b0 & q1 & q2 & Hq1 & Hq2 & _).
        { subst table'. cbn [pager pages]. symmetry.
          apply list_lookup_insert_ne. lia. }
        { exact (eq_sym Hc). }
        { exact (eq_sym Hf). }
        congruence.
Qed.

(** ** Closing: what reaches the file *)

Section Blocks.

Variable sz : nat.

Lemma length_concat_blocks (bl : list (list byte)) :
  Forall (fun x => length x = sz) bl ->
  length (concat bl) = (length bl * sz)%nat.
Proof.
  induction 1 as [| x bl Hx _ IH]; [reflexivity |].
  cbn [concat length]. rewrite length_app, IH, Hx. lia.
Qed.

Lemma concat_blocks_at (bl : list (list byte)) tail :
  Forall (fun x => length x = sz) bl ->
  forall k b o n,
    bl !! k = Some b -> (o + n <= sz)%nat ->
    take n (drop (k * sz + o) (concat bl ++ tail)) = take n (drop o b).
Proof.
  induction 1 as [| x bl Hx _ IH]; intros k b o n Hk Hfit.
  - discriminate.
  - cbn [concat]. rewrite <- app_assoc. destruct k as [| k].
    + injection Hk as ->. cbn [Nat.mul Nat.add].
      rewrite drop_app_le by lia.
      apply take_app_le. rewrite length_drop. lia.
    + cbn [lookup list_lookup] in Hk.
      rewrite drop_app_ge by lia.
      replace (S k * sz + o - length x)%nat with (k * sz + o)%nat by lia.
      apply IH; assumption.
Qed.

Lemma concat_blocks_tail (bl : list (list byte)) tail o :
  Forall (fun x => length x = sz) bl ->
  drop (length bl * sz + o) (concat bl ++ tail) = drop o tail.
Proof.
  intros Hall. rewrite drop_app_ge
    by (rewrite (length_concat_blocks bl Hall); lia).
  rewrite (length_concat_blocks bl Hall). f_equal. lia.
Qed.

End Blocks.

(** What [write] returns and leaves in the file. *)
Lemma write_contents fd buf n :
  let data := take (Z.to_nat n) buf in
  let off := Z.to_nat (pos fd) in
  let old := contents fd ++ replicate (off - length (contents fd))%nat NUL in
  exists fd',
    write fd buf n = (Z.of_nat (length data), fd') /\
    (data = [] -> contents fd' = contents fd) /\
    (data <> [] ->
     contents fd' = take off old ++ data ++ drop (off + length data)%nat old).
Proof.
  intros data off old. unfold write. fold data.
  destruct data as [| c data'] eqn:Hdata.
  - exists fd. split; [reflexivity |]. split; [reflexivity | congruence].
  - eexists. split; [reflexivity |]. split; [discriminate |].
    intros _. reflexivity.
Qed.

(** A flush at the end of the file appends. *)
Lemma flushPager_append pager pageNum b size :
  pages pager !! Z.to_nat pageNum = Some (Some b) ->
  0 <= pageNum < TABLE_MAX_PAGES ->
  Z.of_nat (length (contents (fd pager))) = pageNum * PAGE_SIZE ->
  exists fd',
    flushPager pager pageNum size
    = Ok {| fd := fd'; fLen := fLen pager; pages := pages pager |} /\
    contents fd' = contents (fd pager) ++ take (Z.to_nat size) b.
Proof.
  intros Hb Hp Hend. unfold flushPager, slot. rewrite Hb. cbn [bind].
  cbn [lseek_set].
  rewrite uint32_small by (consts; lia).
  destruct (Z.eqb_spec (pageNum * PAGE_SIZE) (-1)); [consts; lia |].
  destruct (write_contents
              {| contents := contents (fd pager); pos := pageNum * PAGE_SIZE |}
              b size) as (fd' & Hw & Hnil & Hcons).
  rewrite Hw.
  destruct (Z.eqb_spec (Z.of_nat (length (take (Z.to_nat size) b))) (-1));
    [lia |].
  exists fd'. split; [reflexivity |].
  destruct (take (Z.to_nat size) b) as [| c data] eqn:Hdata.
  - rewrite Hnil by reflexivity. cbn [contents]. rewrite app_nil_r.
    reflexivity.
  - rewrite Hcons by discriminate. cbn [contents pos].
    replace (Z.to_nat (pageNum * PAGE_SIZE))
      with (length (contents (fd pager))) by lia.
    rewrite Nat.sub_diag. cbn [replicate]. rewrite app_nil_r.
    rewrite firstn_all, drop_ge by lia. rewrite app_nil_r. reflexivity.
Qed.

Lemma flushFullPages_append n :
  forall (j : nat) pager,
    Z.of_nat (length (pages pager)) = TABLE_MAX_PAGES ->
    Z.of_nat (j + n) <= TABLE_MAX_PAGES ->
    (forall i, (j <= i < j + n)%nat ->
       exists b, pages pager !! i = Some (Some b) /\
                 Z.of_nat (length b) = PAGE_SIZE) ->
    Z.of_nat (length (contents (fd pager))) = Z.of_nat j * PAGE_SIZE ->
    exists pager',
      flushFullPages n (Z.of_nat j) pager = Ok pager' /\
      contents (fd pager')
      = contents (fd pager)
          ++ concat (slot_bytes <$> take n (drop j (pages pager))) /\
      drop (j + n) (pages pager') = drop (j + n) (pages pager).
Proof.
  induction n as [| n IH]; intros j pager Hlen Hjn Hres Hend.
  - exists pager. cbn. rewrite app_nil_r, Nat.add_0_r. auto.
  - destruct (Hres j ltac:(lia)) as (b & Hb & Hbl).
    destruct (flushPager_append pager (Z.of_nat j) b PAGE_SIZE)
      as (fd' & Hfl & Hc); [rewrite Nat2Z.id; exact Hb | lia | exact Hend |].
    cbn [flushFullPages]. unfold slot at 1. rewrite Nat2Z.id, Hb.
    cbn [bind]. rewrite Hfl. cbn [bind].
    rewrite uint32_small by (consts; lia).
    replace (Z.of_nat j + 1) with (Z.of_nat (S j)) by lia.
    rewrite (take_ge b) in Hc by lia.
    destruct (IH (S j) (set_slot {| fd := fd'; fLen := fLen pager;
                                    pages := pages pager |} (Z.of_nat j) None))
      as (pager' & Hrun & Hc' & Hd').
    + cbn [set_slot pages]. rewrite length_insert. exact Hlen.
    + lia.
    + intros i Hi. cbn [set_slot pages].
      rewrite Nat2Z.id, list_lookup_insert_ne by lia. apply Hres. lia.
    + cbn [set_slot fd contents]. rewrite Hc, length_app. lia.
    + exists pager'. split; [exact Hrun |].
      cbn [set_slot fd pages] in Hc', Hd'. rewrite Nat2Z.id in Hc', Hd'.
      rewrite drop_insert_lt in Hc' by lia.
      rewrite drop_insert_lt in Hd' by lia.
      split.
      * rewrite Hc', Hc, (drop_S _ _ _ Hb). cbn [take fmap list_fmap concat].
        rewrite <- !app_assoc. reflexivity.
      * replace (j + S n)%nat with (S j + n)%nat by lia. exact Hd'.
Qed.

Section Close.

Variables (table : Table) (rows : list Row).
Hypothesis table_struct : struct_Pager (pager table).
Hypothesis table_stores : stores table rows.
Hypothesis rows_fit : Z.of_nat (length rows) <= TABLE_MAX_ROWS.

(** Every page that holds a row is resident, in a [PAGE_SIZE] buffer. *)
Lemma stores_resident (q : nat) :
  (q * 13 < length rows)%nat ->
  exists b, pages (pager table) !! q = Some (Some b) /\
            Z.of_nat (length b) = PAGE_SIZE.
Proof.
  intros Hq. destruct table_stores as [_ Hrows].
  destruct (lookup_lt_is_Some_2 rows (q * 13) Hq) as [r Hr].
  destruct (Hrows _ _ Hr) as (b & Hb & _). consts.
  replace (Z.to_nat (Z.of_nat (q * 13) / 13)) with q in Hb.
  - exists b. split; [exact Hb |]. destruct table_struct as [_ Hbuf].
    eapply Hbuf, Hb.
  - rewrite Nat2Z.inj_mul, Z.div_mul by lia. lia.
Qed.

Lemma full_pages_blocks :
  Forall (fun x => length x = Z.to_nat PAGE_SIZE)
    (slot_bytes <$> take (Z.to_nat (numRows table / ROWS_PER_PAGE))
                      (pages (pager table))).
Proof.
  destruct table_stores as [Hn _]. consts.
  apply Forall_fmap, Forall_lookup. intros i s Hs.
  apply lookup_take_Some in Hs as [Hs Hi].
  divmod (numRows table).
  destruct (stores_resident i ltac:(lia)) as (b & Hb & Hl).
  assert (s = Some b) by congruence. subst s. cbn. consts. lia.
Qed.

Lemma closeDatabase_image :
  contents (fd (pager table)) = [] ->
  closeDatabase table
  = Ok (file_image (pages (pager table)) (numRows table)).
Proof.
  intros Hempty. pose proof table_struct as [Hlen Hbuf].
  pose proof table_stores as [Hn _].
  pose proof full_pages_blocks as Hblocks.
  unfold closeDatabase, file_image. consts. divmod (numRows table).
  set (p := numRows table / 13) in *. set (a := numRows table mod 13) in *.
  destruct (flushFullPages_append (Z.to_nat p) 0 (pager table))
    as (pg & Hrun & Hc & Hd).
  - exact Hlen.
  - consts. lia.
  - intros i Hi. apply stores_resident. lia.
  - rewrite Hempty. reflexivity.
  - change (Z.of_nat 0) with 0 in Hrun. rewrite Hrun. cbn [bind].
    rewrite Hempty, drop_0 in Hc. cbn [app] in Hc. cbn [Nat.add] in Hd.
    destruct (Z.ltb_spec 0 a) as [Hpos | Hzero].
    + destruct (stores_resident (Z.to_nat p) ltac:(lia)) as (b & Hb & Hl).
      assert (Hb' : pages pg !! Z.to_nat p = Some (Some b)).
      { rewrite <- (Nat.add_0_r (Z.to_nat p)), <- lookup_drop, Hd,
          lookup_drop, Nat.add_0_r. exact Hb. }
      destruct (flushPager_append pg p b (uint32 (a * 293)))
        as (fd' & Hfl & Hc'); [exact Hb' | consts; lia | |].
      { rewrite Hc, (length_concat_blocks _ _ Hblocks), length_fmap,
          length_take.
        consts. lia. }
      unfold slot. rewrite Hb'. cbn [bind]. rewrite Hfl. cbn [bind].
      cbn [set_slot fd close]. cbn [Z.eqb].
      rewrite Hc', Hc, Hb. reflexivity.
    + cbn [bind close]. cbn [Z.eqb]. rewrite Hc.
      replace a with 0 by lia. cbn [Z.mul]. cbn. rewrite app_nil_r.
      reflexivity.
Qed.

(** The layout of the file: its length, and where each row is. *)
Lemma file_image_layout :
  let n := numRows table in
  let file := file_image (pages (pager table)) n in
  Z.of_nat (length file)
  = n / ROWS_PER_PAGE * PAGE_SIZE + n mod ROWS_PER_PAGE * ROW_SIZE /\
  forall (i : nat) r,
    rows !! i = Some r ->
    bytes_at file (Z.of_nat i / ROWS_PER_PAGE * PAGE_SIZE
                   + Z.of_nat i mod ROWS_PER_PAGE * ROW_SIZE) ROW_SIZE
    = record r.
Proof.
  intros n file. subst n file.
  pose proof table_struct as [Hlen Hbuf].
  pose proof table_stores as [Hn Hrows].
  pose proof full_pages_blocks as Hblocks.
  unfold file_image. consts. divmod (numRows table).
  set (p := numRows table / 13) in *. set (a := numRows table mod 13) in *.
  rewrite uint32_small by lia.
  set (bl := slot_bytes <$> take (Z.to_nat p) (pages (pager table))) in *.
  assert (Hbl : length bl = Z.to_nat p).
  { subst bl. rewrite length_fmap, length_take. lia. }
  assert (Htail : forall b, pages (pager table) !! Z.to_nat p = Some (Some b) ->
            slot_bytes (default None (pages (pager table) !! Z.to_nat p)) = b).
  { intros b Hb. rewrite Hb. reflexivity. }
  split.
  - rewrite length_app, (length_concat_blocks _ _ Hblocks), Hbl, length_take.
    destruct (decide (a = 0)) as [-> | Hpos].
    + cbn. consts. lia.
    + destruct (stores_resident (Z.to_nat p) ltac:(lia)) as (b & Hb & Hl).
      rewrite (Htail b Hb). consts. lia.
  - intros i r Hr. apply lookup_lt_Some in Hr as Hi.
    destruct (Hrows i r Hr) as (b & Hb & Hbytes). consts.
    divmod (Z.of_nat i).
    set (q := Z.of_nat i / 13) in *. set (c := Z.of_nat i mod 13) in *.
    rewrite <- Hbytes. unfold bytes_at.
    destruct (decide (q = p)) as [-> | Hne].
    + replace (Z.to_nat (p * 4096 + c * 293))
        with (length bl * Z.to_nat 4096 + Z.to_nat (c * 293))%nat by lia.
      rewrite (concat_blocks_tail _ _ _ _ Hblocks).
      rewrite (Htail b Hb).
      rewrite <- (drop_0 b) at 1.
      rewrite slice_slice by lia. reflexivity.
    + replace (Z.to_nat (q * 4096 + c * 293))
        with (Z.to_nat q * Z.to_nat 4096 + Z.to_nat (c * 293))%nat by lia.
      apply (concat_blocks_at _ _ _ Hblocks).
      * subst bl. rewrite list_lookup_fmap, lookup_take_lt by lia.
        rewrite Hb. reflexivity.
      * lia.
Qed.

End Close.

(** ** Whole sessions *)

Lemma junk_size n : Z.of_nat (length (junk n)) = PAGE_SIZE.
Proof. reflexivity. Qed.

Lemma sample_row_valid i : 0 <= i < 2 ^ 32 -> valid_row (sample_row i).
Proof.
  intros Hi. unfold valid_row, struct_Row. cbn [sample_row id username email].
  repeat split; try lia; vm_compute; congruence.
Qed.

Lemma sample_rows_valid n :
  Z.of_nat n < 2 ^ 32 -> Forall valid_row (sample_rows n).
Proof.
  intros Hn. unfold sample_rows. apply Forall_fmap, Forall_forall.
  intros k Hk. apply elem_of_seq in Hk. apply sample_row_valid. lia.
Qed.

Lemma valid_rows_struct rows : Forall valid_row rows -> Forall struct_Row rows.
Proof. intros H. eapply Forall_impl; [exact H |]. intros r Hr. apply Hr. Qed.

(** C2, as the code has it. After [N] inserts into a store opened on an
    empty file ([N > 0], not a multiple of [rows_per_page]) and a close,
    the file is [N / rows_per_page] whole pages of [PAGE_SIZE] bytes
    followed by the [N % rows_per_page] records of the last page: its
    length is [(N / rows_per_page) * PAGE_SIZE + (N % rows_per_page) *
    row_stride], which is [N * row_stride] when [N < rows_per_page]; the
    record of row [i] is at offset [(i / rows_per_page) * PAGE_SIZE +
    (i % rows_per_page) * row_stride], row 0 at offset 0, and the file
    ends with the last record. *)
Theorem close_file_layout (malloc : Z -> page) (rows : list Row) :
  (forall n, Z.of_nat (length (malloc n)) = PAGE_SIZE) ->
  0 < Z.of_nat (length rows) <= TABLE_MAX_ROWS ->
  Z.of_nat (length rows) mod ROWS_PER_PAGE <> 0 ->
  Forall valid_row rows ->
  let n := Z.of_nat (length rows) in
  exists file,
    session malloc rows [] = Ok file /\
    Z.of_nat (length file)
    = n / ROWS_PER_PAGE * PAGE_SIZE + n mod ROWS_PER_PAGE * ROW_SIZE /\
    (n < ROWS_PER_PAGE -> Z.of_nat (length file) = n * ROW_SIZE) /\
    (forall (i : nat) r,
        rows !! i = Some r ->
        bytes_at file (Z.of_nat i / ROWS_PER_PAGE * PAGE_SIZE
                       + Z.of_nat i mod ROWS_PER_PAGE * ROW_SIZE) ROW_SIZE
        = encode r) /\
    Z.of_nat (length file)
    = (n - 1) / ROWS_PER_PAGE * PAGE_SIZE
      + (n - 1) mod ROWS_PER_PAGE * ROW_SIZE + ROW_SIZE.
Proof.
  intros Hm Hn Hpart Hvalid n.
  pose proof (valid_rows_struct rows Hvalid) as Hall.
  destruct openDatabase_empty as (Hs0 & Hst0 & Hc0).
  destruct (insertRows_stores malloc Hm rows (openDatabase []) [] Hs0 Hst0
              ltac:(cbn [length]; lia) Hall)
    as (table & Hins & Hs & Hst & Hc & _).
  cbn [app] in Hst. rewrite Hc0 in Hc.
  pose proof (closeDatabase_image table rows Hs Hst ltac:(lia) Hc) as Hclose.
  destruct (file_image_layout table rows Hs Hst ltac:(lia)) as [Hlen Hrows].
  assert (Hnum : numRows table = n) by apply Hst.
  rewrite Hnum in *.
  exists (file_image (pages (pager table)) n).
  split; [unfold session; rewrite Hins; exact Hclose |].
  split; [exact Hlen |].
  consts. change (Z.of_nat (length rows)) with n in Hn, Hpart.
  clearbody n. divmod n. divmod (n - 1).
  split; [| split].
  - intros Hsmall. rewrite Hlen. consts. lia.
  - intros i r Hr. rewrite encode_record.
    + apply Hrows. exact Hr.
    + eapply Forall_lookup_1; eauto.
  - rewrite Hlen. lia.
Qed.

(** The row count a reopened store computes from the file a close left:
    right up to 25 rows, too large from 26 rows on, whatever the rows. *)
Lemma reopen_row_count (malloc : Z -> page) (rows : list Row) :
  (forall n, Z.of_nat (length (malloc n)) = PAGE_SIZE) ->
  Z.of_nat (length rows) <= TABLE_MAX_ROWS ->
  Forall struct_Row rows ->
  let n := Z.of_nat (length rows) in
  exists file,
    session malloc rows [] = Ok file /\
    (n <= 25 -> numRows (openDatabase file) = n) /\
    (26 <= n -> n < numRows (openDatabase file)).
Proof.
  intros Hm Hn Hall n.
  destruct openDatabase_empty as (Hs0 & Hst0 & Hc0).
  destruct (insertRows_stores malloc Hm rows (openDatabase []) [] Hs0 Hst0
              ltac:(cbn [length]; lia) Hall)
    as (table & Hins & Hs & Hst & Hc & _).
  cbn [app] in Hst. rewrite Hc0 in Hc.
  pose proof (closeDatabase_image table rows Hs Hst ltac:(lia) Hc) as Hclose.
  destruct (file_image_layout table rows Hs Hst ltac:(lia)) as [Hlen _].
  assert (Hnum : numRows table = n) by apply Hst.
  rewrite Hnum in *.
  exists (file_image (pages (pager table)) n).
  split; [unfold session; rewrite Hins; exact Hclose |].
  unfold openDatabase, openPager.
  cbn [lseek_end open contents numRows pager fLen].
  rewrite Hlen. consts. change (Z.of_nat (length rows)) with n in Hn.
  clearbody n. divmod n.
  rewrite uint32_small by lia.
  pose proof (Z.div_mod (n / 13 * 4096 + n mod 13 * 293) 293 ltac:(lia)).
  pose proof (Z.mod_pos_bound (n / 13 * 4096 + n mod 13 * 293) 293
                ltac:(lia)).
  split; intros Hcase; lia.
Qed.

(** C2 fails as stated: after 14 inserts and a close the file is 4389
    bytes long, not [14 * row_stride = 4102]; row 13 is at offset 4096,
    after the 287 padding bytes that end page 0, not at offset
    [13 * row_stride]. *)
Lemma close_14_rows_not_flat :
  match session junk (sample_rows 14) [] with
  | Ok file =>
      Z.of_nat (length file) = 4389 /\
      Z.of_nat (length file) <> 14 * ROW_SIZE /\
      bytes_at file 4096 ROW_SIZE = encode (sample_row 14) /\
      bytes_at file (13 * ROW_SIZE) ROW_SIZE <> encode (sample_row 14) /\
      file <> concat (encode <$> sample_rows 14)
  | _ => False
  end.
Proof.
  vm_compute. repeat split; intros H; discriminate H.
Qed.

(** C1 at 26 rows: the close writes two whole pages, 8192 bytes, and the
    reopened table counts [8192 / 293 = 27] rows; its select hands out 27
    rows, the 26 inserted ones and one more decoded from a page that was
    never written. *)
Theorem reopen_after_26_rows :
  match session junk (sample_rows 26) [] with
  | Ok file =>
      Z.of_nat (length file) = 8192 /\
      numRows (openDatabase file) = 27 /\
      match executeSelectStatement junk (openDatabase file) with
      | Ok (_, out, _) =>
          length out = 27%nat /\
          take 26 out = sample_rows 26 /\
          out <> sample_rows 26
      | _ => False
      end
  | _ => False
  end.
Proof.
  vm_compute. repeat split; intros H; discriminate H.
Qed.

(** C4 fails as stated: on an empty file nothing is read for page 0, and
    the buffer [getPage] returns is the block as [malloc] left it, here
    full of [0xff]. *)
Lemma getPage_buffer_not_zeroed :
  slot (openPager []) 0 = Ok None /\
  loaded (openPager []) 0 = [] /\
  match getPage junk (openPager []) 0 with
  | Ok (buf, _) =>
      buf !! 0%nat = Some Byte.xff /\
      buf <> replicate (Z.to_nat PAGE_SIZE) NUL
  | _ => False
  end.
Proof.
  vm_compute. repeat split; intros H; discriminate H.
Qed.

(** ** The theorems at sample inputs *)

(** Codec round trip (C6) on the row with id 7. *)
Lemma codec_round_trip_witness :
  valid_row (sample_row 7) /\ decode (encode (sample_row 7)) = sample_row 7.
Proof.
  assert (H : valid_row (sample_row 7)) by (apply sample_row_valid; lia).
  split; [exact H |].
  exact (proj1 (codec_round_trip (sample_row 7) H)).
Defined.

(** Addressing (C7) at row 13: the pointer [rowSlot] returns for it on a
    freshly opened table is into page 1 at offset 0. *)
Lemma row_address_injective_witness :
  0 <= 13 /\
  fst (row_address 13) * ROWS_PER_PAGE + snd (row_address 13) / ROW_SIZE = 13 /\
  exists table',
    rowSlot junk (openDatabase []) 13
    = Ok ({| in_page := 1; at_byte := 0 |}, table').
Proof.
  assert (H : 0 <= 13) by lia.
  split; [exact H |].
  split; [exact (proj1 (proj2 (row_address_injective 13 H))) |].
  exact (proj1 (proj2 (proj2 (proj2 (proj2 (row_address_injective 13 H)))))
           ltac:(change (13 < 1300); lia) junk (openDatabase [])
           (openPager_struct [])).
Defined.

(** The miss buffer (C4) for page 0 of an empty file. *)
Lemma getPage_miss_buffer_witness :
  Z.of_nat (length (junk 0)) = PAGE_SIZE /\
  0 <= 0 < TABLE_MAX_PAGES /\
  slot (openPager []) 0 = Ok None /\
  exists buf pager',
    getPage junk (openPager []) 0 = Ok (buf, pager') /\
    buf = junk 0.
Proof.
  assert (H1 : Z.of_nat (length (junk 0)) = PAGE_SIZE) by reflexivity.
  assert (H2 : 0 <= 0 < TABLE_MAX_PAGES) by (change (0 <= 0 < 100); lia).
  assert (H3 : slot (openPager []) 0 = Ok None) by reflexivity.
  split; [exact H1 |]. split; [exact H2 |]. split; [exact H3 |].
  destruct (getPage_miss_buffer junk (openPager []) 0 H1 H2 H3)
    as (buf & pager' & Hg & _ & _ & _ & _ & Hout).
  exists buf, pager'. split; [exact Hg |].
  apply Hout. cbn. lia.
Defined.

(** Order preservation (C8) for three rows. *)
Lemma select_after_inserts_witness :
  (forall n, Z.of_nat (length (junk n)) = PAGE_SIZE) /\
  Z.of_nat (length (sample_rows 3)) <= TABLE_MAX_ROWS /\
  Forall valid_row (sample_rows 3) /\
  exists table,
    insertRows junk (sample_rows 3) (openDatabase [])
    = Ok (replicate 3 EXECUTE_SUCCESS, table) /\
    executeSelectStatement junk table
    = Ok (EXECUTE_SUCCESS, sample_rows 3, table).
Proof.
  assert (H2 : Z.of_nat (length (sample_rows 3)) <= TABLE_MAX_ROWS)
    by (vm_compute; discriminate).
  assert (H3 : Forall valid_row (sample_rows 3))
    by (apply sample_rows_valid; lia).
  split; [exact junk_size |]. split; [exact H2 |]. split; [exact H3 |].
  destruct (select_after_inserts junk (sample_rows 3) junk_size H2 H3)
    as (table & Hins & _ & Hsel).
  exists table. split; [exact Hins | exact Hsel].
Defined.

(** Capacity (C5): 1300 rows go in, the next insert is refused. *)
Lemma insert_at_capacity_witness :
  (forall n, Z.of_nat (length (junk n)) = PAGE_SIZE) /\
  Z.of_nat (length (sample_rows 1300)) = TABLE_MAX_ROWS /\
  Forall struct_Row (sample_rows 1300) /\
  exists table,
    insertRows junk (sample_rows 1300) (openDatabase [])
    = Ok (replicate 1300 EXECUTE_SUCCESS, table) /\
    numRows table = TABLE_MAX_ROWS /\
    executeInsertStatement junk (sample_row 1301) table
    = Ok (EXECUTE_TABLE_FULL, table).
Proof.
  assert (H2 : Z.of_nat (length (sample_rows 1300)) = TABLE_MAX_ROWS)
    by (vm_compute; reflexivity).
  assert (H3 : Forall struct_Row (sample_rows 1300))
    by (apply valid_rows_struct, sample_rows_valid; lia).
  split; [exact junk_size |]. split; [exact H2 |]. split; [exact H3 |].
  destruct (insert_at_capacity junk (sample_rows 1300) (sample_row 1301)
              junk_size H2 H3) as (_ & (table & Hins & Hn & Hfull) & _).
  exists table. split; [exact Hins |]. split; [exact Hn | exact Hfull].
Defined.

(** The frame of an insert (C9) for the first row of an empty table. *)
Lemma insert_frame_witness :
  (forall n, Z.of_nat (length (junk n)) = PAGE_SIZE) /\
  struct_Pager (pager (openDatabase [])) /\
  0 <= numRows (openDatabase []) < TABLE_MAX_ROWS /\
  struct_Row (sample_row 1) /\
  exists table',
    executeInsertStatement junk (sample_row 1) (openDatabase [])
    = Ok (EXECUTE_SUCCESS, table') /\
    numRows table' = numRows (openDatabase []) + 1.
Proof.
  assert (H2 : struct_Pager (pager (openDatabase [])))
    by apply openPager_struct.
  assert (H3 : 0 <= numRows (openDatabase []) < TABLE_MAX_ROWS)
    by (vm_compute; split; congruence).
  assert (H4 : struct_Row (sample_row 1))
    by (apply sample_row_valid; lia).
  split; [exact junk_size |]. split; [exact H2 |]. split; [exact H3 |].
  split; [exact H4 |].
  destruct (insert_frame junk (openDatabase []) (sample_row 1)
              junk_size H2 H3 H4)
    as (buf & pg & buf' & table' & _ & _ & Hx & Hn & _).
  exists table'. split; [exact Hx | exact Hn].
Defined.

(** In-bounds page access (C10) on an empty table. *)
Lemma page_access_in_bounds_witness :
  (forall n, Z.of_nat (length (junk n)) = PAGE_SIZE) /\
  struct_Pager (pager (openDatabase [])) /\
  0 <= numRows (openDatabase []) <= TABLE_MAX_ROWS /\
  in_bounds (executeInsertStatement junk (sample_row 1) (openDatabase [])) /\
  in_bounds (executeSelectStatement junk (openDatabase [])).
Proof.
  assert (H2 : struct_Pager (pager (openDatabase [])))
    by apply openPager_struct.
  assert (H3 : 0 <= numRows (openDatabase []) <= TABLE_MAX_ROWS)
    by (vm_compute; split; congruence).
  split; [exact junk_size |]. split; [exact H2 |]. split; [exact H3 |].
  exact (proj2 (proj2 (proj2
           (page_access_in_bounds junk (openDatabase []) (sample_row 1)
              junk_size H2 H3)))).
Defined.

(** The file layout (C2) after 14 rows. *)
Lemma close_file_layout_witness :
  (forall n, Z.of_nat (length (junk n)) = PAGE_SIZE) /\
  0 < Z.of_nat (length (sample_rows 14)) <= TABLE_MAX_ROWS /\
  Z.of_nat (length (sample_rows 14)) mod ROWS_PER_PAGE <> 0 /\
  Forall valid_row (sample_rows 14) /\
  exists file,
    session junk (sample_rows 14) [] = Ok file /\
    Z.of_nat (length file)
    = Z.of_nat (length (sample_rows 14)) / ROWS_PER_PAGE * PAGE_SIZE
      + Z.of_nat (length (sample_rows 14)) mod ROWS_PER_PAGE * ROW_SIZE.
Proof.
  assert (H2 : 0 < Z.of_nat (length (sample_rows 14)) <= TABLE_MAX_ROWS)
    by (vm_compute; split; congruence).
  assert (H3 : Z.of_nat (length (sample_rows 14)) mod ROWS_PER_PAGE <> 0)
    by (vm_compute; congruence).
  assert (H4 : Forall valid_row (sample_rows 14))
    by (apply sample_rows_valid; lia).
  split; [exact junk_size |]. split; [exact H2 |]. split; [exact H3 |].
  split; [exact H4 |].
  destruct (close_file_layout junk (sample_rows 14) junk_size H2 H3 H4)
    as (file & Hrun & Hlen & _).
  exists file. split; [exact Hrun | exact Hlen].
Defined.

(** * Further properties of the pager and the table *)

Lemma row_numbers_S i n : row_numbers i (S n) = i :: row_numbers (i + 1) n.
Proof.
  unfold row_numbers. cbn [seq fmap list_fmap]. f_equal; [lia |].
  rewrite <- seq_shift, <- list_fmap_compose.
  apply list_fmap_ext. intros idx k Hk. cbn. lia.
Qed.

Section Views.

Variable malloc : Z -> page.
Hypothesis malloc_size : forall n, Z.of_nat (length (malloc n)) = PAGE_SIZE.

Lemma getPage_view pager q :
  struct_Pager pager -> 0 <= q < TABLE_MAX_PAGES ->
  exists pager',
    getPage malloc pager q = Ok (page_view malloc pager q, pager') /\
    struct_Pager pager' /\
    pages pager' = <[Z.to_nat q := Some (page_view malloc pager q)]> (pages pager) /\
    contents (fd pager') = contents (fd pager) /\
    fLen pager' = fLen pager.
Proof.
  intros Hs Hq.
  destruct (getPage_in_bounds malloc malloc_size pager q Hs Hq)
    as (buf & pager' & Hg & Hs' & Hp & _ & Hc & Hf & Hhit).
  assert (Hbuf : buf = page_view malloc pager q).
  { unfold page_view.
    destruct (slot_in_bounds pager q Hs Hq) as ([b |] & Hl & _); rewrite Hl.
    - apply Hhit. exact Hl.
    - destruct (getPage_miss malloc pager q ltac:(lia) Hl) as (fd' & Hg' & _).
      cbv zeta in Hg'. congruence. }
  subst buf. exists pager'. auto.
Qed.

Lemma page_view_kept pager pager' q :
  struct_Pager pager -> 0 <= q < TABLE_MAX_PAGES ->
  pages pager' = <[Z.to_nat q := Some (page_view malloc pager q)]> (pages pager) ->
  contents (fd pager') = contents (fd pager) ->
  fLen pager' = fLen pager ->
  forall q', 0 <= q' -> page_view malloc pager' q' = page_view malloc pager q'.
Proof.
  intros [Hl _] Hq Hp Hc Hf q' Hq'. unfold page_view at 1. rewrite Hp.
  destruct (decide (q' = q)) as [-> | Hne].
  - rewrite list_lookup_insert_eq by lia. reflexivity.
  - rewrite list_lookup_insert_ne by lia.
    unfold page_view, loaded, numPages. rewrite Hc, Hf. reflexivity.
Qed.

(** A select of rows [i .. i + n - 1], all below [TABLE_MAX_ROWS]. *)
Lemma selectRows_view n :
  forall i table out,
    struct_Pager (pager table) -> 0 <= i ->
    i + Z.of_nat n <= TABLE_MAX_ROWS ->
    exists table',
      selectRows malloc n i table out
      = Ok (out ++ (row_view malloc (pager table) <$> row_numbers i n), table') /\
      struct_Pager (pager table') /\
      numRows table' = numRows table /\
      contents (fd (pager table')) = contents (fd (pager table)) /\
      fLen (pager table') = fLen (pager table) /\
      (forall q, 0 <= q ->
         page_view malloc (pager table') q = page_view malloc (pager table) q) /\
      (forall q b, pages (pager table) !! q = Some (Some b) ->
         pages (pager table') !! q = Some (Some b)) /\
      (forall j, i <= j < i + Z.of_nat n ->
         pages (pager table') !! Z.to_nat (j / ROWS_PER_PAGE)
         = Some (Some (page_view malloc (pager table) (j / ROWS_PER_PAGE)))).
Proof.
  induction n as [| n IH]; intros i table out Hs Hi Hn.
  - exists table. cbn. rewrite app_nil_r.
    repeat (split; [solve [auto] |]). intros j Hj. lia.
  - destruct (row_page_in_bounds i ltac:(lia)) as (Hpn & Hlo & Hhi).
    destruct (getPage_view (pager table) (i / ROWS_PER_PAGE) Hs Hpn)
      as (pg & Hg & Hs1 & Hp1 & Hc1 & Hf1).
    pose proof (page_view_kept (pager table) pg _ Hs Hpn Hp1 Hc1 Hf1) as Hv1.
    cbn [selectRows]. unfold rowSlot. rewrite Hg. cbn [bind pager at_byte].
    rewrite !uint32_small by (consts; lia).
    set (t1 := {| numRows := numRows table; pager := pg |}).
    destruct (IH (i + 1) t1
                (out ++ [deserializeRow
                           (buffer pg {| in_page := i / ROWS_PER_PAGE;
                                         at_byte := i mod ROWS_PER_PAGE * ROW_SIZE |})
                           (i mod ROWS_PER_PAGE * ROW_SIZE)]))
      as (t' & Hrun & Hs' & Hn' & Hc' & Hf' & Hv' & Hkeep & Hres);
      [exact Hs1 | lia | lia |].
    exists t'. rewrite Hrun. subst t1. cbn [pager numRows] in *.
    assert (Hbuf : buffer pg {| in_page := i / ROWS_PER_PAGE;
                               at_byte := i mod ROWS_PER_PAGE * ROW_SIZE |}
                   = page_view malloc (pager table) (i / ROWS_PER_PAGE)).
    { apply (rowSlot_buffer table i _ pg Hs ltac:(lia) Hp1). }
    assert (Hhere : pages pg !! Z.to_nat (i / ROWS_PER_PAGE)
                    = Some (Some (page_view malloc (pager table) (i / ROWS_PER_PAGE)))).
    { rewrite Hp1. apply list_lookup_insert_eq. destruct Hs as [Hl _]. lia. }
    split.
    { rewrite row_numbers_S, Hbuf, <- app_assoc. cbn [fmap list_fmap app].
      do 3 f_equal. fold (row_view malloc (pager table) i). f_equal.
      apply list_fmap_ext. intros idx k Hk. unfold row_view.
      apply list_elem_of_lookup_2 in Hk. unfold row_numbers in Hk.
      apply list_elem_of_fmap in Hk as (m & -> & _).
      rewrite Hv1; [reflexivity |]. consts.
      apply Z.div_pos; lia. }
    split; [exact Hs' |]. split; [exact Hn' |].
    split; [congruence |]. split; [congruence |].
    split; [| split].
    + intros q Hq. rewrite Hv' by exact Hq. apply Hv1. exact Hq.
    + intros q b Hb. apply Hkeep. rewrite Hp1.
      destruct (decide (q = Z.to_nat (i / ROWS_PER_PAGE))) as [-> | Hne].
      * unfold page_view. rewrite Hb. apply list_lookup_insert_eq.
        destruct Hs as [Hl _]. lia.
      * rewrite list_lookup_insert_ne by auto. exact Hb.
    + intros j Hj. destruct (decide (j = i)) as [-> | Hne].
      * apply Hkeep. exact Hhere.
      * rewrite (Hres j ltac:(lia)). rewrite Hv1; [reflexivity |].
        consts. apply Z.div_pos; lia.
Qed.

End Views.

Lemma row_numbers_snoc i n :
  row_numbers i (S n) = row_numbers i n ++ [i + Z.of_nat n].
Proof.
  unfold row_numbers. rewrite seq_S, fmap_app. reflexivity.
Qed.

Lemma length_row_numbers i n : length (row_numbers i n) = n.
Proof. unfold row_numbers. rewrite length_fmap. apply length_seq. Qed.

Lemma lookup_row_numbers i n k :
  (k < n)%nat -> row_numbers i n !! k = Some (i + Z.of_nat k).
Proof.
  intros Hk. unfold row_numbers. rewrite list_lookup_fmap.
  rewrite lookup_seq_lt by exact Hk. reflexivity.
Qed.


Section Selects.

Variable malloc : Z -> page.
Hypothesis malloc_size : forall n, Z.of_nat (length (malloc n)) = PAGE_SIZE.

(** A select that finds all its pages resident leaves the table alone. *)
Lemma selectRows_hits n :
  forall i table out,
    struct_Pager (pager table) -> 0 <= i ->
    i + Z.of_nat n <= TABLE_MAX_ROWS ->
    (forall j, i <= j < i + Z.of_nat n ->
       exists b, pages (pager table) !! Z.to_nat (j / ROWS_PER_PAGE)
                 = Some (Some b)) ->
    selectRows malloc n i table out
    = Ok (out ++ (row_view malloc (pager table) <$> row_numbers i n), table).
Proof.
  induction n as [| n IH]; intros i table out Hs Hi Hn Hres.
  - cbn. rewrite app_nil_r. reflexivity.
  - destruct (row_page_in_bounds i ltac:(lia)) as (Hpn & Hlo & Hhi).
    destruct (Hres i ltac:(lia)) as (b & Hb).
    destruct table as [nr pg]. cbn [pager] in *.
    cbn [selectRows]. unfold rowSlot. cbn [pager numRows].
    rewrite (getPage_hit malloc pg _ b) by (auto; lia).
    cbn [bind pager at_byte]. rewrite !uint32_small by (consts; lia).
    rewrite IH; [| exact Hs | lia | lia | intros j Hj; apply Hres; lia].
    rewrite row_numbers_S, <- app_assoc. cbn [fmap list_fmap app pager].
    do 4 f_equal. unfold row_view, page_view, buffer. cbn [in_page].
    rewrite Hb. reflexivity.
Qed.

Lemma executeSelectStatement_view table :
  struct_Pager (pager table) -> 0 <= numRows table <= TABLE_MAX_ROWS ->
  exists table',
    executeSelectStatement malloc table
    = Ok (EXECUTE_SUCCESS,
          row_view malloc (pager table)
            <$> row_numbers 0 (Z.to_nat (numRows table)), table') /\
    executeSelectStatement malloc table'
    = Ok (EXECUTE_SUCCESS,
          row_view malloc (pager table)
            <$> row_numbers 0 (Z.to_nat (numRows table)), table') /\
    struct_Pager (pager table') /\
    numRows table' = numRows table /\
    contents (fd (pager table')) = contents (fd (pager table)) /\
    fLen (pager table') = fLen (pager table) /\
    (forall q, 0 <= q ->
       page_view malloc (pager table') q = page_view malloc (pager table) q).
Proof.
  intros Hs Hn.
  destruct (selectRows_view malloc malloc_size (Z.to_nat (numRows table)) 0
              table [] Hs ltac:(lia) ltac:(lia))
    as (t' & Hrun & Hs' & Hn' & Hc' & Hf' & Hv' & _ & Hres).
  exists t'. unfold executeSelectStatement. rewrite Hrun. cbn [bind app].
  split; [reflexivity |].
  split; [| auto 10].
  rewrite Hn'.
  rewrite (selectRows_hits (Z.to_nat (numRows table)) 0 t' [] Hs'
             ltac:(lia) ltac:(lia)).
  - cbn [bind app]. do 3 f_equal.
    apply list_fmap_ext. intros idx k Hk. unfold row_view.
    apply list_elem_of_lookup_2, list_elem_of_fmap in Hk as (m & -> & _).
    rewrite Hv'; [reflexivity |]. consts. apply Z.div_pos; lia.
  - intros j Hj. eexists. apply Hres. exact Hj.
Qed.

End Selects.

Section InsertViews.

Variable malloc : Z -> page.
Hypothesis malloc_size : forall n, Z.of_nat (length (malloc n)) = PAGE_SIZE.

(** What a select sees after an insert: the rows it saw before, then the
    new row. *)
Lemma executeInsertStatement_view r table :
  struct_Pager (pager table) -> 0 <= numRows table < TABLE_MAX_ROWS ->
  struct_Row r ->
  exists table',
    executeInsertStatement malloc r table = Ok (EXECUTE_SUCCESS, table') /\
    struct_Pager (pager table') /\
    numRows table' = numRows table + 1 /\
    contents (fd (pager table')) = contents (fd (pager table)) /\
    (forall i, 0 <= i < numRows table ->
       row_view malloc (pager table') i = row_view malloc (pager table) i) /\
    row_view malloc (pager table') (numRows table) = r.
Proof.
  intros Hs Hn Hr.
  destruct (executeInsertStatement_effect malloc malloc_size r table Hs Hn Hr)
    as (buf & pager' & Hg & Hlen & Hc & Hf & Hhit & Hx).
  cbv zeta in Hx.
  pose proof (length_record r Hr) as Hrec.
  destruct (row_page_in_bounds (numRows table) Hn) as (Hpn & Hlo & Hhi).
  destruct (getPage_view malloc malloc_size (pager table) _ Hs Hpn)
    as (pg & Hg' & _).
  assert (Hbuf : buf = page_view malloc (pager table)
                         (numRows table / ROWS_PER_PAGE)) by congruence.
  set (off := numRows table mod ROWS_PER_PAGE * ROW_SIZE) in *.
  set (buf' := splice buf (Z.to_nat off) (record r)) in *.
  match type of Hx with _ = Ok (_, ?t) => set (table' := t) in * end.
  assert (Hview : forall q, 0 <= q ->
            page_view malloc (pager table') q
            = if decide (q = numRows table / ROWS_PER_PAGE) then buf'
              else page_view malloc (pager table) q).
  { intros q Hq. unfold page_view at 1. subst table'. cbn [pager pages].
    destruct Hs as [Hl _]. destruct (decide _) as [-> | Hne].
    - rewrite list_lookup_insert_eq by lia. reflexivity.
    - rewrite list_lookup_insert_ne by lia.
      unfold page_view, loaded, numPages. cbn [fd fLen].
      rewrite Hc, Hf. reflexivity. }
  exists table'. split; [exact Hx |].
  split.
  { apply (set_slot_struct (pager table) (numRows table / ROWS_PER_PAGE)
             buf' Hs).
    subst buf'. rewrite length_splice by lia. exact Hlen. }
  split; [reflexivity |]. split; [exact Hc |].
  split.
  - intros i Hi. unfold row_view.
    rewrite Hview by (consts; apply Z.div_pos; lia).
    destruct (decide _) as [Heq | Hne]; [| reflexivity].
    rewrite Heq, <- Hbuf.
    rewrite !(deserializeRow_decode _ (i mod ROWS_PER_PAGE * ROW_SIZE))
      by (consts; divmod i; lia).
    f_equal. unfold bytes_at. subst buf'.
    apply slice_splice_other; [lia |].
    subst off. consts. divmod i. divmod (numRows table). lia.
  - unfold row_view. rewrite Hview by lia.
    destruct (decide _) as [_ | Hne]; [| congruence].
    fold off. rewrite deserializeRow_decode by lia.
    unfold bytes_at. subst buf'.
    replace (Z.to_nat ROW_SIZE) with (length (record r)) by lia.
    rewrite slice_splice_same by lia. apply decode_record. exact Hr.
Qed.

End InsertViews.

(** A row read back from a freshly opened file: the record bytes the file
    has at the row's page-aligned offset. *)
Lemma reopened_row_view (malloc : Z -> page) (file : list byte) (i : Z) :
  0 <= i < TABLE_MAX_ROWS ->
  Z.of_nat (length file) < 2 ^ 32 ->
  i / ROWS_PER_PAGE * PAGE_SIZE + i mod ROWS_PER_PAGE * ROW_SIZE + ROW_SIZE
  <= Z.of_nat (length file) ->
  row_view malloc (pager (openDatabase file)) i
  = decode (bytes_at file (i / ROWS_PER_PAGE * PAGE_SIZE
                           + i mod ROWS_PER_PAGE * ROW_SIZE) ROW_SIZE).
Proof.
  intros Hi Hlen Hfit.
  destruct (row_page_in_bounds i Hi) as (Hpn & Hlo & Hhi).
  unfold row_view, page_view. cbn [openDatabase pager].
  unfold openPager. cbn [lseek_end open contents pages].
  rewrite lookup_replicate_2 by (consts; lia).
  set (q := i / ROWS_PER_PAGE) in *.
  set (off := i mod ROWS_PER_PAGE * ROW_SIZE) in *.
  unfold loaded, numPages. cbn [fLen fd contents]. consts.
  rewrite (uint32_small (Z.of_nat (length file))) by lia.
  pose proof (Z.div_le_lower_bound (Z.of_nat (length file)) 4096 q
                ltac:(lia) ltac:(lia)) as Hq.
  assert (Hle : (q <=? (if Z.of_nat (length file) mod 4096 =? 0
                        then Z.of_nat (length file) / 4096
                        else uint32 (Z.of_nat (length file) / 4096 + 1)))
                = true).
  { apply Z.leb_le. destruct (_ =? 0); [exact Hq |].
    rewrite uint32_small; [lia |].
    pose proof (Z.div_lt_upper_bound (Z.of_nat (length file)) 4096 (2 ^ 20)
                  ltac:(lia) ltac:(lia)).
    lia. }
  rewrite Hle. rewrite uint32_small by lia.
  rewrite deserializeRow_decode by lia. f_equal.
  set (got := bytes_at file (q * 4096) 4096).
  assert (Hgot : Z.of_nat (length got)
                 = Z.min 4096 (Z.of_nat (length file) - q * 4096)).
  { subst got. unfold bytes_at. rewrite length_take, length_drop. lia. }
  unfold bytes_at at 1. consts.
  rewrite drop_app_le by lia.
  rewrite take_app_le by (rewrite length_drop; lia).
  fold (bytes_at got off 293). subst got.
  apply bytes_at_within; lia.
Qed.

(** The rows of at most 25 inserts, read back from the file a close
    leaves. *)
Lemma reopened_rows_up_to_25 (malloc malloc' : Z -> page) (rows : list Row):
  (forall n, Z.of_nat (length (malloc n)) = PAGE_SIZE) ->
  (forall n, Z.of_nat (length (malloc' n)) = PAGE_SIZE) ->
  Z.of_nat (length rows) <= 25 ->
  Forall struct_Row rows ->
  exists file table',
    session malloc rows [] = Ok file /\
    numRows (openDatabase file) = Z.of_nat (length rows) /\
    executeSelectStatement malloc' (openDatabase file)
    = Ok (EXECUTE_SUCCESS, rows, table').
Proof.
  intros Hm Hm' Hn Hall.
  destruct openDatabase_empty as (Hs0 & Hst0 & Hc0).
  destruct (insertRows_stores malloc Hm rows (openDatabase []) [] Hs0 Hst0
              ltac:(cbn [length]; consts; lia) Hall)
    as (table & Hins & Hs & Hst & Hc & _).
  cbn [app] in Hst. rewrite Hc0 in Hc.
  pose proof (closeDatabase_image table rows Hs Hst ltac:(consts; lia) Hc)
    as Hclose.
  destruct (file_image_layout table rows Hs Hst ltac:(consts; lia))
    as [Hlen Hrows].
  assert (Hnum : numRows table = Z.of_nat (length rows)) by apply Hst.
  rewrite Hnum in *.
  set (n := Z.of_nat (length rows)) in *.
  set (file := file_image (pages (pager table)) n) in *.
  assert (Hcount : numRows (openDatabase file) = n).
  { unfold openDatabase, openPager.
    cbn [lseek_end open contents numRows pager fLen].
    rewrite Hlen. consts. divmod n. rewrite uint32_small by lia.
    pose proof (Z.div_mod (n / 13 * 4096 + n mod 13 * 293) 293 ltac:(lia)).
    pose proof (Z.mod_pos_bound (n / 13 * 4096 + n mod 13 * 293) 293
                  ltac:(lia)).
    lia. }
  destruct (executeSelectStatement_view malloc' Hm' (openDatabase file))
    as (t' & Hsel & _).
  { apply openPager_struct. }
  { rewrite Hcount. consts. lia. }
  exists file, t'. split; [unfold session; rewrite Hins; exact Hclose |].
  split; [exact Hcount |].
  rewrite Hsel, Hcount. do 3 f_equal.
  apply list_eq. intros k. rewrite list_lookup_fmap.
  destruct (decide (k < length rows)%nat) as [Hk | Hk].
  - rewrite lookup_row_numbers by lia. cbn [fmap option_fmap option_map].
    destruct (lookup_lt_is_Some_2 rows k Hk) as [r Hr]. rewrite Hr.
    f_equal. specialize (Hrows k r Hr). consts.
    divmod n. divmod (Z.of_nat k).
    replace (0 + Z.of_nat k) with (Z.of_nat k) by lia.
    rewrite reopened_row_view; consts; try lia.
    rewrite Hrows. apply decode_record.
    eapply Forall_lookup_1; eauto.
  - rewrite (proj2 (lookup_ge_None _ _))
      by (rewrite length_row_numbers; lia).
    rewrite (proj2 (lookup_ge_None _ _)) by lia. reflexivity.
Qed.

(** ** Flushing and closing in general *)

Lemma flushPager_resident pager pageNum size b :
  pages pager !! Z.to_nat pageNum = Some (Some b) ->
  0 <= pageNum < TABLE_MAX_PAGES ->
  exists fd',
    flushPager pager pageNum size
    = Ok {| fd := fd'; fLen := fLen pager; pages := pages pager |}.
Proof.
  intros Hb Hp. unfold flushPager, slot. rewrite Hb. cbn [bind].
  cbn [lseek_set]. rewrite uint32_small by (consts; lia).
  destruct (Z.eqb_spec (pageNum * PAGE_SIZE) (-1)); [consts; lia |].
  destruct (write_contents
              {| contents := contents (fd pager); pos := pageNum * PAGE_SIZE |}
              b size) as (fd' & Hw & _).
  rewrite Hw.
  destruct (Z.eqb_spec (Z.of_nat (length (take (Z.to_nat size) b))) (-1));
    [lia |].
  exists fd'. reflexivity.
Qed.

(** The first loop of [closeDatabase] stays inside the array as long as
    its bound does. *)
Lemma flushFullPages_inside n :
  forall i pager,
    Z.of_nat (length (pages pager)) = TABLE_MAX_PAGES ->
    0 <= i -> i + Z.of_nat n <= TABLE_MAX_PAGES ->
    exists pager',
      flushFullPages n i pager = Ok pager' /\
      Z.of_nat (length (pages pager')) = TABLE_MAX_PAGES.
Proof.
  induction n as [| n IH]; intros i pager Hl Hi Hn.
  - exists pager. auto.
  - cbn [flushFullPages]. unfold slot at 1.
    destruct (pages pager !! Z.to_nat i) as [[b |] |] eqn:E; cbn [bind].
    + destruct (flushPager_resident pager i PAGE_SIZE b E ltac:(lia))
        as (fd' & ->).
      cbn [bind]. rewrite uint32_small by (consts; lia).
      apply IH; [| lia | lia].
      cbn [set_slot pages]. rewrite length_insert. exact Hl.
    + rewrite uint32_small by (consts; lia). apply IH; [exact Hl | lia | lia].
    + apply lookup_ge_None in E. lia.
Qed.

(** With a bound past the array, the loop reads [pages[TABLE_MAX_PAGES]]. *)
Lemma flushFullPages_outside n :
  forall i pager,
    Z.of_nat (length (pages pager)) = TABLE_MAX_PAGES ->
    0 <= i <= TABLE_MAX_PAGES -> TABLE_MAX_PAGES < i + Z.of_nat n ->
    flushFullPages n i pager = Undefined.
Proof.
  induction n as [| n IH]; intros i pager Hl Hi Hn; [lia |].
  cbn [flushFullPages]. unfold slot at 1.
  destruct (pages pager !! Z.to_nat i) as [[b |] |] eqn:E; cbn [bind].
  - apply lookup_lt_Some in E as Hlt.
    destruct (flushPager_resident pager i PAGE_SIZE b E ltac:(lia))
      as (fd' & ->).
    cbn [bind]. rewrite uint32_small by (consts; lia).
    apply IH; [| lia | lia].
    cbn [set_slot pages]. rewrite length_insert. exact Hl.
  - apply lookup_lt_Some in E as Hlt.
    rewrite uint32_small by (consts; lia). apply IH; [exact Hl | lia | lia].
  - reflexivity.
Qed.

Lemma selectRows_outside (malloc : Z -> page) n :
  (forall k, Z.of_nat (length (malloc k)) = PAGE_SIZE) ->
  forall i table out,
    struct_Pager (pager table) ->
    0 <= i <= TABLE_MAX_ROWS -> TABLE_MAX_ROWS < i + Z.of_nat n ->
    selectRows malloc n i table out = Undefined.
Proof.
  intros Hm. induction n as [| n IH]; intros i table out Hs Hi Hn; [lia |].
  cbn [selectRows]. destruct (decide (i = TABLE_MAX_ROWS)) as [-> | Hne].
  - unfold rowSlot, getPage, slot.
    change (TABLE_MAX_ROWS / ROWS_PER_PAGE) with 100.
    change (TABLE_MAX_PAGES <? 100) with false. cbv iota.
    rewrite (proj2 (lookup_ge_None _ _)); [reflexivity |].
    destruct Hs as [Hl _]. consts. lia.
  - destruct (rowSlot_in_bounds malloc Hm table i Hs ltac:(lia))
      as (buf & pg & _ & -> & Hs' & _).
    cbn [bind]. rewrite uint32_small by (consts; lia).
    apply IH; [exact Hs' | lia | lia].
Qed.

(** X5. A table that counts more than [TABLE_MAX_ROWS] rows, as the table
    [openDatabase] makes of the 100 whole pages a full table is saved as:
    an insert is refused with [EXECUTE_TABLE_FULL] and leaves the table
    untouched, while a select and a close index [pages] past its end and
    have no defined result. *)
Theorem oversized_table (malloc : Z -> page) (table : Table) (r : Row) :
  (forall n, Z.of_nat (length (malloc n)) = PAGE_SIZE) ->
  struct_Pager (pager table) ->
  TABLE_MAX_ROWS < numRows table ->
  executeInsertStatement malloc r table = Ok (EXECUTE_TABLE_FULL, table) /\
  executeSelectStatement malloc table = Undefined /\
  closeDatabase table = Undefined.
Proof.
  intros Hm Hs Hn. split; [| split].
  - unfold executeInsertStatement.
    destruct (Z.leb_spec TABLE_MAX_ROWS (numRows table)); [reflexivity | lia].
  - unfold executeSelectStatement.
    rewrite (selectRows_outside malloc _ Hm 0 table [] Hs)
      by (consts; lia).
    reflexivity.
  - unfold closeDatabase. destruct Hs as [Hl _]. consts.
    divmod (numRows table).
    destruct (decide (100 < numRows table / 13)) as [Hmany | Hfew].
    + rewrite (flushFullPages_outside _ 0 (pager table) Hl) by (consts; lia).
      reflexivity.
    + destruct (flushFullPages_inside (Z.to_nat (numRows table / 13)) 0
                  (pager table) Hl ltac:(lia) ltac:(consts; lia))
        as (pg & -> & Hl').
      cbn [bind].
      destruct (Z.ltb_spec 0 (numRows table mod 13)); [| lia].
      unfold slot.
      rewrite (proj2 (lookup_ge_None _ _)); [reflexivity |].
      consts. lia.
Qed.

(** The first loop of [closeDatabase] skips slots that are NULL. *)
Lemma flushFullPages_null n :
  forall i pager,
    0 <= i -> i + Z.of_nat n <= TABLE_MAX_PAGES ->
    (forall k, (k < Z.to_nat TABLE_MAX_PAGES)%nat ->
               pages pager !! k = Some None) ->
    flushFullPages n i pager = Ok pager.
Proof.
  induction n as [| n IH]; intros i pager Hi Hn Hnull; [reflexivity |].
  cbn [flushFullPages]. unfold slot at 1.
  rewrite Hnull by (consts; lia). cbn [bind].
  rewrite uint32_small by (consts; lia). apply IH; [lia | lia | exact Hnull].
Qed.

(** X6. Opening a file and closing it at once leaves the file as it was,
    byte for byte, whenever the row count [openDatabase] derives from its
    length is at most [TABLE_MAX_ROWS]: no page is resident, so the close
    writes nothing. *)
Theorem open_close_unchanged (bytes : list byte) :
  numRows (openDatabase bytes) <= TABLE_MAX_ROWS ->
  closeDatabase (openDatabase bytes) = Ok bytes.
Proof.
  intros Hn.
  assert (H0 : 0 <= numRows (openDatabase bytes)).
  { cbn. apply Z.div_pos; [| consts; lia].
    unfold uint32. apply Z.mod_pos_bound. lia. }
  assert (Hnull : forall k, (k < Z.to_nat TABLE_MAX_PAGES)%nat ->
            pages (pager (openDatabase bytes)) !! k = Some None).
  { intros k Hk. cbn. apply lookup_replicate_2. exact Hk. }
  unfold closeDatabase. consts. divmod (numRows (openDatabase bytes)).
  rewrite flushFullPages_null; [| lia | consts; lia | exact Hnull].
  cbn [bind].
  destruct (Z.ltb_spec 0 (numRows (openDatabase bytes) mod 13)).
  - unfold slot. rewrite Hnull by (consts; lia). reflexivity.
  - reflexivity.
Qed.

(** X7. What a flush writes: for a resident page [pageNum] below
    [TABLE_MAX_PAGES] and a [size] within its buffer, [flushPager]
    succeeds and leaves the slots and the recorded file length alone. A
    flush of no bytes leaves the file as it was. After a flush of
    [size > 0] bytes the file holds the first [size] bytes of the buffer
    at offset [pageNum * PAGE_SIZE]; its length is the larger of the old
    length and [pageNum * PAGE_SIZE + size]; before the offset it holds
    the old bytes, with zero bytes in the gap when the offset is past the
    old end; after the bytes written it holds the old bytes. *)
Theorem flushPager_writes (pager : Pager) (pageNum size : Z) (b : page) :
  pages pager !! Z.to_nat pageNum = Some (Some b) ->
  0 <= pageNum < TABLE_MAX_PAGES ->
  0 <= size <= Z.of_nat (length b) ->
  exists pager',
    flushPager pager pageNum size = Ok pager' /\
    pages pager' = pages pager /\
    fLen pager' = fLen pager /\
    let off := pageNum * PAGE_SIZE in
    let old := contents (fd pager) in
    let new := contents (fd pager') in
    (size = 0 -> new = old) /\
    (0 < size ->
     Z.of_nat (length new) = Z.max (Z.of_nat (length old)) (off + size) /\
     bytes_at new off size = take (Z.to_nat size) b /\
     (forall k, (k < Z.to_nat off)%nat ->
        new !! k = if decide (k < length old)%nat then old !! k
                   else Some NUL) /\
     (forall k, (Z.to_nat (off + size) <= k)%nat -> new !! k = old !! k)).
Proof.
  intros Hb Hp Hsize. unfold flushPager, slot. rewrite Hb. cbn [bind].
  cbn [lseek_set]. rewrite uint32_small by (consts; lia).
  destruct (Z.eqb_spec (pageNum * PAGE_SIZE) (-1)); [consts; lia |].
  destruct (write_contents
              {| contents := contents (fd pager); pos := pageNum * PAGE_SIZE |}
              b size) as (fd' & Hw & Hnil & Hcons).
  rewrite Hw. cbn [contents pos] in Hnil, Hcons.
  destruct (Z.eqb_spec (Z.of_nat (length (take (Z.to_nat size) b))) (-1));
    [lia |].
  eexists. split; [reflexivity |]. cbn [pages fLen fd].
  split; [reflexivity |]. split; [reflexivity |].
  set (off := Z.to_nat (pageNum * PAGE_SIZE)) in *.
  set (old := contents (fd pager)) in *.
  set (data := take (Z.to_nat size) b) in *.
  set (old' := old ++ replicate (off - length old) NUL) in *.
  assert (Hdata : length data = Z.to_nat size).
  { subst data. rewrite length_take. lia. }
  cbv zeta. split.
  { intros Hzero. apply Hnil. apply length_zero_iff_nil. lia. }
  intros Hpos. rewrite Hcons by (intros E; rewrite E in Hdata; cbn in Hdata; lia).
  assert (Hold' : length old' = Nat.max (length old) off).
  { subst old'. rewrite length_app, length_replicate. lia. }
  assert (Htake : length (take off old') = off).
  { rewrite length_take. lia. }
  assert (Hoff : 0 <= pageNum * PAGE_SIZE) by (consts; lia).
  split; [| split; [| split]].
  - rewrite !length_app, Htake, length_drop, Hdata, Hold'. lia.
  - unfold bytes_at. fold off.
    replace (Z.to_nat size) with (length data) by exact Hdata.
    rewrite drop_app_length' by (symmetry; exact Htake).
    rewrite take_app_length. reflexivity.
  - intros k Hk. fold off in Hk.
    rewrite lookup_app_l by lia. rewrite lookup_take_lt by exact Hk.
    subst old'. destruct (decide (k < length old)%nat) as [Hlt | Hge].
    + apply lookup_app_l. exact Hlt.
    + rewrite lookup_app_r by lia. apply lookup_replicate_2. lia.
  - intros k Hk.
    replace (Z.to_nat (pageNum * PAGE_SIZE + size))
      with (off + length data)%nat in Hk by lia.
    rewrite lookup_app_r by lia. rewrite lookup_app_r by lia.
    rewrite lookup_drop, Htake.
    replace (off + length data + (k - off - length data))%nat with k by lia.
    subst old'. destruct (decide (k < length old)%nat) as [Hlt | Hge].
    + apply lookup_app_l. exact Hlt.
    + rewrite (proj2 (lookup_ge_None old k)) by lia.
      apply lookup_ge_None. rewrite length_app, length_replicate. lia.
Qed.

Section Padding.

Variable malloc : Z -> page.
Hypothesis malloc_size : forall n, Z.of_nat (length (malloc n)) = PAGE_SIZE.

Lemma executeInsertStatement_padding r table :
  struct_Pager (pager table) -> 0 <= numRows table < TABLE_MAX_ROWS ->
  struct_Row r ->
  contents (fd (pager table)) = [] ->
  heap_padding malloc (pager table) ->
  exists table',
    executeInsertStatement malloc r table = Ok (EXECUTE_SUCCESS, table') /\
    struct_Pager (pager table') /\
    numRows table' = numRows table + 1 /\
    contents (fd (pager table')) = [] /\
    heap_padding malloc (pager table').
Proof.
  intros Hs Hn Hr Hempty Hpad.
  destruct (executeInsertStatement_effect malloc malloc_size r table Hs Hn Hr)
    as (buf & pager' & Hg & Hlen & Hc & Hf & Hhit & Hx).
  cbv zeta in Hx.
  pose proof (length_record r Hr) as Hrec.
  destruct (row_page_in_bounds (numRows table) Hn) as (Hpn & Hlo & Hhi).
  set (pn := numRows table / ROWS_PER_PAGE) in *.
  set (off := numRows table mod ROWS_PER_PAGE * ROW_SIZE) in *.
  assert (Hbuf : page_padding buf = page_padding (malloc pn)).
  { destruct (slot_in_bounds (pager table) pn Hs Hpn) as ([b |] & Hl & _).
    - rewrite (Hhit b Hl). rewrite (Hpad _ b Hl). do 2 f_equal. lia.
    - destruct (getPage_miss malloc (pager table) pn ltac:(lia) Hl)
        as (fd' & Hg' & _).
      cbv zeta in Hg'.
      assert (Hnone : loaded (pager table) pn = []).
      { unfold loaded. rewrite Hempty. destruct (_ <=? _); [| reflexivity].
        unfold bytes_at. rewrite drop_nil. apply take_nil. }
      rewrite Hnone in Hg'. cbn [app length] in Hg'. rewrite drop_0 in Hg'.
      congruence. }
  eexists. split; [exact Hx |]. cbn [pager numRows pages fd].
  assert (Hsplice : Z.of_nat (length (splice buf (Z.to_nat off) (record r)))
                    = PAGE_SIZE).
  { rewrite length_splice by lia. exact Hlen. }
  split; [apply (set_slot_struct (pager table) pn _ Hs Hsplice) |].
  split; [reflexivity |]. split; [congruence |].
  unfold heap_padding. cbn [pages].
  intros q b Hb. destruct Hs as [Hl _].
  destruct (decide (q = Z.to_nat pn)) as [-> | Hne].
  - rewrite list_lookup_insert_eq in Hb by lia. injection Hb as <-.
    replace (Z.of_nat (Z.to_nat pn)) with pn by lia. rewrite <- Hbuf.
    unfold page_padding.
    rewrite <- (take_ge (drop _ (splice _ _ _)) (Z.to_nat PAGE_SIZE))
      by (rewrite length_drop; lia).
    rewrite <- (take_ge (drop _ buf) (Z.to_nat PAGE_SIZE))
      by (rewrite length_drop; lia).
    apply slice_splice_other; [lia |]. subst off. consts.
    divmod (numRows table). lia.
  - rewrite list_lookup_insert_ne in Hb by auto. apply Hpad. exact Hb.
Qed.

Lemma insertRows_padding rows :
  forall table res table',
    struct_Pager (pager table) -> 0 <= numRows table ->
    numRows table + Z.of_nat (length rows) <= TABLE_MAX_ROWS ->
    Forall struct_Row rows ->
    contents (fd (pager table)) = [] ->
    heap_padding malloc (pager table) ->
    insertRows malloc rows table = Ok (res, table') ->
    heap_padding malloc (pager table').
Proof.
  induction rows as [| r rows IH];
    intros table res table' Hs H0 Hn Hall Hempty Hpad Hrun.
  - cbn in Hrun. injection Hrun as _ <-. exact Hpad.
  - apply Forall_cons in Hall as [Hr Hall]. cbn [length] in Hn.
    destruct (executeInsertStatement_padding r table Hs ltac:(lia) Hr
                Hempty Hpad) as (t1 & Hx & Hs1 & Hn1 & Hc1 & Hp1).
    cbn [insertRows] in Hrun. rewrite Hx in Hrun. cbn [bind] in Hrun.
    destruct (insertRows malloc rows t1) as [[ress t2] | e |] eqn:E;
      cbn [bind] in Hrun; try discriminate.
    injection Hrun as _ <-.
    apply (IH t1 ress t2); auto; lia.
Qed.

End Padding.

(** X8. Uninitialised heap memory reaches the file: after
    [N <= TABLE_MAX_ROWS] inserts into a store opened on an empty file and
    a close, the file has [N / ROWS_PER_PAGE] whole pages and the rows of
    the partial page, and in every whole page the
    [PAGE_SIZE - ROWS_PER_PAGE * ROW_SIZE] bytes after the last row slot
    are the bytes [malloc] left at that place of the page's block. *)
Theorem close_writes_heap_padding (malloc : Z -> page) (rows : list Row) :
  (forall n, Z.of_nat (length (malloc n)) = PAGE_SIZE) ->
  Z.of_nat (length rows) <= TABLE_MAX_ROWS ->
  Forall struct_Row rows ->
  let n := Z.of_nat (length rows) in
  exists file,
    session malloc rows [] = Ok file /\
    Z.of_nat (length file)
    = n / ROWS_PER_PAGE * PAGE_SIZE + n mod ROWS_PER_PAGE * ROW_SIZE /\
    forall q,
      0 <= q < n / ROWS_PER_PAGE ->
      bytes_at file (q * PAGE_SIZE + ROWS_PER_PAGE * ROW_SIZE)
        (PAGE_SIZE - ROWS_PER_PAGE * ROW_SIZE)
      = bytes_at (malloc q) (ROWS_PER_PAGE * ROW_SIZE)
          (PAGE_SIZE - ROWS_PER_PAGE * ROW_SIZE).
Proof.
  intros Hm Hn Hall n.
  destruct openDatabase_empty as (Hs0 & Hst0 & Hc0).
  destruct (insertRows_stores malloc Hm rows (openDatabase []) [] Hs0 Hst0
              ltac:(cbn [length]; lia) Hall)
    as (table & Hins & Hs & Hst & Hc & _).
  cbn [app] in Hst. rewrite Hc0 in Hc.
  assert (Hpad : heap_padding malloc (pager table)).
  { apply (insertRows_padding malloc Hm rows (openDatabase [])
             (replicate (length rows) EXECUTE_SUCCESS) table);
      auto.
    - vm_compute. discriminate.
    - intros q b Hb. cbn in Hb. apply lookup_replicate in Hb as [Hb _].
      discriminate. }
  pose proof (closeDatabase_image table rows Hs Hst Hn Hc) as Hclose.
  destruct (file_image_layout table rows Hs Hst Hn) as [Hlen _].
  pose proof (full_pages_blocks table rows Hs Hst) as Hblocks.
  assert (Hnum : numRows table = n) by apply Hst.
  rewrite Hnum in *.
  exists (file_image (pages (pager table)) n).
  split; [unfold session; rewrite Hins; exact Hclose |].
  split; [exact Hlen |].
  intros q Hq. unfold file_image, bytes_at. consts.
  subst n. divmod (Z.of_nat (length rows)).
  destruct (stores_resident table rows Hs Hst (Z.to_nat q) ltac:(lia))
    as (b & Hb & Hbl).
  replace (Z.to_nat (q * 4096 + 13 * 293))
    with (Z.to_nat q * Z.to_nat 4096 + Z.to_nat (13 * 293))%nat by lia.
  rewrite (concat_blocks_at _ _ _ Hblocks (Z.to_nat q) b).
  - specialize (Hpad _ _ Hb). unfold page_padding in Hpad. consts.
    rewrite Hpad. do 3 f_equal. lia.
  - rewrite list_lookup_fmap, lookup_take_lt by lia. rewrite Hb. reflexivity.
  - lia.
Qed.

(** * Properties of the command line *)

Lemma byte_eqb_spec a b : reflect (a = b) (Byte.eqb a b).
Proof.
  destruct (Byte.eqb a b) eqn:E; constructor.
  - apply Byte.byte_dec_bl. exact E.
  - intros ->. rewrite (Byte.byte_dec_lb eq_refl) in E. discriminate.
Qed.

Lemma unsigned_diff a b : a <> b -> byte.unsigned a - byte.unsigned b <> 0.
Proof.
  intros Hne H. apply Hne, byte.unsigned_inj. lia.
Qed.

Section CStrings.

Implicit Types s x y w : list byte.

Lemma c_str_length s : Z.of_nat (length (c_str s)) = strlen s.
Proof.
  induction s as [| c s IH]; cbn [c_str strlen]; [reflexivity |].
  destruct (Byte.eqb c NUL); cbn [length]; lia.
Qed.

Lemma c_str_nul_free s : nul_free (c_str s).
Proof.
  induction s as [| c s IH]; cbn [c_str]; [constructor |].
  destruct (byte_eqb_spec c NUL); constructor; assumption.
Qed.

Lemma c_str_app x y : nul_free x -> c_str (x ++ y) = x ++ c_str y.
Proof.
  induction 1 as [| c x Hc _ IH]; [reflexivity |].
  cbn [app c_str]. destruct (byte_eqb_spec c NUL); [contradiction |].
  rewrite IH. reflexivity.
Qed.

Lemma c_str_id x : nul_free x -> c_str x = x.
Proof.
  intros H. rewrite <- (app_nil_r x) at 1. rewrite c_str_app by exact H.
  apply app_nil_r.
Qed.

Lemma c_str_idem s : c_str (c_str s) = c_str s.
Proof. apply c_str_id, c_str_nul_free. Qed.

Lemma strncmp_prefix lit :
  nul_free lit ->
  forall s, strncmp s lit (length lit) = 0 <-> exists rest, c_str s = lit ++ rest.
Proof.
  induction 1 as [| c lit Hc _ IH]; intros s.
  - cbn. split; eauto.
  - cbn [length strncmp hd tl]. destruct s as [| c1 s]; cbn [hd tl c_str].
    + destruct (byte_eqb_spec NUL c) as [<- | Hne]; [contradiction |].
      split.
      * intros H. exfalso. revert H. apply unsigned_diff. exact Hne.
      * intros (rest & H). discriminate.
    + destruct (byte_eqb_spec c1 c) as [-> | Hne].
      * destruct (byte_eqb_spec c NUL); [contradiction |].
        rewrite IH. split; intros (rest & H); exists rest.
        -- cbn [app]. congruence.
        -- cbn [app] in H. congruence.
      * split.
        -- intros H. exfalso. revert H. apply unsigned_diff. exact Hne.
        -- intros (rest & H). destruct (byte_eqb_spec c1 NUL);
             cbn [app] in H; congruence.
Qed.

Lemma strncmp_whole n :
  forall s lit,
    (length s < n)%nat -> nul_free lit ->
    strncmp s lit n = 0 <-> c_str s = lit.
Proof.
  induction n as [| n IH]; intros s lit Hn Hlit; [lia |].
  cbn [strncmp]. destruct s as [| c1 s], Hlit as [| c lit Hc Hlit];
    cbn [hd tl c_str length] in *.
  - cbn. tauto.
  - destruct (byte_eqb_spec NUL c) as [<- | Hne]; [contradiction |].
    split; [| discriminate].
    intros H. exfalso. revert H. apply unsigned_diff. exact Hne.
  - destruct (byte_eqb_spec c1 NUL) as [-> | Hne]; [cbn; tauto |].
    split; [| discriminate].
    intros H. exfalso. revert H. apply unsigned_diff. exact Hne.
  - destruct (byte_eqb_spec c1 c) as [-> | Hne].
    + destruct (byte_eqb_spec c NUL); [contradiction |].
      rewrite IH by (auto; lia). split; congruence.
    + split.
      * intros H. exfalso. revert H. apply unsigned_diff. exact Hne.
      * destruct (byte_eqb_spec c1 NUL); congruence.
Qed.

Lemma strcmp_eq s lit : nul_free lit -> strcmp s lit = 0 <-> c_str s = lit.
Proof. intros H. apply strncmp_whole; [lia | exact H]. Qed.

Lemma word_chars_nul_free w : word_chars w -> nul_free w.
Proof.
  intros H. eapply Forall_impl; [exact H |]. intros c Hc. apply Hc.
Qed.

Lemma skip_delims_spaces k s :
  skip_delims (replicate k SPACE ++ s) = skip_delims s.
Proof. induction k as [| k IH]; [reflexivity | exact IH]. Qed.

Lemma skip_delims_word w s :
  w <> [] -> word_chars w -> skip_delims (w ++ s) = w ++ s.
Proof.
  intros Hne Hw. destruct Hw as [| c w [_ Hc] _]; [contradiction |].
  cbn [app skip_delims]. destruct (byte_eqb_spec c SPACE); [contradiction |].
  reflexivity.
Qed.

Lemma token_word w rest :
  word_chars w -> token (w ++ SPACE :: rest) = (w, rest).
Proof.
  induction 1 as [| c w [_ Hc] _ IH]; [reflexivity |].
  cbn [app token]. destruct (byte_eqb_spec c SPACE); [contradiction |].
  rewrite IH. reflexivity.
Qed.

Lemma token_word_end w : word_chars w -> token w = (w, []).
Proof.
  induction 1 as [| c w [_ Hc] _ IH]; [reflexivity |].
  cbn [token]. destruct (byte_eqb_spec c SPACE); [contradiction |].
  rewrite IH. reflexivity.
Qed.

Lemma strtok_c_str s : strtok (c_str s) = strtok s.
Proof. unfold strtok. rewrite c_str_idem. reflexivity. Qed.

(** A word followed by a space: the word is the token, and the scan goes
    on after the space. *)
Lemma strtok_word k w rest :
  w <> [] -> word_chars w -> nul_free rest ->
  strtok (replicate k SPACE ++ w ++ SPACE :: rest) = (Some w, rest).
Proof.
  intros Hne Hw Hrest. unfold strtok.
  rewrite c_str_id.
  - rewrite skip_delims_spaces, skip_delims_word by assumption.
    rewrite token_word by exact Hw.
    destruct w; [contradiction | reflexivity].
  - unfold nul_free. rewrite !Forall_app. split; [| split].
    + apply Forall_replicate. discriminate.
    + apply word_chars_nul_free. exact Hw.
    + constructor; [discriminate | exact Hrest].
Qed.

(** A word at the end. *)
Lemma strtok_word_end k w :
  w <> [] -> word_chars w ->
  strtok (replicate k SPACE ++ w) = (Some w, []).
Proof.
  intros Hne Hw. unfold strtok.
  rewrite c_str_id.
  - rewrite <- (app_nil_r w), skip_delims_spaces, skip_delims_word
      by assumption.
    rewrite app_nil_r, token_word_end by exact Hw.
    destruct w; [contradiction | reflexivity].
  - unfold nul_free. rewrite Forall_app. split.
    + apply Forall_replicate. discriminate.
    + apply word_chars_nul_free. exact Hw.
Qed.

(** Nothing but spaces. *)
Lemma strtok_spaces k : strtok (replicate k SPACE) = (None, []).
Proof.
  unfold strtok. rewrite c_str_id by (apply Forall_replicate; discriminate).
  rewrite <- (app_nil_r (replicate k SPACE)), skip_delims_spaces.
  reflexivity.
Qed.

End CStrings.

(** ** Preparing statements *)

Lemma atoi_range s n : atoi s = Ok n -> INT_MIN <= n <= INT_MAX.
Proof.
  unfold atoi.
  set (p := match skip_spaces (c_str s) with
            | [] => _
            | c :: s' => _
            end).
  destruct p as [negative s']. cbv zeta.
  destruct (_ && _) eqn:E; [| discriminate].
  intros H. injection H as <-.
  apply andb_prop in E as [E1 E2].
  apply Z.leb_le in E1, E2. lia.
Qed.

Lemma kw_insert_word : word_chars kw_insert.
Proof. repeat constructor; discriminate. Qed.

Lemma kw_select_nul_free : nul_free kw_select.
Proof. repeat constructor; discriminate. Qed.

Lemma strlen_word w : nul_free w -> strlen w = Z.of_nat (length w).
Proof. intros H. rewrite <- c_str_length, c_str_id by exact H. reflexivity. Qed.

Lemma strcpy_word dst w :
  nul_free w -> strcpy dst w = w ++ NUL :: drop (S (length w)) dst.
Proof. intros H. unfold strcpy. rewrite c_str_id by exact H. reflexivity. Qed.


Lemma prepareStatement_insert buffer statement rest :
  c_str buffer = kw_insert ++ rest ->
  prepareStatement buffer statement
  = prepareInsertStatement buffer (as_insert statement).
Proof.
  intros H. unfold prepareStatement.
  assert (H0 : strncmp buffer kw_insert 6 = 0).
  { apply (strncmp_prefix kw_insert).
    - apply word_chars_nul_free, kw_insert_word.
    - eauto. }
  rewrite H0. reflexivity.
Qed.

(** The insert line in full: keyword, id, user name, e-mail, separated by
    runs of spaces, and whatever follows a further space. *)
Lemma prepareStatement_insert_line buffer statement w0 a idtok b u c e tail n :
  c_str buffer
  = (kw_insert ++ w0)
      ++ SPACE :: (replicate a SPACE ++ idtok
      ++ SPACE :: (replicate b SPACE ++ u
      ++ SPACE :: (replicate c SPACE ++ e ++ tail))) ->
  word_chars w0 ->
  idtok <> [] -> word_chars idtok ->
  u <> [] -> word_chars u ->
  e <> [] -> word_chars e ->
  tail = [] \/ (exists t, tail = SPACE :: t) ->
  atoi idtok = Ok n ->
  prepareStatement buffer statement
  = Ok (if n <? 0 then (PREPARE_NEGATIVE_ID, as_insert statement)
        else if COLUMN_USERNAME_SIZE <? Z.of_nat (length u)
        then (PREPARE_STRING_TOO_LONG, as_insert statement)
        else if COLUMN_EMAIL_SIZE <? Z.of_nat (length e)
        then (PREPARE_STRING_TOO_LONG, as_insert statement)
        else (PREPARE_SUCCESS,
              {| type := STATEMENT_INSERT;
                 rowToInsert :=
                   {| id := n;
                      username :=
                        u ++ NUL :: drop (S (length u))
                                      (username (rowToInsert statement));
                      email :=
                        e ++ NUL :: drop (S (length e))
                                      (email (rowToInsert statement)) |} |})).
Proof.
  intros Hshape Hw0 Hid0 Hid Hu0 Hu He0 He Htail Hatoi.
  rewrite (prepareStatement_insert buffer statement
             (w0 ++ SPACE :: (replicate a SPACE ++ idtok
              ++ SPACE :: (replicate b SPACE ++ u
              ++ SPACE :: (replicate c SPACE ++ e ++ tail)))))
    by (rewrite Hshape, <- app_assoc; reflexivity).
  pose proof (c_str_nul_free buffer) as Hfree. rewrite Hshape in Hfree.
  set (r3 := replicate c SPACE ++ e ++ tail) in *.
  set (r2 := replicate b SPACE ++ u ++ SPACE :: r3) in *.
  set (r1 := replicate a SPACE ++ idtok ++ SPACE :: r2) in *.
  assert (F1 : nul_free r1).
  { apply Forall_app in Hfree as [_ Hfree].
    apply Forall_cons in Hfree as [_ Hfree]. exact Hfree. }
  assert (F2 : nul_free r2).
  { subst r1. apply Forall_app in F1 as [_ F1].
    apply Forall_app in F1 as [_ F1].
    apply Forall_cons in F1 as [_ F1]. exact F1. }
  assert (F3 : nul_free r3).
  { subst r2. apply Forall_app in F2 as [_ F2].
    apply Forall_app in F2 as [_ F2].
    apply Forall_cons in F2 as [_ F2]. exact F2. }
  assert (Htl : nul_free tail).
  { subst r3. apply Forall_app in F3 as [_ F3].
    apply Forall_app in F3 as [_ F3]. exact F3. }
  assert (Hkw : word_chars (kw_insert ++ w0)).
  { apply Forall_app. split; [apply kw_insert_word | exact Hw0]. }
  assert (Hkw0 : kw_insert ++ w0 <> []) by discriminate.
  pose proof (word_chars_nul_free _ Hid) as Hidf.
  pose proof (word_chars_nul_free _ Hu) as Huf.
  pose proof (word_chars_nul_free _ He) as Hef.
  unfold prepareInsertStatement.
  rewrite <- strtok_c_str, Hshape.
  rewrite (strtok_word 0 (kw_insert ++ w0) r1 Hkw0 Hkw F1
           : strtok ((kw_insert ++ w0) ++ SPACE :: r1) = _).
  subst r1. rewrite (strtok_word a idtok r2) by assumption.
  subst r2. rewrite (strtok_word b u r3) by assumption.
  subst r3.
  assert (Hlast : exists saved,
            strtok (replicate c SPACE ++ e ++ tail) = (Some e, saved)).
  { destruct Htail as [-> | (t & ->)].
    - rewrite app_nil_r. eexists. apply strtok_word_end; assumption.
    - eexists. apply strtok_word; try assumption.
      apply Forall_cons in Htl as [_ Htl]. exact Htl. }
  destruct Hlast as (saved & ->).
  rewrite Hatoi. cbn [bind].
  rewrite !strlen_word, !strcpy_word by assumption.
  destruct (n <? 0) eqn:En; [reflexivity |].
  destruct (_ <? Z.of_nat (length u)); [reflexivity |].
  destruct (_ <? Z.of_nat (length e)); [reflexivity |].
  cbn [as_insert type rowToInsert].
  rewrite uint32_small; [reflexivity |].
  apply Z.ltb_ge in En. apply atoi_range in Hatoi.
  unfold INT_MAX in Hatoi. lia.
Qed.

Lemma strlen_terminated_at x y : nul_free x -> strlen (x ++ NUL :: y) = Z.of_nat (length x).
Proof.
  induction 1 as [| c x Hc _ IH]; [reflexivity |].
  cbn [app strlen length]. destruct (byte_eqb_spec c NUL); [contradiction |].
  lia.
Qed.

Lemma strcpy_fits dst src :
  strlen src < Z.of_nat (length dst) ->
  length (strcpy dst src) = length dst /\
  strlen (strcpy dst src) = strlen src.
Proof.
  intros Hfit. unfold strcpy. pose proof (c_str_length src) as Hl.
  split.
  - rewrite length_app. cbn [length]. rewrite length_drop. lia.
  - rewrite strlen_terminated_at by apply c_str_nul_free. exact Hl.
Qed.

(** What [prepareInsertStatement] does in each of its results. *)
Lemma prepareInsertStatement_cases buffer statement res statement' :
  prepareInsertStatement buffer statement = Ok (res, statement') ->
  ((res = PREPARE_NEGATIVE_ID \/ res = PREPARE_SYNTAX_ERROR
    \/ res = PREPARE_STRING_TOO_LONG) /\ statement' = statement) \/
  (res = PREPARE_SUCCESS /\
   type statement' = type statement /\
   exists n u e,
     0 <= n <= INT_MAX /\
     strlen u <= COLUMN_USERNAME_SIZE /\
     strlen e <= COLUMN_EMAIL_SIZE /\
     rowToInsert statement'
     = {| id := n;
          username := strcpy (username (rowToInsert statement)) u;
          email := strcpy (email (rowToInsert statement)) e |}).
Proof.
  unfold prepareInsertStatement.
  destruct (strtok buffer) as [keyword s1].
  destruct (strtok s1) as [[idtok |] s2];
    destruct (strtok s2) as [[u |] s3];
    destruct (strtok s3) as [[e |] s4];
    try (intros H; injection H as <- <-; left; split; [intuition congruence | reflexivity]).
  destruct (atoi idtok) as [n | |] eqn:Hatoi; cbn [bind]; try discriminate.
  apply atoi_range in Hatoi.
  destruct (Z.ltb_spec n 0) as [Hneg | Hpos];
    [intros H; injection H as <- <-; left; split; [intuition congruence | reflexivity] |].
  destruct (Z.ltb_spec COLUMN_USERNAME_SIZE (strlen u)) as [Hlong | Hu];
    [intros H; injection H as <- <-; left; split; [intuition congruence | reflexivity] |].
  destruct (Z.ltb_spec COLUMN_EMAIL_SIZE (strlen e)) as [Hlong | He];
    [intros H; injection H as <- <-; left; split; [intuition congruence | reflexivity] |].
  intros H. injection H as <- <-. right.
  split; [reflexivity |]. split; [reflexivity |].
  exists n, u, e. cbn [rowToInsert].
  rewrite uint32_small by (unfold INT_MAX in Hatoi; lia).
  repeat split; [lia | apply Hatoi | exact Hu | exact He].
Qed.

(** X9. A statement that [prepareStatement] accepts, given a statement
    whose arrays have their declared sizes: if it is an insert, its row is
    within capacity, the id between 0 and [INT_MAX] and both strings
    terminated within [COLUMN_USERNAME_SIZE] and [COLUMN_EMAIL_SIZE]
    characters; if it is a select, the row is the one the statement
    held. *)
Theorem prepared_row_valid (buffer : list byte) (statement statement' : Statement) :
  struct_Row (rowToInsert statement) ->
  prepareStatement buffer statement = Ok (PREPARE_SUCCESS, statement') ->
  match type statement' with
  | STATEMENT_INSERT =>
      valid_row (rowToInsert statement') /\
      id (rowToInsert statement') <= INT_MAX
  | STATEMENT_SELECT => rowToInsert statement' = rowToInsert statement
  end.
Proof.
  intros (_ & Hu & He). unfold prepareStatement.
  destruct (_ =? 0).
  - intros H. apply prepareInsertStatement_cases in H
      as [[Hne _] | (_ & Ht & n & u & e & Hn & Hlu & Hle & Hrow)];
      [intuition discriminate |].
    rewrite Ht. cbn [type rowToInsert] in *. rewrite Hrow.
    cbn [id]. consts.
    destruct (strcpy_fits (username (rowToInsert statement)) u ltac:(lia))
      as [Hl1 Hs1].
    destruct (strcpy_fits (email (rowToInsert statement)) e ltac:(lia))
      as [Hl2 Hs2].
    split; [| lia].
    unfold valid_row, struct_Row. cbn [id username email]. consts.
    unfold INT_MAX in Hn. repeat split; lia.
  - destruct (_ =? 0); intros H; [| discriminate].
    injection H as <-. reflexivity.
Qed.

(** X10. A line that [prepareStatement] refuses leaves the row of the
    statement as it was. An unrecognised line leaves the whole statement
    as it was; every other refusal comes from an insert, with the type set
    to [STATEMENT_INSERT]. *)
Theorem refused_statement_keeps_row (buffer : list byte)
    (statement statement' : Statement) (res : PrepareResult) :
  prepareStatement buffer statement = Ok (res, statement') ->
  res <> PREPARE_SUCCESS ->
  rowToInsert statement' = rowToInsert statement /\
  (res = PREPARE_UNRECOGNIZED_STATEMENT -> statement' = statement) /\
  (res <> PREPARE_UNRECOGNIZED_STATEMENT ->
   type statement' = STATEMENT_INSERT).
Proof.
  unfold prepareStatement. destruct (_ =? 0).
  - intros H Hres. apply prepareInsertStatement_cases in H
      as [[Hcase ->] | (-> & _)]; [| contradiction].
    split; [reflexivity |]. split; [| reflexivity].
    intros ->. intuition discriminate.
  - destruct (_ =? 0); intros H Hres; injection H as <- <-;
      [contradiction |].
    split; [reflexivity |]. split; [reflexivity | contradiction].
Qed.

(** X11. How a line is recognised: a line that starts with [insert] is
    handed to [prepareInsertStatement], whatever follows the six letters;
    [select] is recognised only as the whole line; every other line is
    [PREPARE_UNRECOGNIZED_STATEMENT] and leaves the statement untouched. *)
Theorem statement_keywords (buffer : list byte) (statement : Statement) :
  ((exists rest, c_str buffer = kw_insert ++ rest) ->
   prepareStatement buffer statement
   = prepareInsertStatement buffer (as_insert statement)) /\
  (c_str buffer = kw_select ->
   prepareStatement buffer statement
   = Ok (PREPARE_SUCCESS,
         {| type := STATEMENT_SELECT;
            rowToInsert := rowToInsert statement |})) /\
  ((forall rest, c_str buffer <> kw_insert ++ rest) ->
   c_str buffer <> kw_select ->
   prepareStatement buffer statement
   = Ok (PREPARE_UNRECOGNIZED_STATEMENT, statement)).
Proof.
  pose proof (strncmp_prefix kw_insert
                (word_chars_nul_free _ kw_insert_word) buffer) as Hins.
  pose proof (strcmp_eq buffer kw_select kw_select_nul_free) as Hsel.
  change (length kw_insert) with 6%nat in Hins.
  split; [| split].
  - intros (rest & H). eapply prepareStatement_insert, H.
  - intros H. unfold prepareStatement.
    destruct (Z.eqb_spec (strncmp buffer kw_insert 6) 0) as [E | _].
    + apply Hins in E as (rest & E). rewrite H in E. discriminate.
    + rewrite (proj2 Hsel H). reflexivity.
  - intros Hno Hne. unfold prepareStatement.
    destruct (Z.eqb_spec (strncmp buffer kw_insert 6) 0) as [E | _].
    + apply Hins in E as (rest & E). exfalso. eapply Hno, E.
    + destruct (Z.eqb_spec (strcmp buffer kw_select) 0) as [E | _];
        [| reflexivity].
      apply Hsel in E. contradiction.
Qed.

(** A word followed by spaces only. *)
Lemma strtok_word_spaces w k :
  w <> [] -> word_chars w ->
  exists k', strtok (w ++ replicate k SPACE) = (Some w, replicate k' SPACE).
Proof.
  intros Hne Hw. destruct k as [| k].
  - exists 0%nat. rewrite app_nil_r. apply (strtok_word_end 0 w Hne Hw).
  - exists k. apply (strtok_word 0 w (replicate k SPACE) Hne Hw).
    apply Forall_replicate. discriminate.
Qed.

Lemma nul_free_word_spaces w k :
  word_chars w -> nul_free (w ++ replicate k SPACE).
Proof.
  intros Hw. apply Forall_app. split.
  - apply word_chars_nul_free, Hw.
  - apply Forall_replicate. discriminate.
Qed.

(** X12. An insert line with fewer than three arguments after its first
    word, the words one space apart and any number of spaces at the end,
    is a [PREPARE_SYNTAX_ERROR]. *)
Theorem insert_missing_arguments (buffer : list byte) (statement : Statement)
    (w0 : list byte) (args : list (list byte)) (k : nat) :
  c_str buffer
  = (kw_insert ++ w0) ++ concat ((fun a => SPACE :: a) <$> args)
      ++ replicate k SPACE ->
  word_chars w0 ->
  Forall (fun a => a <> [] /\ word_chars a) args ->
  (length args < 3)%nat ->
  prepareStatement buffer statement
  = Ok (PREPARE_SYNTAX_ERROR, as_insert statement).
Proof.
  intros Hshape Hw0 Hargs Hlen.
  rewrite (prepareStatement_insert buffer statement
             (w0 ++ concat ((fun a => SPACE :: a) <$> args)
                ++ replicate k SPACE))
    by (rewrite Hshape, <- app_assoc; reflexivity).
  assert (Hkw : word_chars (kw_insert ++ w0)).
  { apply Forall_app. split; [apply kw_insert_word | exact Hw0]. }
  assert (Hkw0 : kw_insert ++ w0 <> []) by discriminate.
  pose proof (strtok_spaces 0) as Hend. cbn [replicate] in Hend.
  unfold prepareInsertStatement. rewrite <- strtok_c_str, Hshape.
  destruct args as [| x [| y [| z args]]]; cbn [length] in Hlen; [| | | lia].
  - cbn [fmap list_fmap concat app].
    destruct (strtok_word_spaces _ k Hkw0 Hkw) as (k1 & ->).
    rewrite strtok_spaces, !Hend. reflexivity.
  - apply Forall_cons in Hargs as [[Hx0 Hx] _].
    replace ((kw_insert ++ w0)
               ++ concat ((fun a => SPACE :: a) <$> [x])
               ++ replicate k SPACE)
      with ((kw_insert ++ w0) ++ SPACE :: x ++ replicate k SPACE)
      by (cbn [fmap list_fmap concat app]; rewrite app_nil_r; reflexivity).
    rewrite (strtok_word 0 (kw_insert ++ w0) (x ++ replicate k SPACE)
               Hkw0 Hkw (nul_free_word_spaces x k Hx)
             : strtok ((kw_insert ++ w0) ++ SPACE :: x ++ replicate k SPACE)
               = _).
    destruct (strtok_word_spaces x k Hx0 Hx) as (k1 & ->).
    rewrite strtok_spaces, !Hend. reflexivity.
  - apply Forall_cons in Hargs as [[Hx0 Hx] Hargs].
    apply Forall_cons in Hargs as [[Hy0 Hy] _].
    replace ((kw_insert ++ w0)
               ++ concat ((fun a => SPACE :: a) <$> [x; y])
               ++ replicate k SPACE)
      with ((kw_insert ++ w0)
              ++ SPACE :: x ++ SPACE :: y ++ replicate k SPACE)
      by (cbn [fmap list_fmap concat app];
          rewrite app_nil_r, <- (app_assoc x); reflexivity).
    assert (Hrest : nul_free (x ++ SPACE :: y ++ replicate k SPACE)).
    { apply Forall_app. split; [apply word_chars_nul_free, Hx |].
      constructor; [discriminate | apply nul_free_word_spaces, Hy]. }
    rewrite (strtok_word 0 (kw_insert ++ w0)
               (x ++ SPACE :: y ++ replicate k SPACE) Hkw0 Hkw Hrest
             : strtok ((kw_insert ++ w0)
                         ++ SPACE :: x ++ SPACE :: y ++ replicate k SPACE)
               = _).
    rewrite (strtok_word 0 x (y ++ replicate k SPACE) Hx0 Hx
               (nul_free_word_spaces y k Hy)
             : strtok (x ++ SPACE :: y ++ replicate k SPACE) = _).
    destruct (strtok_word_spaces y k Hy0 Hy) as (k1 & ->).
    rewrite strtok_spaces. reflexivity.
Qed.

(** [atoi] of a token that does not start like a number. *)
Lemma atoi_not_a_number c s :
  c <> NUL -> isspace c = false ->
  c <> Byte.x2d -> c <> Byte.x2b -> digit_value c = None ->
  atoi (c :: s) = Ok 0.
Proof.
  intros Hnul Hsp Hminus Hplus Hdigit. unfold atoi. cbn [c_str].
  destruct (byte_eqb_spec c NUL); [contradiction |].
  cbn [skip_spaces]. rewrite Hsp.
  destruct (byte_eqb_spec c Byte.x2d); [contradiction |].
  destruct (byte_eqb_spec c Byte.x2b); [contradiction |].
  cbn [digits]. rewrite Hdigit. reflexivity.
Qed.

(** X13. An id that does not start like a number is taken as 0: when the
    second word of an insert line starts with a character that is no
    digit, no sign and no white space, and the two strings fit their
    columns, the line is accepted with id 0 and the two strings as
    typed. *)
Theorem insert_non_numeric_id (buffer : list byte) (statement : Statement)
    (w0 : list byte) (c0 : byte) (idrest u e : list byte) :
  c_str buffer
  = (kw_insert ++ w0) ++ SPACE :: (c0 :: idrest)
      ++ SPACE :: u ++ SPACE :: e ->
  word_chars w0 -> word_chars (c0 :: idrest) ->
  isspace c0 = false -> c0 <> Byte.x2d -> c0 <> Byte.x2b ->
  digit_value c0 = None ->
  u <> [] -> word_chars u -> Z.of_nat (length u) <= COLUMN_USERNAME_SIZE ->
  e <> [] -> word_chars e -> Z.of_nat (length e) <= COLUMN_EMAIL_SIZE ->
  exists statement',
    prepareStatement buffer statement = Ok (PREPARE_SUCCESS, statement') /\
    type statement' = STATEMENT_INSERT /\
    id (rowToInsert statement') = 0 /\
    c_str (username (rowToInsert statement')) = u /\
    c_str (email (rowToInsert statement')) = e.
Proof.
  intros Hshape Hw0 Hid Hsp Hminus Hplus Hdigit Hu0 Hu Hlu He0 He Hle.
  assert (Hnul : c0 <> NUL).
  { apply Forall_cons in Hid as [[H _] _]. exact H. }
  rewrite (prepareStatement_insert_line buffer statement w0 0 (c0 :: idrest)
             0 u 0 e [] 0); auto.
  - destruct (Z.ltb_spec COLUMN_USERNAME_SIZE (Z.of_nat (length u)));
      [lia |].
    destruct (Z.ltb_spec COLUMN_EMAIL_SIZE (Z.of_nat (length e))); [lia |].
    cbn [Z.ltb Z.compare]. eexists. split; [reflexivity |].
    cbn [type rowToInsert id username email].
    split; [reflexivity |]. split; [reflexivity |].
    rewrite !c_str_app by (apply word_chars_nul_free; assumption).
    cbn [c_str Byte.eqb]. rewrite !app_nil_r. auto.
  - rewrite Hshape, app_nil_r. reflexivity.
  - apply atoi_not_a_number; assumption.
Qed.

(** X14. The insert line, parsed: the line is a first word that starts
    with [insert], then an id word, a user name and an email, each after
    one or more spaces, then nothing or a space and anything; [atoi] gives
    [n] for the id word. The result is [PREPARE_NEGATIVE_ID] when [n < 0];
    else [PREPARE_STRING_TOO_LONG] when the user name has more than
    [COLUMN_USERNAME_SIZE] characters or the email more than
    [COLUMN_EMAIL_SIZE]; else [PREPARE_SUCCESS] with the row of [n], the
    user name and the email, each string followed by its terminator and
    then by what the array held before. *)
Theorem insert_line_parsed (buffer : list byte) (statement : Statement)
    (w0 : list byte) (a : nat) (idtok : list byte) (b : nat) (u : list byte)
    (c : nat) (e tail : list byte) (n : Z) :
  c_str buffer
  = (kw_insert ++ w0)
      ++ SPACE :: (replicate a SPACE ++ idtok
      ++ SPACE :: (replicate b SPACE ++ u
      ++ SPACE :: (replicate c SPACE ++ e ++ tail))) ->
  word_chars w0 ->
  idtok <> [] -> word_chars idtok ->
  u <> [] -> word_chars u ->
  e <> [] -> word_chars e ->
  tail = [] \/ (exists t, tail = SPACE :: t) ->
  atoi idtok = Ok n ->
  prepareStatement buffer statement
  = Ok (if n <? 0 then (PREPARE_NEGATIVE_ID, as_insert statement)
        else if COLUMN_USERNAME_SIZE <? Z.of_nat (length u)
        then (PREPARE_STRING_TOO_LONG, as_insert statement)
        else if COLUMN_EMAIL_SIZE <? Z.of_nat (length e)
        then (PREPARE_STRING_TOO_LONG, as_insert statement)
        else (PREPARE_SUCCESS,
              {| type := STATEMENT_INSERT;
                 rowToInsert :=
                   {| id := n;
                      username :=
                        u ++ NUL :: drop (S (length u))
                                      (username (rowToInsert statement));
                      email :=
                        e ++ NUL :: drop (S (length e))
                                      (email (rowToInsert statement)) |} |})).
Proof. apply prepareStatement_insert_line. Qed.

(** ** Decimal numbers *)


Lemma digit_of_Z d : 0 <= d <= 9 -> byte.unsigned (byte.of_Z (48 + d)) = 48 + d.
Proof.
  intros Hd. rewrite byte.unsigned_of_Z. unfold byte.wrap.
  apply Z.mod_small. lia.
Qed.

Lemma digit_value_digit c :
  digit c -> digit_value c = Some (byte.unsigned c - 48).
Proof.
  intros Hc. unfold digit_value, digit in *.
  destruct (Z.leb_spec 0 (byte.unsigned c - 48)); [| lia].
  destruct (Z.leb_spec (byte.unsigned c - 48) 9); [| lia].
  reflexivity.
Qed.

Lemma decimal_digits_digits fuel :
  forall n acc,
    0 <= n -> Forall digit acc -> Forall digit (decimal_digits fuel n acc).
Proof.
  induction fuel as [| fuel IH]; intros n acc Hn Hacc; [exact Hacc |].
  cbn [decimal_digits].
  assert (Hd : Forall digit (byte.of_Z (48 + n mod 10) :: acc)).
  { constructor; [| exact Hacc]. unfold digit.
    pose proof (Z.mod_pos_bound n 10 ltac:(lia)).
    rewrite digit_of_Z by lia. lia. }
  destruct (n <? 10); [exact Hd |].
  apply IH; [apply Z.div_pos; lia | exact Hd].
Qed.

Lemma decimal_digits_nonempty fuel n acc :
  decimal_digits (S fuel) n acc <> [].
Proof.
  revert n acc. induction fuel as [| fuel IH]; intros n acc.
  - cbn. destruct (n <? 10); discriminate.
  - change (decimal_digits (S (S fuel)) n acc)
      with (let acc' := byte.of_Z (48 + n mod 10) :: acc in
            if n <? 10 then acc' else decimal_digits (S fuel) (n / 10) acc').
    cbv zeta. destruct (n <? 10); [discriminate | apply IH].
Qed.

Lemma decimal_digits_value fuel :
  forall n acc,
    0 <= n < 10 ^ Z.of_nat fuel ->
    digits 0 (decimal_digits fuel n acc) = digits n acc.
Proof.
  induction fuel as [| fuel IH]; intros n acc Hn.
  - cbn in Hn. replace n with 0 by lia. reflexivity.
  - cbn [decimal_digits].
    pose proof (Z.mod_pos_bound n 10 ltac:(lia)) as Hm.
    pose proof (Z.div_mod n 10 ltac:(lia)) as Hdm.
    assert (Hstep : digits (n / 10) (byte.of_Z (48 + n mod 10) :: acc)
                    = digits n acc).
    { cbn [digits]. rewrite digit_value_digit
        by (unfold digit; rewrite digit_of_Z by lia; lia).
      rewrite digit_of_Z by lia. f_equal. lia. }
    destruct (Z.ltb_spec n 10) as [Hsmall | Hbig].
    + rewrite <- Hstep. rewrite Z.div_small by lia. reflexivity.
    + rewrite IH; [exact Hstep |].
      split; [apply Z.div_pos; lia |].
      apply Z.div_lt_upper_bound; [lia |].
      rewrite Nat2Z.inj_succ, Z.pow_succ_r in Hn by lia. lia.
Qed.

Lemma decimal_fuel n : 0 <= n -> n < 10 ^ Z.of_nat (S (Z.to_nat (Z.log2 n))).
Proof.
  intros Hn. destruct (decide (n = 0)) as [-> | Hne]; [reflexivity |].
  pose proof (Z.log2_nonneg n) as Hl.
  pose proof (Z.log2_spec n ltac:(lia)) as [_ Hup].
  rewrite Nat2Z.inj_succ, Z2Nat.id by lia.
  eapply Z.lt_le_trans; [exact Hup |].
  apply Z.pow_le_mono_l. lia.
Qed.

Lemma decimal_digits_ok n :
  0 <= n -> decimal n <> [] /\ Forall digit (decimal n).
Proof.
  intros Hn. unfold decimal. split.
  - apply decimal_digits_nonempty.
  - apply decimal_digits_digits; [exact Hn | constructor].
Qed.

Lemma digit_char c :
  digit c ->
  c <> NUL /\ c <> SPACE /\ c <> NEWLINE /\ c <> Byte.x2d /\ c <> Byte.x2b /\
  isspace c = false.
Proof.
  unfold digit. intros Hc.
  assert (Hne : forall b, ~ 48 <= byte.unsigned b <= 57 -> c <> b).
  { intros b Hb ->. contradiction. }
  repeat split; try (apply Hne; cbn; lia).
  unfold isspace. destruct (byte_eqb_spec c SPACE) as [-> | _];
    [cbn in Hc; lia |].
  cbn [orb]. destruct (Z.leb_spec (byte.unsigned c) 13); [lia |].
  apply andb_false_r.
Qed.

Lemma digits_word w : Forall digit w -> word_chars w.
Proof.
  intros H. eapply Forall_impl; [exact H |].
  intros ch Hch. apply digit_char in Hch. cbv beta. tauto.
Qed.

Lemma digits_end n : digits n [] = n.
Proof. reflexivity. Qed.

(** [atoi] reads back what [%d] printed. *)
Lemma atoi_decimal n : 0 <= n <= INT_MAX -> atoi (decimal n) = Ok n.
Proof.
  intros Hn. destruct (decimal_digits_ok n ltac:(lia)) as [Hne Hdig].
  pose proof (decimal_digits_value _ n [] (conj (proj1 Hn) (decimal_fuel n (proj1 Hn))))
    as Hval.
  fold (decimal n) in Hval. cbn [digits] in Hval.
  unfold atoi. rewrite c_str_id by (apply word_chars_nul_free, digits_word, Hdig).
  destruct (decimal n) as [| c s]; [contradiction |].
  apply Forall_cons in Hdig as [Hc _]. apply digit_char in Hc
    as (_ & _ & _ & Hminus & Hplus & Hsp).
  cbn [skip_spaces]. rewrite Hsp.
  destruct (byte_eqb_spec c Byte.x2d); [contradiction |].
  destruct (byte_eqb_spec c Byte.x2b); [contradiction |].
  rewrite Hval. unfold INT_MIN, INT_MAX in *.
  destruct (Z.leb_spec (- 2 ^ 31) n); [| lia].
  destruct (Z.leb_spec n (2 ^ 31 - 1)); [| lia].
  reflexivity.
Qed.

(** ** Printing rows *)





(** ** Selects that print *)

Lemma printRow_terminated r :
  terminated r -> exists line, printRow r = Ok line.
Proof.
  intros [Hu He]. unfold printRow, print_str.
  apply Z.ltb_lt in Hu, He. rewrite Hu, He. cbn [bind]. eauto.
Qed.

Lemma valid_row_terminated r : valid_row r -> terminated r.
Proof.
  intros ((_ & Hu & He) & Hsu & Hse). unfold terminated.
  rewrite Hu, He. unfold COLUMN_USERNAME_SIZE, COLUMN_EMAIL_SIZE in *.
  consts. lia.
Qed.

Lemma printRows_terminated rows :
  Forall terminated rows -> exists text, printRows rows = Ok text.
Proof.
  induction 1 as [| r rows Hr _ (text & IH)]; [exists []; reflexivity |].
  destruct (printRow_terminated r Hr) as (line & Hline).
  exists (line ++ text). cbn [printRows]. rewrite Hline. cbn [bind].
  rewrite IH. reflexivity.
Qed.

Lemma printRows_app rows1 rows2 text1 text2 :
  printRows rows1 = Ok text1 -> printRows rows2 = Ok text2 ->
  printRows (rows1 ++ rows2) = Ok (text1 ++ text2).
Proof.
  revert text1. induction rows1 as [| r rows1 IH]; intros text1 H1 H2.
  - cbn in H1. injection H1 as <-. exact H2.
  - cbn [app printRows] in *.
    destruct (printRow r) as [line | e |]; cbn [bind] in *; try discriminate.
    destruct (printRows rows1) as [text | e |]; cbn [bind] in *;
      try discriminate.
    injection H1 as <-. rewrite (IH text eq_refl H2). cbn [bind].
    rewrite app_assoc. reflexivity.
Qed.

Lemma elem_of_row_numbers i n j :
  j ∈ row_numbers i n -> i <= j < i + Z.of_nat n.
Proof.
  unfold row_numbers. intros H.
  apply list_elem_of_fmap in H as (k & -> & Hk).
  apply elem_of_seq in Hk. lia.
Qed.

Section PrintingSelects.

Variable malloc : Z -> page.

(** The rows a select collects come after those it was given. *)
Lemma selectRows_extends n :
  forall i table out res table',
    selectRows malloc n i table out = Ok (res, table') ->
    exists rows, res = out ++ rows.
Proof.
  induction n as [| n IH]; intros i table out res table'; cbn [selectRows].
  - intros H. injection H as <- _. exists []. rewrite app_nil_r. reflexivity.
  - destruct (rowSlot malloc table i) as [[src t1] | e |]; cbn [bind];
      try discriminate.
    intros H. apply IH in H as (rows & ->).
    eexists. rewrite <- app_assoc. reflexivity.
Qed.

(** The loop with [printRow] in place prints the rows the loop without it
    collects, and fails where printing them fails. *)
Lemma printSelectedRows_fetched n :
  forall i table out rows table' text0,
    selectRows malloc n i table out = Ok (out ++ rows, table') ->
    printSelectedRows malloc n i table text0
    = let* text := printRows rows in Ok (text0 ++ text, table').
Proof.
  induction n as [| n IH]; intros i table out rows table' text0;
    cbn [selectRows printSelectedRows].
  - intros H. injection H as Hout <-.
    assert (rows = []) as ->.
    { apply (app_inv_head out). rewrite app_nil_r. symmetry. exact Hout. }
    cbn [printRows bind]. rewrite app_nil_r. reflexivity.
  - destruct (rowSlot malloc table i) as [[src t1] | e |]; cbn [bind];
      try discriminate.
    set (row := deserializeRow (buffer (pager t1) src) (at_byte src)).
    intros H.
    destruct (selectRows_extends _ _ _ _ _ _ H) as (rows' & Hrows).
    rewrite <- app_assoc in Hrows. apply app_inv_head in Hrows.
    cbn [app] in Hrows. subst rows.
    replace (out ++ row :: rows') with ((out ++ [row]) ++ rows') in H
      by (rewrite <- app_assoc; reflexivity).
    cbn [printRows].
    destruct (printRow row) as [line | e |]; cbn [bind]; try reflexivity.
    rewrite (IH _ _ _ _ _ (text0 ++ line) H).
    destruct (printRows rows') as [text | e |]; cbn [bind]; try reflexivity.
    rewrite app_assoc. reflexivity.
Qed.

(** A select statement through [executeStatement]. *)
Lemma executeStatement_select statement table rows table' :
  type statement = STATEMENT_SELECT ->
  executeSelectStatement malloc table = Ok (EXECUTE_SUCCESS, rows, table') ->
  executeStatement malloc statement table
  = let* text := printRows rows in Ok (EXECUTE_SUCCESS, text, table').
Proof.
  intros Ht. unfold executeSelectStatement, executeStatement. rewrite Ht.
  destruct (selectRows malloc _ 0 table []) as [[rows0 t1] | e |] eqn:Hsel;
    cbn [bind]; try discriminate.
  intros H. injection H as <- <-.
  rewrite (printSelectedRows_fetched _ _ _ [] rows0 t1 [] Hsel).
  destruct (printRows rows0); reflexivity.
Qed.

Lemma executeStatement_insert statement table :
  type statement = STATEMENT_INSERT ->
  executeStatement malloc statement table
  = let* (result, table') :=
      executeInsertStatement malloc (rowToInsert statement) table in
    Ok (result, [], table').
Proof. intros Ht. unfold executeStatement. rewrite Ht. reflexivity. Qed.

End PrintingSelects.

(** X2. A select can be repeated: on any table as the C types have it
    with at most [TABLE_MAX_ROWS] rows, its pages resident or not, whose
    rows all have their strings terminated, the select statement succeeds
    and prints the [numRows] rows the table holds; a second select on the
    table it leaves prints the same text and leaves that table as it is.
    The row count, the file and the recorded file length are those of
    before. *)
Theorem select_repeatable (malloc : Z -> page) (table : Table)
    (statement : Statement) :
  (forall n, Z.of_nat (length (malloc n)) = PAGE_SIZE) ->
  struct_Pager (pager table) ->
  0 <= numRows table <= TABLE_MAX_ROWS ->
  type statement = STATEMENT_SELECT ->
  (forall i, 0 <= i < numRows table ->
     terminated (row_view malloc (pager table) i)) ->
  exists text table',
    executeStatement malloc statement table
    = Ok (EXECUTE_SUCCESS, text, table') /\
    executeStatement malloc statement table'
    = Ok (EXECUTE_SUCCESS, text, table') /\
    printRows (row_view malloc (pager table)
                 <$> row_numbers 0 (Z.to_nat (numRows table)))
    = Ok text /\
    numRows table' = numRows table /\
    contents (fd (pager table')) = contents (fd (pager table)) /\
    fLen (pager table') = fLen (pager table).
Proof.
  intros Hm Hs Hn Ht Hrows.
  destruct (executeSelectStatement_view malloc Hm table Hs Hn)
    as (t' & H1 & H2 & _ & Hn' & Hc & Hf & _).
  destruct (printRows_terminated
              (row_view malloc (pager table)
                 <$> row_numbers 0 (Z.to_nat (numRows table))))
    as (text & Htext).
  { apply Forall_fmap, Forall_forall. intros i Hi.
    apply elem_of_row_numbers in Hi. apply Hrows. lia. }
  exists text, t'.
  rewrite (executeStatement_select malloc statement table _ t' Ht H1).
  rewrite (executeStatement_select malloc statement t' _ t' Ht H2).
  rewrite Htext. cbn [bind]. auto 10.
Qed.

(** X3. Insert then select, on any table below capacity whose rows all
    have their strings terminated, whether its pages are resident or not:
    the insert of a row within capacity succeeds and prints nothing, and
    the select after it prints what a select before it prints, followed by
    the line of the inserted row. *)
Theorem select_after_insert (malloc : Z -> page) (table : Table)
    (statement : Statement) (r : Row) :
  (forall n, Z.of_nat (length (malloc n)) = PAGE_SIZE) ->
  struct_Pager (pager table) ->
  0 <= numRows table < TABLE_MAX_ROWS ->
  type statement = STATEMENT_SELECT ->
  (forall i, 0 <= i < numRows table ->
     terminated (row_view malloc (pager table) i)) ->
  valid_row r ->
  exists text seen inserted line seen',
    executeStatement malloc statement table
    = Ok (EXECUTE_SUCCESS, text, seen) /\
    executeStatement malloc
      {| type := STATEMENT_INSERT; rowToInsert := r |} table
    = Ok (EXECUTE_SUCCESS, [], inserted) /\
    printRow r = Ok line /\
    executeStatement malloc statement inserted
    = Ok (EXECUTE_SUCCESS, text ++ line, seen').
Proof.
  intros Hm Hs Hn Ht Hrows Hr.
  destruct (executeSelectStatement_view malloc Hm table Hs ltac:(lia))
    as (seen & H1 & _).
  destruct (executeInsertStatement_view malloc Hm r table Hs Hn (proj1 Hr))
    as (t1 & Hx & Hs1 & Hn1 & _ & Hold & Hnew).
  destruct (executeSelectStatement_view malloc Hm t1 Hs1 ltac:(lia))
    as (seen' & H2 & _).
  set (rows := row_view malloc (pager table)
                 <$> row_numbers 0 (Z.to_nat (numRows table))) in *.
  assert (Hafter : row_view malloc (pager t1)
                     <$> row_numbers 0 (Z.to_nat (numRows t1))
                   = rows ++ [r]).
  { rewrite Hn1.
    replace (Z.to_nat (numRows table + 1))
      with (S (Z.to_nat (numRows table))) by lia.
    rewrite row_numbers_snoc, fmap_app. cbn [fmap list_fmap].
    replace (0 + Z.of_nat (Z.to_nat (numRows table))) with (numRows table)
      by lia.
    rewrite Hnew. f_equal.
    apply list_fmap_ext. intros idx k Hk.
    apply list_elem_of_lookup_2, elem_of_row_numbers in Hk.
    apply Hold. lia. }
  rewrite Hafter in H2.
  destruct (printRows_terminated rows) as (text & Htext).
  { apply Forall_fmap, Forall_forall. intros i Hi.
    apply elem_of_row_numbers in Hi. apply Hrows. lia. }
  destruct (printRow_terminated r (valid_row_terminated r Hr))
    as (line & Hline).
  assert (Hone : printRows [r] = Ok line).
  { cbn [printRows]. rewrite Hline. cbn [bind]. rewrite app_nil_r.
    reflexivity. }
  exists text, seen, t1, line, seen'.
  rewrite (executeStatement_select malloc statement table _ seen Ht H1).
  rewrite (executeStatement_select malloc statement t1 _ seen' Ht H2).
  rewrite (executeStatement_insert malloc
             {| type := STATEMENT_INSERT; rowToInsert := r |} table eq_refl).
  cbn [rowToInsert]. rewrite Hx, Htext, (printRows_app _ _ _ _ Htext Hone).
  cbn [bind]. auto.
Qed.

(** X4. Persistence round trip up to 25 rows: at most 25 rows within
    capacity are inserted into a store opened on an empty file and the
    store is closed; the file reopened, with any allocator, counts as many
    rows as were inserted and its select statement prints exactly these
    rows, in order. *)
Theorem reopen_select_up_to_25 (malloc malloc' : Z -> page) (rows : list Row)
    (statement : Statement) :
  (forall n, Z.of_nat (length (malloc n)) = PAGE_SIZE) ->
  (forall n, Z.of_nat (length (malloc' n)) = PAGE_SIZE) ->
  Z.of_nat (length rows) <= 25 ->
  Forall valid_row rows ->
  type statement = STATEMENT_SELECT ->
  exists file text table',
    session malloc rows [] = Ok file /\
    numRows (openDatabase file) = Z.of_nat (length rows) /\
    printRows rows = Ok text /\
    executeStatement malloc' statement (openDatabase file)
    = Ok (EXECUTE_SUCCESS, text, table').
Proof.
  intros Hm Hm' Hlen Hvalid Ht.
  destruct (reopened_rows_up_to_25 malloc malloc' rows Hm Hm' Hlen
              (valid_rows_struct rows Hvalid))
    as (file & table' & Hrun & Hn & Hsel).
  destruct (printRows_terminated rows) as (text & Htext).
  { eapply Forall_impl; [exact Hvalid |]. apply valid_row_terminated. }
  exists file, text, table'.
  rewrite (executeStatement_select malloc' statement _ rows table' Ht Hsel).
  rewrite Htext. cbn [bind]. auto.
Qed.

(** ** Reading lines *)






Lemma prepareStatement_command c statement :
  command_ok c ->
  prepareStatement (command_buffer c) statement
  = Ok (PREPARE_SUCCESS,
        {| type := STATEMENT_INSERT;
           rowToInsert := command_row (rowToInsert statement) c |}).
Proof.
  intros (Hid & Hu & He).
  destruct (decimal_digits_ok (cmd_id c) ltac:(lia)) as [Hd0 Hd].
  pose proof (digits_word _ Hd) as Hdw.
  destruct Hu as (Hu0 & Hu & Hlu), He as (He0 & He & Hle).
  assert (Huw : word_chars (cmd_user c)).
  { eapply Forall_impl; [exact Hu |]. intros ch Hch. cbv beta in *. tauto. }
  assert (Hew : word_chars (cmd_email c)).
  { eapply Forall_impl; [exact He |]. intros ch Hch. cbv beta in *. tauto. }
  rewrite (prepareStatement_insert_line (command_buffer c) statement []
             0 (decimal (cmd_id c)) 0 (cmd_user c) 0 (cmd_email c) []
             (cmd_id c)); auto.
  - destruct (Z.ltb_spec (cmd_id c) 0); [lia |].
    destruct (Z.ltb_spec COLUMN_USERNAME_SIZE (Z.of_nat (length (cmd_user c))));
      [lia |].
    destruct (Z.ltb_spec COLUMN_EMAIL_SIZE (Z.of_nat (length (cmd_email c))));
      [lia |].
    reflexivity.
  - rewrite c_str_id.
    + unfold command_buffer. rewrite !app_nil_r. reflexivity.
    + unfold command_buffer.
      apply Forall_app. split; [apply word_chars_nul_free, kw_insert_word |].
      constructor; [discriminate |]. apply Forall_app.
      split; [apply word_chars_nul_free, Hdw |].
      constructor; [discriminate |]. apply Forall_app.
      split; [apply word_chars_nul_free, Huw |].
      constructor; [discriminate |]. apply word_chars_nul_free, Hew.
  - constructor.
  - apply atoi_decimal. exact Hid.
Qed.


(** ** Steps of the command loop *)

Section Loop.

Variable malloc : Z -> page.
Variable uninitialised : nat -> Statement.








End Loop.


(** ** The rows of typed commands *)






(** ** What the statements leave of the file *)

Section Contents.

Variable malloc : Z -> page.
Variable uninitialised : nat -> Statement.

Lemma getPage_file pager pageNum buf pager' :
  getPage malloc pager pageNum = Ok (buf, pager') ->
  contents (fd pager') = contents (fd pager) /\ fLen pager' = fLen pager.
Proof.
  unfold getPage. destruct (_ <? _); [discriminate |].
  destruct (slot pager pageNum) as [[p |] | e |]; cbn [bind];
    try discriminate.
  - intros H. injection H as _ <-. auto.
  - destruct (pageNum <=? _).
    + cbn [lseek_set read]. destruct (_ =? -1); cbn [bind];
        [discriminate |].
      intros H. injection H as _ <-. auto.
    + cbn [bind]. intros H. injection H as _ <-. auto.
Qed.

Lemma rowSlot_file table rowNum p table' :
  rowSlot malloc table rowNum = Ok (p, table') ->
  contents (fd (pager table')) = contents (fd (pager table)) /\
  fLen (pager table') = fLen (pager table).
Proof.
  unfold rowSlot.
  destruct (getPage malloc (pager table) _) as [[b pg] | e |] eqn:Hg;
    cbn [bind]; try discriminate.
  intros H. injection H as _ <-. cbn [pager].
  eapply getPage_file. exact Hg.
Qed.

Lemma executeInsertStatement_file r table res table' :
  executeInsertStatement malloc r table = Ok (res, table') ->
  contents (fd (pager table')) = contents (fd (pager table)) /\
  fLen (pager table') = fLen (pager table).
Proof.
  unfold executeInsertStatement. destruct (_ <=? _).
  - intros H. injection H as _ <-. auto.
  - destruct (rowSlot malloc table _) as [[p t1] | e |] eqn:Hr;
      cbn [bind]; try discriminate.
    intros H. injection H as _ <-. cbn [pager set_slot fd fLen].
    eapply rowSlot_file. exact Hr.
Qed.

Lemma printSelectedRows_file n :
  forall i table text res table',
    printSelectedRows malloc n i table text = Ok (res, table') ->
    contents (fd (pager table')) = contents (fd (pager table)) /\
    fLen (pager table') = fLen (pager table).
Proof.
  induction n as [| n IH]; intros i table text res table';
    cbn [printSelectedRows].
  - intros H. injection H as _ <-. auto.
  - destruct (rowSlot malloc table i) as [[p t1] | e |] eqn:Hr;
      cbn [bind]; try discriminate.
    destruct (printRow _) as [line | e |]; cbn [bind]; try discriminate.
    intros H. apply IH in H as [-> ->]. eapply rowSlot_file. exact Hr.
Qed.

Lemma executeStatement_file statement table res text table' :
  executeStatement malloc statement table = Ok (res, text, table') ->
  contents (fd (pager table')) = contents (fd (pager table)) /\
  fLen (pager table') = fLen (pager table).
Proof.
  unfold executeStatement. destruct (type statement).
  - destruct (executeInsertStatement malloc _ table) as [[r t1] | e |] eqn:Hx;
      cbn [bind]; try discriminate.
    intros H. injection H as _ _ <-.
    eapply executeInsertStatement_file. exact Hx.
  - destruct (printSelectedRows malloc _ 0 table []) as [[txt t1] | e |]
      eqn:Hx; cbn [bind]; try discriminate.
    intros H. injection H as _ _ <-.
    eapply printSelectedRows_file. exact Hx.
Qed.

End Contents.

(** X20. The statements never write the file: whatever the statement and
    the table, when [executeStatement] returns, the file behind the
    descriptor and the recorded file length are as they were before it.
    What an insert stores stays in the page buffers until
    [closeDatabase] runs. *)
Theorem statements_leave_file (malloc : Z -> page) (statement : Statement)
    (table table' : Table) (res : ExecuteResult) (text : list byte) :
  executeStatement malloc statement table = Ok (res, text, table') ->
  contents (fd (pager table')) = contents (fd (pager table)) /\
  fLen (pager table') = fLen (pager table).
Proof. apply executeStatement_file. Qed.


(** ** The last byte of the input *)






(** ** The input buffer *)

(** X19. The block [newInputBuffer] allocates has the size of a pointer,
    [sizeof(inputBuffer)], not of [struct InputBuffer]: under every data
    model in which pointers and [size_t] take up room, the store to
    [buffer] is inside the block and the store to [bufferLength] that
    follows is outside it, so the call has no defined result. *)
Theorem newInputBuffer_block_too_small (dm : DataModel) :
  0 < sizeof_pointer dm -> 0 < sizeof_size_t dm ->
  store_in (sizeof_pointer dm) offsetof_buffer (sizeof_pointer dm) = Ok tt /\
  store_in (sizeof_pointer dm) (offsetof_bufferLength dm) (sizeof_size_t dm)
  = Undefined /\
  newInputBuffer dm = Undefined.
Proof.
  intros Hp Hs.
  assert (H1 : store_in (sizeof_pointer dm) offsetof_buffer (sizeof_pointer dm)
               = Ok tt).
  { unfold store_in, offsetof_buffer. cbn [Z.leb Z.compare andb Z.add].
    rewrite Z.leb_refl. reflexivity. }
  assert (H2 : store_in (sizeof_pointer dm) (offsetof_bufferLength dm)
                 (sizeof_size_t dm) = Undefined).
  { unfold store_in, offsetof_bufferLength.
    destruct (Z.leb_spec (sizeof_pointer dm + sizeof_size_t dm)
                (sizeof_pointer dm)); [lia |].
    rewrite andb_false_r. reflexivity. }
  split; [exact H1 |]. split; [exact H2 |].
  unfold newInputBuffer. rewrite H1. cbn [bind]. rewrite H2. reflexivity.
Qed.

Lemma newInputBuffer_undefined dm :
  0 < sizeof_pointer dm -> 0 < sizeof_size_t dm ->
  newInputBuffer dm = Undefined.
Proof.
  intros Hp Hs. unfold newInputBuffer, store_in, offsetof_buffer,
    offsetof_bufferLength.
  cbn [Z.leb Z.compare andb Z.add]. rewrite Z.leb_refl. cbn [bind].
  destruct (Z.leb_spec (sizeof_pointer dm + sizeof_size_t dm)
              (sizeof_pointer dm)); [lia |].
  rewrite andb_false_r. reflexivity.
Qed.

(** X21. [main] as a whole: without a file name it prints
    [Must supply a database filename.] and exits with [EXIT_FAILURE]; with
    one, under every data model in which pointers and [size_t] take up
    room, it opens the table and then writes outside the block of
    [newInputBuffer], before the first prompt and whatever the file and
    the input are, so the run has no defined behaviour. *)
Theorem main_undefined_run (malloc : Z -> page)
    (uninitialised : nat -> Statement) (dm : DataModel)
    (stdin : list byte) :
  main malloc uninitialised dm None stdin
  = Exited EXIT_FAILURE msg_usage [] /\
  (0 < sizeof_pointer dm -> 0 < sizeof_size_t dm ->
   forall bytes, main malloc uninitialised dm (Some bytes) stdin = Fault []).
Proof.
  split; [reflexivity |]. intros Hp Hs bytes. unfold main.
  rewrite (newInputBuffer_undefined dm Hp Hs). reflexivity.
Qed.

(** ** The further theorems at sample inputs *)

Lemma sample_command_ok : command_ok sample_command.
Proof.
  unfold command_ok, argument, sample_command.
  cbn [cmd_id cmd_user cmd_email].
  repeat split; try discriminate; try (vm_compute; congruence);
    repeat constructor; discriminate.
Qed.




Lemma zeros_row_terminated i :
  0 <= i < numRows (openDatabase (zeros 293)) ->
  terminated (row_view junk (pager (openDatabase (zeros 293))) i).
Proof.
  intros Hi. assert (i = 0) as ->
    by (change (numRows (openDatabase (zeros 293))) with 1 in Hi; lia).
  vm_compute. split; reflexivity.
Qed.

(** The repeated select (X2) on a file of one record of zero bytes. *)
Lemma select_repeatable_witness :
  (forall n, Z.of_nat (length (junk n)) = PAGE_SIZE) /\
  struct_Pager (pager (openDatabase (zeros 293))) /\
  0 <= numRows (openDatabase (zeros 293)) <= TABLE_MAX_ROWS /\
  type sample_statement = STATEMENT_SELECT /\
  (forall i, 0 <= i < numRows (openDatabase (zeros 293)) ->
     terminated (row_view junk (pager (openDatabase (zeros 293))) i)) /\
  exists text table',
    executeStatement junk sample_statement (openDatabase (zeros 293))
    = Ok (EXECUTE_SUCCESS, text, table') /\
    executeStatement junk sample_statement table'
    = Ok (EXECUTE_SUCCESS, text, table').
Proof.
  assert (H2 : struct_Pager (pager (openDatabase (zeros 293))))
    by apply openPager_struct.
  assert (H3 : 0 <= numRows (openDatabase (zeros 293)) <= TABLE_MAX_ROWS)
    by (vm_compute; split; congruence).
  assert (H4 : type sample_statement = STATEMENT_SELECT) by reflexivity.
  split; [exact junk_size |]. split; [exact H2 |]. split; [exact H3 |].
  split; [exact H4 |]. split; [exact zeros_row_terminated |].
  destruct (select_repeatable junk (openDatabase (zeros 293))
              sample_statement junk_size H2 H3 H4 zeros_row_terminated)
    as (text & table' & Hs & Hs' & _).
  exists text, table'. split; [exact Hs | exact Hs'].
Defined.

(** Insert then select (X3) on the same file. *)
Lemma select_after_insert_witness :
  (forall n, Z.of_nat (length (junk n)) = PAGE_SIZE) /\
  struct_Pager (pager (openDatabase (zeros 293))) /\
  0 <= numRows (openDatabase (zeros 293)) < TABLE_MAX_ROWS /\
  type sample_statement = STATEMENT_SELECT /\
  (forall i, 0 <= i < numRows (openDatabase (zeros 293)) ->
     terminated (row_view junk (pager (openDatabase (zeros 293))) i)) /\
  valid_row (sample_row 1) /\
  exists text seen inserted line seen',
    executeStatement junk sample_statement (openDatabase (zeros 293))
    = Ok (EXECUTE_SUCCESS, text, seen) /\
    executeStatement junk
      {| type := STATEMENT_INSERT; rowToInsert := sample_row 1 |}
      (openDatabase (zeros 293))
    = Ok (EXECUTE_SUCCESS, [], inserted) /\
    printRow (sample_row 1) = Ok line /\
    executeStatement junk sample_statement inserted
    = Ok (EXECUTE_SUCCESS, text ++ line, seen').
Proof.
  assert (H2 : struct_Pager (pager (openDatabase (zeros 293))))
    by apply openPager_struct.
  assert (H3 : 0 <= numRows (openDatabase (zeros 293)) < TABLE_MAX_ROWS)
    by (vm_compute; split; congruence).
  assert (H4 : type sample_statement = STATEMENT_SELECT) by reflexivity.
  assert (H6 : valid_row (sample_row 1)) by (apply sample_row_valid; lia).
  split; [exact junk_size |]. split; [exact H2 |]. split; [exact H3 |].
  split; [exact H4 |]. split; [exact zeros_row_terminated |].
  split; [exact H6 |].
  exact (select_after_insert junk (openDatabase (zeros 293))
           sample_statement (sample_row 1)
           junk_size H2 H3 H4 zeros_row_terminated H6).
Defined.

(** The persistence round trip (X4) for 14 rows. *)
Lemma reopen_select_up_to_25_witness :
  (forall n, Z.of_nat (length (junk n)) = PAGE_SIZE) /\
  Z.of_nat (length (sample_rows 14)) <= 25 /\
  Forall valid_row (sample_rows 14) /\
  type sample_statement = STATEMENT_SELECT /\
  exists file text table',
    session junk (sample_rows 14) [] = Ok file /\
    numRows (openDatabase file) = Z.of_nat (length (sample_rows 14)) /\
    printRows (sample_rows 14) = Ok text /\
    executeStatement junk sample_statement (openDatabase file)
    = Ok (EXECUTE_SUCCESS, text, table').
Proof.
  assert (H2 : Z.of_nat (length (sample_rows 14)) <= 25)
    by (vm_compute; congruence).
  assert (H3 : Forall valid_row (sample_rows 14))
    by (apply sample_rows_valid; lia).
  assert (H4 : type sample_statement = STATEMENT_SELECT) by reflexivity.
  split; [exact junk_size |]. split; [exact H2 |]. split; [exact H3 |].
  split; [exact H4 |].
  exact (reopen_select_up_to_25 junk junk (sample_rows 14) sample_statement
           junk_size junk_size H2 H3 H4).
Defined.

(** The oversized table (X5): the file of 100 whole pages that a full
    table leaves is opened with 1397 rows. *)
Lemma oversized_table_witness :
  (forall n, Z.of_nat (length (junk n)) = PAGE_SIZE) /\
  struct_Pager (pager (openDatabase (zeros (TABLE_MAX_PAGES * PAGE_SIZE)))) /\
  TABLE_MAX_ROWS < numRows (openDatabase (zeros (TABLE_MAX_PAGES * PAGE_SIZE)))
  /\
  executeSelectStatement junk
    (openDatabase (zeros (TABLE_MAX_PAGES * PAGE_SIZE))) = Undefined /\
  closeDatabase (openDatabase (zeros (TABLE_MAX_PAGES * PAGE_SIZE)))
  = Undefined.
Proof.
  assert (H2 : struct_Pager
                 (pager (openDatabase (zeros (TABLE_MAX_PAGES * PAGE_SIZE)))))
    by apply openPager_struct.
  assert (H3 : TABLE_MAX_ROWS
               < numRows (openDatabase (zeros (TABLE_MAX_PAGES * PAGE_SIZE))))
    by (vm_compute; reflexivity).
  split; [exact junk_size |]. split; [exact H2 |]. split; [exact H3 |].
  exact (proj2 (oversized_table junk
                  (openDatabase (zeros (TABLE_MAX_PAGES * PAGE_SIZE)))
                  (sample_row 1) junk_size H2 H3)).
Defined.

(** Opening and closing (X6) a file of one record. *)
Lemma open_close_unchanged_witness :
  numRows (openDatabase (zeros 293)) <= TABLE_MAX_ROWS /\
  closeDatabase (openDatabase (zeros 293)) = Ok (zeros 293).
Proof.
  assert (H : numRows (openDatabase (zeros 293)) <= TABLE_MAX_ROWS)
    by (vm_compute; congruence).
  split; [exact H |].
  exact (open_close_unchanged (zeros 293) H).
Defined.

(** A flush (X7) of the first record of page 1 into an empty file. *)
Lemma flushPager_writes_witness :
  pages (set_slot (openPager []) 1 (Some (junk 1))) !! Z.to_nat 1
  = Some (Some (junk 1)) /\
  0 <= 1 < TABLE_MAX_PAGES /\
  0 <= 293 <= Z.of_nat (length (junk 1)) /\
  exists pager',
    flushPager (set_slot (openPager []) 1 (Some (junk 1))) 1 293
    = Ok pager' /\
    Z.of_nat (length (contents (fd pager'))) = 4096 + 293.
Proof.
  assert (H1 : pages (set_slot (openPager []) 1 (Some (junk 1))) !! Z.to_nat 1
               = Some (Some (junk 1))) by reflexivity.
  assert (H2 : 0 <= 1 < TABLE_MAX_PAGES) by (change (0 <= 1 < 100); lia).
  assert (H3 : 0 <= 293 <= Z.of_nat (length (junk 1)))
    by (rewrite junk_size; change (0 <= 293 <= 4096); lia).
  split; [exact H1 |]. split; [exact H2 |]. split; [exact H3 |].
  destruct (flushPager_writes (set_slot (openPager []) 1 (Some (junk 1)))
              1 293 (junk 1) H1 H2 H3)
    as (pager' & Hf & _ & _ & _ & Hpos).
  exists pager'. split; [exact Hf |].
  rewrite (proj1 (Hpos ltac:(lia))). reflexivity.
Defined.

(** The heap bytes in the file (X8) after 14 rows. *)
Lemma close_writes_heap_padding_witness :
  (forall n, Z.of_nat (length (junk n)) = PAGE_SIZE) /\
  Z.of_nat (length (sample_rows 14)) <= TABLE_MAX_ROWS /\
  Forall struct_Row (sample_rows 14) /\
  exists file,
    session junk (sample_rows 14) [] = Ok file /\
    bytes_at file (0 * PAGE_SIZE + ROWS_PER_PAGE * ROW_SIZE)
      (PAGE_SIZE - ROWS_PER_PAGE * ROW_SIZE)
    = bytes_at (junk 0) (ROWS_PER_PAGE * ROW_SIZE)
        (PAGE_SIZE - ROWS_PER_PAGE * ROW_SIZE).
Proof.
  assert (H2 : Z.of_nat (length (sample_rows 14)) <= TABLE_MAX_ROWS)
    by (vm_compute; congruence).
  assert (H3 : Forall struct_Row (sample_rows 14))
    by (apply valid_rows_struct, sample_rows_valid; lia).
  split; [exact junk_size |]. split; [exact H2 |]. split; [exact H3 |].
  destruct (close_writes_heap_padding junk (sample_rows 14) junk_size H2 H3)
    as (file & Hrun & _ & Hpad).
  exists file. split; [exact Hrun |].
  apply Hpad. vm_compute. split; congruence.
Defined.

(** The accepted statement (X9) for [insert 1 user a@b.c]. *)
Lemma prepared_row_valid_witness :
  struct_Row (rowToInsert sample_statement) /\
  prepareStatement (command_buffer sample_command) sample_statement
  = Ok (PREPARE_SUCCESS,
        {| type := STATEMENT_INSERT;
           rowToInsert := command_row (sample_row 0) sample_command |}) /\
  valid_row (command_row (sample_row 0) sample_command).
Proof.
  assert (H1 : struct_Row (rowToInsert sample_statement))
    by (apply sample_row_valid; lia).
  assert (H2 : prepareStatement (command_buffer sample_command)
                 sample_statement
               = Ok (PREPARE_SUCCESS,
                     {| type := STATEMENT_INSERT;
                        rowToInsert :=
                          command_row (sample_row 0) sample_command |}))
    by (apply (prepareStatement_command sample_command sample_statement),
          sample_command_ok).
  split; [exact H1 |]. split; [exact H2 |].
  exact (proj1 (prepared_row_valid _ _ _ H1 H2)).
Defined.

(** The refused statement (X10) for the line [insert]. *)
Lemma refused_statement_keeps_row_witness :
  prepareStatement kw_insert sample_statement
  = Ok (PREPARE_SYNTAX_ERROR, as_insert sample_statement) /\
  PREPARE_SYNTAX_ERROR <> PREPARE_SUCCESS /\
  rowToInsert (as_insert sample_statement) = rowToInsert sample_statement.
Proof.
  assert (H1 : prepareStatement kw_insert sample_statement
               = Ok (PREPARE_SYNTAX_ERROR, as_insert sample_statement))
    by reflexivity.
  assert (H2 : PREPARE_SYNTAX_ERROR <> PREPARE_SUCCESS) by discriminate.
  split; [exact H1 |]. split; [exact H2 |].
  exact (proj1 (refused_statement_keeps_row _ _ _ _ H1 H2)).
Defined.

(** The keywords (X11) on the line [select]. *)
Lemma statement_keywords_witness :
  c_str kw_select = kw_select /\
  prepareStatement kw_select sample_statement
  = Ok (PREPARE_SUCCESS,
        {| type := STATEMENT_SELECT;
           rowToInsert := rowToInsert sample_statement |}).
Proof.
  assert (H : c_str kw_select = kw_select) by reflexivity.
  split; [exact H |].
  exact (proj1 (proj2 (statement_keywords kw_select sample_statement)) H).
Defined.

(** The missing argument (X12) in the line [insert 1 user]. *)
Lemma insert_missing_arguments_witness :
  prepareStatement
    (kw_insert ++ SPACE :: [Byte.x31] ++ SPACE :: cmd_user sample_command)
    sample_statement
  = Ok (PREPARE_SYNTAX_ERROR, as_insert sample_statement).
Proof.
  apply (insert_missing_arguments _ sample_statement []
           [[Byte.x31]; cmd_user sample_command] 0).
  - reflexivity.
  - constructor.
  - repeat constructor; discriminate.
  - cbn [length]. lia.
Defined.

(** The id that is no number (X13) in the line [insert x user a@b.c]. *)
Lemma insert_non_numeric_id_witness :
  exists statement',
    prepareStatement
      (kw_insert ++ SPACE :: [Byte.x78] ++ SPACE :: cmd_user sample_command
         ++ SPACE :: cmd_email sample_command)
      sample_statement
    = Ok (PREPARE_SUCCESS, statement') /\
    id (rowToInsert statement') = 0.
Proof.
  destruct (insert_non_numeric_id
              (kw_insert ++ SPACE :: [Byte.x78]
                 ++ SPACE :: cmd_user sample_command
                 ++ SPACE :: cmd_email sample_command)
              sample_statement [] Byte.x78 []
              (cmd_user sample_command) (cmd_email sample_command))
    as (st & Hp & _ & Hid & _).
  - reflexivity.
  - constructor.
  - repeat constructor; discriminate.
  - reflexivity.
  - discriminate.
  - discriminate.
  - reflexivity.
  - discriminate.
  - repeat constructor; discriminate.
  - vm_compute. congruence.
  - discriminate.
  - repeat constructor; discriminate.
  - vm_compute. congruence.
  - exists st. split; [exact Hp | exact Hid].
Defined.

(** The parsed line (X14) [insert  -7 user a@b.c x], with two spaces
    before the id and a fourth argument. *)
Lemma insert_line_parsed_witness :
  atoi [Byte.x2d; Byte.x37] = Ok (-7) /\
  prepareStatement
    (kw_insert ++ SPACE :: SPACE :: [Byte.x2d; Byte.x37]
       ++ SPACE :: cmd_user sample_command
       ++ SPACE :: cmd_email sample_command ++ [SPACE; Byte.x78])
    sample_statement
  = Ok (PREPARE_NEGATIVE_ID, as_insert sample_statement).
Proof.
  assert (H : atoi [Byte.x2d; Byte.x37] = Ok (-7)) by reflexivity.
  split; [exact H |].
  apply (insert_line_parsed _ sample_statement [] 1 [Byte.x2d; Byte.x37] 0
           (cmd_user sample_command) 0 (cmd_email sample_command)
           [SPACE; Byte.x78] (-7)).
  - reflexivity.
  - constructor.
  - discriminate.
  - repeat constructor; discriminate.
  - discriminate.
  - repeat constructor; discriminate.
  - discriminate.
  - repeat constructor; discriminate.
  - right. eexists. reflexivity.
  - exact H.
Defined.




(** A statement and the file (X20): an insert into the table of a file of
    one record. *)
Lemma statements_leave_file_witness :
  exists table',
    executeStatement junk
      {| type := STATEMENT_INSERT; rowToInsert := sample_row 1 |}
      (openDatabase (zeros 293))
    = Ok (EXECUTE_SUCCESS, [], table') /\
    contents (fd (pager table')) = zeros 293.
Proof.
  destruct (executeInsertStatement_view junk junk_size (sample_row 1)
              (openDatabase (zeros 293)) (openPager_struct _)
              ltac:(vm_compute; split; congruence)
              (proj1 (sample_row_valid 1 ltac:(lia))))
    as (table' & Hx & _).
  assert (H : executeStatement junk
                {| type := STATEMENT_INSERT; rowToInsert := sample_row 1 |}
                (openDatabase (zeros 293))
              = Ok (EXECUTE_SUCCESS, [], table')).
  { unfold executeStatement. cbn [type rowToInsert]. rewrite Hx.
    reflexivity. }
  exists table'. split; [exact H |].
  exact (proj1 (statements_leave_file junk _ _ _ _ _ H)).
Defined.

(** The block of [newInputBuffer] (X19) under LP64: 8 bytes for a struct
    of 24. *)
Lemma newInputBuffer_block_too_small_witness :
  0 < sizeof_pointer LP64 /\ 0 < sizeof_size_t LP64 /\
  newInputBuffer LP64 = Undefined.
Proof.
  assert (H1 : 0 < sizeof_pointer LP64) by (cbn; lia).
  assert (H2 : 0 < sizeof_size_t LP64) by (cbn; lia).
  split; [exact H1 |]. split; [exact H2 |].
  exact (proj2 (proj2 (newInputBuffer_block_too_small LP64 H1 H2))).
Defined.

(** [main] (X21) under LP64, on an empty file and no input. *)
Lemma main_undefined_run_witness :
  0 < sizeof_pointer LP64 /\ 0 < sizeof_size_t LP64 /\
  main junk sample_stack LP64 (Some []) [] = Fault [].
Proof.
  assert (H1 : 0 < sizeof_pointer LP64) by (cbn; lia).
  assert (H2 : 0 < sizeof_size_t LP64) by (cbn; lia).
  split; [exact H1 |]. split; [exact H2 |].
  exact (proj2 (main_undefined_run junk sample_stack LP64 []) H1 H2 []).
Defined.
